(** * design-3-glo: the step dispatcher and the STM32 protocol driver

    A shallow embedding of
    - [design/interfacing/stm32_driver.py] (class [Stm32Driver] with the
      constant classes [Commands], [Response] and [Constants]), and
    - [design/decision_making/command_dispatcher.py] (class
      [CommandDispatcher]),
    followed by the properties of the two that the specification states. *)

From Stdlib Require Import ZArith Floats.
From Stdlib.Strings Require Import Byte Ascii String.
From stdpp Require Import base decidable option list countable gmap strings pretty.

Local Open Scope Z_scope.

(** ** Python runtime pieces *)

(** The exceptions the modelled code can meet: those its own statements
    raise, and [OtherError], any exception of another class, which only the
    [notify] of an observer can raise. *)
Inductive PyError : Type :=
  | AssertionError (msg : string)
  | StructError
  | PortNotOpenError
  | OverflowError
  | ValueError
  | OtherError (name : string).

(** The outcome of a call that runs on a state [S]: it returns with the new
    state, or it raises, leaving the state as it was at the raise. *)
Inductive Result (S : Type) : Type :=
  | Ok (st : S)
  | Raise (e : PyError) (st : S).
Arguments Ok {S} st.
Arguments Raise {S} e st.

Definition state_of {S : Type} (r : Result S) : S :=
  match r with
  | Ok st => st
  | Raise _ st => st
  end.

Definition raised {S : Type} (r : Result S) : option PyError :=
  match r with
  | Ok _ => None
  | Raise e _ => Some e
  end.

(** [assert cond, msg] followed by the rest of the body. *)
Definition py_assert {S : Type} (cond : bool) (msg : string) (st : S)
    (rest : Result S) : Result S :=
  if cond then rest else Raise (AssertionError msg) st.

(** Python's [sum] over a sequence of ints: a left fold from 0. *)
Definition py_sum (l : list Z) : Z := fold_left Z.add l 0.

(** A byte as the integer in [0, 256) it stands for, and back. *)
Definition Z_of_byte (b : byte) : Z := Z.of_N (Byte.to_N b).

Definition byte_of_Z (z : Z) : byte :=
  default Byte.x00 (Byte.of_N (Z.to_N (z mod 256))).

(** ** The [struct] module, for the two formats the driver uses

    A format is ["<"] (little endian, standard sizes, no padding) followed by
    one ["H"] (unsigned 16-bit integer) per field. *)
Module struct.

Fixpoint count_H (s : string) : option nat :=
  match s with
  | EmptyString => Some O
  | String "H"%char s' => S <$> count_H s'
  | String _ _ => None
  end.

Definition fields (fmt : string) : option nat :=
  match fmt with
  | String "<"%char s => count_H s
  | _ => None
  end.

Definition pack_H (v : Z) : list byte :=
  [byte_of_Z (v mod 256); byte_of_Z (v / 256)].

Definition fits_H (v : Z) : bool := (0 <=? v) && (v <=? 65535).

(** [struct.pack(fmt, *values)]: [None] stands for [struct.error] (wrong
    number of values, or a value outside [0, 65535]). *)
Definition pack (fmt : string) (values : list Z) : option (list byte) :=
  n ← fields fmt;
  if (length values =? n)%nat && forallb fits_H values
  then Some (concat (map pack_H values))
  else None.

Definition unpack_H (lo hi : byte) : Z := Z_of_byte lo + 256 * Z_of_byte hi.

Fixpoint unpack_Hs (data : list byte) : list Z :=
  match data with
  | lo :: hi :: rest => unpack_H lo hi :: unpack_Hs rest
  | _ => []
  end.

(** [struct.unpack(fmt, data)]: [None] stands for [struct.error] (the buffer
    does not have the size the format requires). *)
Definition unpack (fmt : string) (data : list byte) : option (list Z) :=
  n ← fields fmt;
  if (length data =? 2 * n)%nat then Some (unpack_Hs data) else None.

End struct.

(** ** The serial port (pyserial's [serial.Serial]), as far as the driver
    uses it: whether it is open, the received bytes not read yet and the
    bytes written so far. *)
Module serial.

Record Serial : Type := mkSerial {
  is_open : bool;
  rx : list byte;
  tx : list byte;
}.

Definition in_waiting (p : Serial) : nat := length (rx p).

(** [read(size)]: the first [size] received bytes (fewer after the timeout,
    when fewer have arrived), removed from the input buffer. *)
Definition read (size : nat) (p : Serial) : list byte * Serial :=
  (take size (rx p), mkSerial (is_open p) (drop size (rx p)) (tx p)).

(** [write(data)] raises [PortNotOpenError] on a port that is not open and
    sends the bytes otherwise. *)
Definition write (data : list byte) (p : Serial) : Result Serial :=
  if is_open p
  then Ok (mkSerial true (rx p) (tx p ++ data))
  else Raise PortNotOpenError p.

Definition close (p : Serial) : Serial := mkSerial false (rx p) (tx p).

End serial.

(** ** Floating point: [math.pi] and [int()] on a float *)

Definition math_pi : float := 0x1.921fb54442d18p+1%float.

(** The significands of the doubles [2 * math.pi] and [100.0], whose
    exponents are -50 and -46. *)
Definition two_pi_m : positive := 7074237752028440.
Definition hundred_m : positive := 7036874417766400.

(** [int(f)] truncates towards zero; it raises [OverflowError] on an
    infinity and [ValueError] on a NaN. *)
Definition int_of_float (f : float) : PyError + Z :=
  match Prim2SF f with
  | S754_zero _ => inr 0
  | S754_finite s m e =>
      let a := if 0 <=? e then Z.pos m * 2 ^ e else Z.pos m / 2 ^ (- e) in
      inr (if s then - a else a)
  | S754_infinity _ => inl OverflowError
  | S754_nan => inl ValueError
  end.

(** ** [stm32_driver.py] *)

Module Commands.
Definition TRANSLATE : Z := 0x0000.
Definition ROTATE : Z := 0x0001.
Definition FLASH_GREEN_LED : Z := 0x0002.
Definition ENABLE_RED_LED : Z := 0x0003.
Definition ENABLE_ADC : Z := 0x0004.
Definition DECODE_MANCHESTER : Z := 0x0005.
Definition STOP : Z := 0x0006.
Definition RESET : Z := 0x0007.
End Commands.

Module Response.
Definition STM_READY : Z := 0x0008.
Definition SIGNAL_STRENGTH : Z := 0x0009.
Definition SIGNAL_DATA : Z := 0x000A.
End Response.

Module Constants.
Definition EMPTY_PARAM : Z := 0x0000.
Definition ENABLED : Z := 0xFFFF.
Definition DISABLED : Z := 0x0000.
Definition MASK_FIGURE : Z := 0x70.
Definition MASK_ORIENTATION : Z := 0x0C.
Definition MASK_ZOOM : Z := 0x02.
End Constants.

(** Modelled from the spec: the class [AntennaInformation] of
    [design.pathfinding.antenna_information] is not among the sources. The
    specification describes it as the decoded telemetry with a painting
    identifier, a zoom level and an orientation; these are the three
    attributes the driver assigns on the fresh instance. *)
Record AntennaInformation : Type := mkAntennaInformation {
  painting_number : Z;
  zoom : Z;
  orientation : Z;
}.

Module Stm32Driver.

(** A registered observer: its identity, and whether its [notify] returns
    ([None]) or raises, given the number of [notify] calls the driver has
    made before this one and the response type passed. What [notify] does
    besides is outside the driver; an observer whose [notify] calls back into
    the driver is outside the model. *)
Record Observer : Type := mkObserver {
  observer_id : nat;
  notify_raises : nat -> Z -> option PyError;
}.

(** The driver object ([observers] to [antenna_information]) together with
    the two things its methods act on besides it: the lines printed on the
    standard output and the [notify] calls made so far, oldest first (a call
    that raised is among them). *)
Record State : Type := mkState {
  observers : list Observer;
  port : serial.Serial;
  is_running : bool;
  is_ready : bool;
  signal_strength : option Z;
  antenna_information : option AntennaInformation;
  stdout : list string;
  notified : list (Observer * Z);
}.

Definition command_format : string := "<HHHH".
Definition response_format : string := "<HHH".
Definition response_size : nat := 6.

Definition set_port (p : serial.Serial) (st : State) : State :=
  mkState (observers st) p (is_running st) (is_ready st) (signal_strength st)
          (antenna_information st) (stdout st) (notified st).

Definition set_is_running (b : bool) (st : State) : State :=
  mkState (observers st) (port st) b (is_ready st) (signal_strength st)
          (antenna_information st) (stdout st) (notified st).

Definition set_is_ready (b : bool) (st : State) : State :=
  mkState (observers st) (port st) (is_running st) b (signal_strength st)
          (antenna_information st) (stdout st) (notified st).

Definition set_signal_strength (v : option Z) (st : State) : State :=
  mkState (observers st) (port st) (is_running st) (is_ready st) v
          (antenna_information st) (stdout st) (notified st).

Definition set_antenna_information (a : option AntennaInformation)
    (st : State) : State :=
  mkState (observers st) (port st) (is_running st) (is_ready st)
          (signal_strength st) a (stdout st) (notified st).

Definition print (line : string) (st : State) : State :=
  mkState (observers st) (port st) (is_running st) (is_ready st)
          (signal_strength st) (antenna_information st)
          (stdout st ++ [line]) (notified st).

Definition set_notified (calls : list (Observer * Z)) (st : State) : State :=
  mkState (observers st) (port st) (is_running st) (is_ready st)
          (signal_strength st) (antenna_information st) (stdout st) calls.

(** [observer.notify(response_type)]: the call is made, and it returns or
    raises as the observer does. *)
Definition notify (o : Observer) (response_type : Z) (st : State)
    : Result State :=
  let st' := set_notified (notified st ++ [(o, response_type)]) st in
  match notify_raises o (length (notified st)) response_type with
  | None => Ok st'
  | Some e => Raise e st'
  end.

(** The state [__init__] leaves behind once the port [p] is open (the
    detection of the serial device is outside the model). *)
Definition init (p : serial.Serial) : State :=
  mkState [] p true false None None [] [].

Definition register_hardware_observer (observer : Observer) (st : State)
    : State :=
  mkState (observers st ++ [observer]) (port st) (is_running st) (is_ready st)
          (signal_strength st) (antenna_information st)
          (stdout st) (notified st).

(** The [for] loop of [notify_all_observers] over the observers [l]: an
    exception raised by a [notify] ends it, so the observers after that one
    are not called. *)
Fixpoint notify_each (l : list Observer) (response_type : Z) (st : State)
    : Result State :=
  match l with
  | [] => Ok st
  | o :: l' =>
      match notify o response_type st with
      | Ok st' => notify_each l' response_type st'
      | Raise e st' => Raise e st'
      end
  end.

Definition notify_all_observers (response_type : Z) (st : State)
    : Result State :=
  notify_each (observers st) response_type st.

Definition send_command (command param1 param2 : Z) (st : State)
    : Result State :=
  let checksum := (65536 - command - param1 - param2) mod 65536 in
  match struct.pack command_format [command; param1; param2; checksum] with
  | None => Raise StructError st
  | Some packet =>
      match serial.write packet (port st) with
      | Ok p => Ok (set_port p st)
      | Raise e p => Raise e (set_port p st)
      end
  end.

(** The arguments are ints by their type, which is what the two
    [isinstance] assertions ask for. *)
Definition translate_robot (dx dy : Z) (st : State) : Result State :=
  py_assert ((-32768 <=? dx) && (dx <=? 32767))
    "The horizontal distance should be a 16 bits signed int." st
  (py_assert ((-32768 <=? dy) && (dy <=? 32767))
    "The vertical distance should be a 16 bits signed int." st
  (send_command Commands.TRANSLATE (dx + 32768) (dy + 32768) st)).

(** [theta] is the float the argument stands for (an int argument is
    promoted to it by the arithmetic below). *)
Definition rotate_robot (theta : float) (st : State) : Result State :=
  py_assert (PrimFloat.leb (-2 * math_pi)%float theta
             && PrimFloat.leb theta (2 * math_pi)%float)
    "The rotation angle should be in the range [-2Pi, 2Pi]." st
  (match int_of_float ((theta + 2 * math_pi) * 100)%float with
   | inl e => Raise e st
   | inr converted =>
       send_command Commands.ROTATE converted Constants.EMPTY_PARAM st
   end).

Definition stop_robot (st : State) : Result State :=
  send_command Commands.STOP Constants.EMPTY_PARAM Constants.EMPTY_PARAM st.

Definition reset_robot (st : State) : Result State :=
  send_command Commands.RESET Constants.EMPTY_PARAM Constants.EMPTY_PARAM st.

Definition enable_red_led (is_enabled : bool) (st : State) : Result State :=
  let param := if is_enabled then Constants.ENABLED else Constants.DISABLED in
  send_command Commands.ENABLE_RED_LED param Constants.EMPTY_PARAM st.

Definition flash_green_led (milliseconds : Z) (st : State) : Result State :=
  py_assert ((0 <=? milliseconds) && (milliseconds <=? 65535))
    "The duration should be a 16 bits unsigned int." st
  (send_command Commands.FLASH_GREEN_LED milliseconds Constants.EMPTY_PARAM st).

Definition enable_sampling (is_enabled : bool) (st : State) : Result State :=
  let param := if is_enabled then Constants.ENABLED else Constants.DISABLED in
  send_command Commands.ENABLE_ADC param Constants.EMPTY_PARAM st.

Definition decode_manchester (st : State) : Result State :=
  send_command Commands.DECODE_MANCHESTER
    Constants.EMPTY_PARAM Constants.EMPTY_PARAM st.

(** [validate_checksum] is a static method; besides its answer it gives the
    lines it prints. *)
Definition validate_checksum (data_list : list Z) : bool * list string :=
  let checksum := py_sum data_list mod 65536 in
  if checksum =? 0
  then (true, [])
  else (false,
        ["Invalid Checksum : expected = 0, calculated = " +:+ pretty checksum]).

(** [data_list[i]]; the tuples indexed below have three fields. *)
Definition item (data_list : list Z) (i : nat) : Z := nth i data_list 0.

(** The branch of [run] taken on a frame whose checksum validates. *)
Definition handle_response (data_list : list Z) (st : State) : Result State :=
  if item data_list 0 =? Response.STM_READY then
    Ok (set_is_ready true st)
  else if item data_list 0 =? Response.SIGNAL_STRENGTH then
    notify_all_observers Response.SIGNAL_STRENGTH
      (set_signal_strength (Some (item data_list 1)) st)
  else if item data_list 0 =? Response.SIGNAL_DATA then
    let painting_number := Z.land (item data_list 1) Constants.MASK_FIGURE in
    let zoom := Z.land (item data_list 1) (Constants.MASK_ZOOM + 2) in
    let orientation :=
      (360 - Z.land (item data_list 1) Constants.MASK_ORIENTATION * 90)
      mod 360 in
    let st1 := print "DRIVER IS BUILDING ANTENNA_INFO" st in
    notify_all_observers Response.SIGNAL_DATA
      (set_antenna_information
         (Some (mkAntennaInformation painting_number zoom orientation)) st1)
  else
    Ok (print "Invalid opcode" st).

(** The [try] statement of [run] around [body]: its one handler,
    [except struct.error], prints a line and the turn ends normally; any
    other exception goes through. *)
Definition except_struct_error (body : Result State) : Result State :=
  match body with
  | Raise StructError st => Ok (print "Invalid received packet" st)
  | _ => body
  end.

(** One turn of the [while] loop of [run]. *)
Definition run_turn (st : State) : Result State :=
  if (response_size <=? serial.in_waiting (port st))%nat then
    let '(data_array, p) := serial.read response_size (port st) in
    let st1 := set_port p st in
    except_struct_error
      match struct.unpack response_format data_array with
      | Some data_list =>
          let '(valid, lines) := validate_checksum data_list in
          let st2 := fold_left (fun s l => print l s) lines st1 in
          if valid then handle_response data_list st2 else Ok st2
      | None => Raise StructError st1
      end
  else Ok st.

(** The driver as a turn of the loop leaves it, whether the turn ends
    normally or by an exception. *)
Definition run_iteration (st : State) : State := state_of (run_turn st).

(** [run]: the loop, then [self.port.close()]. [None] when the loop has not
    ended within [fuel] turns. An exception that leaves a turn ends [run]
    there: the statement after the loop, which closes the port, is not
    reached. *)
Fixpoint run (fuel : nat) (st : State) : option (Result State) :=
  match fuel with
  | O => None
  | S fuel' =>
      if is_running st
      then match run_turn st with
           | Ok st' => run fuel' st'
           | Raise e st' => Some (Raise e st')
           end
      else Some (Ok (set_port (serial.close (port st)) st))
  end.

(** Where the receive thread, whose target is [run], is when [close] is
    called: about to test the flag, past the test and in a turn (which it
    completes before it tests again), or ended already by an exception that
    left [run]. *)
Inductive ReceiveThread : Type :=
  | AtLoopTest
  | InTurn
  | Ended.

(** [close]: clear the flag and join the receive thread. The join returns
    once the thread has ended, by the end of [run] or by an exception;
    [None] when it has not ended within [fuel] turns. *)
Definition close (thread : ReceiveThread) (fuel : nat) (st : State)
    : option State :=
  let st1 := set_is_running false st in
  match thread with
  | AtLoopTest => state_of <$> run fuel st1
  | InTurn =>
      match run_turn st1 with
      | Ok st2 => state_of <$> run fuel st2
      | Raise _ st2 => Some st2
      end
  | Ended => Some st1
  end.

End Stm32Driver.

(** ** [command_dispatcher.py] *)

(** Modelled from the spec: the enumeration [Step] of
    [design.decision_making.constants] is not among the sources. Its members
    that the dispatcher names are the constructors below, distinct from one
    another; [OTHER_STEP n] stands for a member the dispatcher does not
    name. *)
Inductive Step : Type :=
  | STANBY
  | PREPARE_TRAVEL_TO_ANTENNA_ZONE
  | TERMINATE_SEQUENCE
  | COMPUTE_PAINTINGS_AREA
  | PREPARE_SEARCH_FOR_ANTENNA
  | SEARCH_FOR_ANTENNA
  | PREPARE_MOVING_TO_ANTENNA_POSITION
  | PREPARE_MARKING_ANTENNA_POSITION
  | ACQUIRE_INFORMATION_FROM_ANTENNA
  | PREPARE_TRAVEL_TO_DRAWING_ZONE
  | PREPARE_TO_DRAW
  | PREPARE_EXIT_OF_DRAWING_ZONE
  | PREPARE_CAPTURE_OF_PAINTING
  | CAPTURE_CORRECT_PAINTING
  | REPOSITION_FOR_CAPTURE_RETRY
  | PREPARE_MOVING_TO_OFFSET
  | PREPARE_ALIGN_WITH_CAPTURE
  | PREPARE_REALIGN_WITH_FIRST_VERTEX_DRAWN
  | ROTATE_BACK_AFTER_CAPTURE
  | ROTATE_TO_FACE_PAINTING
  | ROTATE_TO_STANDARD_HEADING
  | DRAWING
  | MARKING_ANTENNA_POSITION
  | TRAVEL_TO_DRAWING_ZONE
  | TRAVEL_TO_PAINTINGS_AREA
  | EXITING_DRAWING_ZONE
  | OTHER_STEP (n : nat).

#[global] Instance Step_eq_dec : EqDecision Step.
Proof. solve_decision. Defined.

Definition nat_of_Step (s : Step) : nat :=
  match s with
  | STANBY => 0
  | PREPARE_TRAVEL_TO_ANTENNA_ZONE => 1
  | TERMINATE_SEQUENCE => 2
  | COMPUTE_PAINTINGS_AREA => 3
  | PREPARE_SEARCH_FOR_ANTENNA => 4
  | SEARCH_FOR_ANTENNA => 5
  | PREPARE_MOVING_TO_ANTENNA_POSITION => 6
  | PREPARE_MARKING_ANTENNA_POSITION => 7
  | ACQUIRE_INFORMATION_FROM_ANTENNA => 8
  | PREPARE_TRAVEL_TO_DRAWING_ZONE => 9
  | PREPARE_TO_DRAW => 10
  | PREPARE_EXIT_OF_DRAWING_ZONE => 11
  | PREPARE_CAPTURE_OF_PAINTING => 12
  | CAPTURE_CORRECT_PAINTING => 13
  | REPOSITION_FOR_CAPTURE_RETRY => 14
  | PREPARE_MOVING_TO_OFFSET => 15
  | PREPARE_ALIGN_WITH_CAPTURE => 16
  | PREPARE_REALIGN_WITH_FIRST_VERTEX_DRAWN => 17
  | ROTATE_BACK_AFTER_CAPTURE => 18
  | ROTATE_TO_FACE_PAINTING => 19
  | ROTATE_TO_STANDARD_HEADING => 20
  | DRAWING => 21
  | MARKING_ANTENNA_POSITION => 22
  | TRAVEL_TO_DRAWING_ZONE => 23
  | TRAVEL_TO_PAINTINGS_AREA => 24
  | EXITING_DRAWING_ZONE => 25
  | OTHER_STEP n => 26 + n
  end%nat.

Definition Step_of_nat (k : nat) : Step :=
  match k with
  | 0 => STANBY
  | 1 => PREPARE_TRAVEL_TO_ANTENNA_ZONE
  | 2 => TERMINATE_SEQUENCE
  | 3 => COMPUTE_PAINTINGS_AREA
  | 4 => PREPARE_SEARCH_FOR_ANTENNA
  | 5 => SEARCH_FOR_ANTENNA
  | 6 => PREPARE_MOVING_TO_ANTENNA_POSITION
  | 7 => PREPARE_MARKING_ANTENNA_POSITION
  | 8 => ACQUIRE_INFORMATION_FROM_ANTENNA
  | 9 => PREPARE_TRAVEL_TO_DRAWING_ZONE
  | 10 => PREPARE_TO_DRAW
  | 11 => PREPARE_EXIT_OF_DRAWING_ZONE
  | 12 => PREPARE_CAPTURE_OF_PAINTING
  | 13 => CAPTURE_CORRECT_PAINTING
  | 14 => REPOSITION_FOR_CAPTURE_RETRY
  | 15 => PREPARE_MOVING_TO_OFFSET
  | 16 => PREPARE_ALIGN_WITH_CAPTURE
  | 17 => PREPARE_REALIGN_WITH_FIRST_VERTEX_DRAWN
  | 18 => ROTATE_BACK_AFTER_CAPTURE
  | 19 => ROTATE_TO_FACE_PAINTING
  | 20 => ROTATE_TO_STANDARD_HEADING
  | 21 => DRAWING
  | 22 => MARKING_ANTENNA_POSITION
  | 23 => TRAVEL_TO_DRAWING_ZONE
  | 24 => TRAVEL_TO_PAINTINGS_AREA
  | 25 => EXITING_DRAWING_ZONE
  | _ => OTHER_STEP (k - 26)
  end%nat.

#[global] Instance Step_countable : Countable Step.
Proof.
  refine (inj_countable' nat_of_Step Step_of_nat _).
  intros [ | | | | | | | | | | | | | | | | | | | | | | | | | | n];
    try reflexivity.
  change (OTHER_STEP (26 + n - 26) = OTHER_STEP n).
  f_equal. lia.
Defined.

(** Modelled from the spec: the two enumerations of servoing modes of
    [design.decision_making.constants] are not among the sources; each has
    the two members the dispatcher assigns. *)
Module TranslationStrategyType.
Inductive t : Type := TRUST_MATERIAL_SERVOING | BASIC_WHEEL_SERVOING.
End TranslationStrategyType.

Module RotationStrategyType.
Inductive t : Type := TRUST_MATERIAL_SERVOING | BASIC_WHEEL_SERVOING.
End RotationStrategyType.

(** A reference to an object: the collaborators handed to the dispatcher
    are known by their identity only. *)
Definition Ref : Type := nat.

(** An argument of a constructor or factory call: a step or an object. *)
Inductive Arg : Type :=
  | AStep (s : Step)
  | AObj (r : Ref).

(** The command classes imported from
    [design.decision_making.preparation_commands]. *)
Inductive CommandClass : Type :=
  | BuildGameMapCommand
  | FinishCycleCommand
  | TravelToPaintingsAreaCommand
  | PrepareSearchForAntennaPositionCommand
  | SearchForAntennaPositionCommand
  | PrepareMarkingAntennaCommand
  | PrepareTravelToDrawingAreaCommand
  | PrepareToDrawCommand
  | AcquireInformationFromAntennaCommand
  | PrepareExitOfDrawingAreaCommand
  | FaceRelevantFigureForCaptureCommand
  | CaptureFigureCommand
  | PrepareTravelToAntennaAreaCommand
  | PrepareMovingToAntennaPositionCommand
  | RepositionForCaptureRetryCommand
  | PrepareMovingOfAntennaOffsetCommand
  | PrepareAlignWithCaptureCommand
  | PrepareRealignWithFirstVertexDrawnCommand
  | MovementCommand (name : string).

(** A command object: its identity (two commands are the same object when
    they have the same [cmd_id]), its class and the arguments it was
    constructed with. [MovementCommand] stands for the classes of the
    commands the movement strategy hands out. *)
Record Command : Type := mkCommand {
  cmd_id : nat;
  cmd_class : CommandClass;
  cmd_args : list Arg;
}.

(** Modelled from the spec: the command classes are not among the sources.
    The specification gives a command the single operation "execute", so a
    command object defines neither [__bool__] nor [__len__] and Python's
    truth test holds for it; it fails for [None]. *)
Definition truth_value (v : option Command) : bool :=
  match v with
  | Some _ => true
  | None => false
  end.

(** Object construction: a computation that draws identities from a
    counter of the next unused one. *)
Definition Alloc (A : Type) : Type := nat -> A * nat.

Definition alloc_ret {A : Type} (a : A) : Alloc A := fun n => (a, n).

Definition alloc_bind {A B : Type} (m : Alloc A) (k : A -> Alloc B)
    : Alloc B :=
  fun n => let '(a, n') := m n in k a n'.

(** A call of the class [cls] on [args]: a new object of that class. *)
Definition new (cls : CommandClass) (args : list Arg) : Alloc Command :=
  fun n => (mkCommand n cls args, S n).

(** The two mode fields of the shared movement strategy object. *)
Record MovementStrategy : Type := mkMovementStrategy {
  translation_strategy : TranslationStrategyType.t;
  rotation_strategy : RotationStrategyType.t;
}.

(** Modelled from the spec: the movement strategy class is not among the
    sources. Its two factory operations take the step and the shared
    controller, pathfinder, logger and servo manager and give a command;
    they read the receiver's mode fields. The value is [None] or a command,
    as for any Python call. *)
Class MovementStrategyMethods : Type := {
  get_rotation_command : MovementStrategy -> list Arg -> option Command;
  get_translation_command : MovementStrategy -> list Arg -> option Command;
}.

Module CommandDispatcher.

Record t : Type := mkCommandDispatcher {
  movement_strategy : Ref;
  interfacing_controller : Ref;
  pathfinder : Ref;
  logger : Ref;
  servo_wheels_manager : Ref;
  steps_using_rotation : list Step;
  steps_using_translation_material_servo_management : list Step;
  steps_using_rotation_material_servo_management : list Step;
  equivalencies : gmap Step Command;
}.

Local Notation "'let*' x := m 'in' k" := (alloc_bind m (fun x => k))
  (at level 10, x name, m at level 100, k at level 200).

(** [__init__]: the eighteen commands are constructed in the order of the
    dictionary display, each with the arguments the source gives it. *)
Definition init (movement_strategies interfacing_controller pathfinder logger
    onboard_vision antenna_information servo_wheels_manager
    capture_repositioning_manager : Ref) : Alloc t :=
  let ic := AObj interfacing_controller in
  let pf := AObj pathfinder in
  let lg := AObj logger in
  let ov := AObj onboard_vision in
  let ai := AObj antenna_information in
  let* c1 := new BuildGameMapCommand [AStep STANBY; ic; pf; lg] in
  let* c2 := new PrepareTravelToAntennaAreaCommand
          [AStep PREPARE_TRAVEL_TO_ANTENNA_ZONE; ic; pf; lg] in
  let* c3 := new FinishCycleCommand [AStep TERMINATE_SEQUENCE; ic; pf; lg] in
  let* c4 := new TravelToPaintingsAreaCommand
          [AStep COMPUTE_PAINTINGS_AREA; ic; pf; lg; ai] in
  let* c5 := new PrepareSearchForAntennaPositionCommand
          [AStep PREPARE_SEARCH_FOR_ANTENNA; ic; pf; lg] in
  let* c6 := new SearchForAntennaPositionCommand
          [AObj movement_strategies; AStep SEARCH_FOR_ANTENNA; ic; pf; lg; ai;
           AObj servo_wheels_manager] in
  let* c7 := new PrepareMovingToAntennaPositionCommand
          [AStep PREPARE_MOVING_TO_ANTENNA_POSITION; ic; pf; lg; ai] in
  let* c8 := new PrepareMarkingAntennaCommand
          [AStep PREPARE_MARKING_ANTENNA_POSITION; ic; pf; lg; ai] in
  let* c9 := new AcquireInformationFromAntennaCommand
          [AStep ACQUIRE_INFORMATION_FROM_ANTENNA; ic; pf; lg; ai] in
  let* c10 := new PrepareTravelToDrawingAreaCommand
          [AStep PREPARE_TRAVEL_TO_DRAWING_ZONE; ic; pf; lg; ov; ai] in
  let* c11 := new PrepareToDrawCommand
          [AStep PREPARE_TO_DRAW; ic; pf; lg; ov; ai] in
  let* c12 := new PrepareExitOfDrawingAreaCommand
          [AStep PREPARE_EXIT_OF_DRAWING_ZONE; ic; pf; lg] in
  let* c13 := new FaceRelevantFigureForCaptureCommand
          [AStep PREPARE_CAPTURE_OF_PAINTING; ic; pf; lg; ai] in
  let* c14 := new CaptureFigureCommand
          [AStep CAPTURE_CORRECT_PAINTING; ic; pf; lg; ai; ov] in
  let* c15 := new RepositionForCaptureRetryCommand
          [AStep REPOSITION_FOR_CAPTURE_RETRY; ic; pf; lg;
           AObj capture_repositioning_manager] in
  let* c16 := new PrepareMovingOfAntennaOffsetCommand
          [AStep PREPARE_MOVING_TO_OFFSET; ic; pf; lg] in
  let* c17 := new PrepareAlignWithCaptureCommand
          [AStep PREPARE_ALIGN_WITH_CAPTURE; ic; pf; lg; ai] in
  let* c18 := new PrepareRealignWithFirstVertexDrawnCommand
          [AStep PREPARE_REALIGN_WITH_FIRST_VERTEX_DRAWN; ic; pf; lg; ov; ai] in
  alloc_ret
    (mkCommandDispatcher
       movement_strategies interfacing_controller pathfinder logger
       servo_wheels_manager
       [ROTATE_BACK_AFTER_CAPTURE; ROTATE_TO_FACE_PAINTING;
        ROTATE_TO_STANDARD_HEADING]
       [DRAWING; MARKING_ANTENNA_POSITION; TRAVEL_TO_DRAWING_ZONE;
        TRAVEL_TO_PAINTINGS_AREA; SEARCH_FOR_ANTENNA; EXITING_DRAWING_ZONE]
       [ROTATE_TO_FACE_PAINTING; ROTATE_BACK_AFTER_CAPTURE]
       (<[STANBY := c1]>
        (<[PREPARE_TRAVEL_TO_ANTENNA_ZONE := c2]>
        (<[TERMINATE_SEQUENCE := c3]>
        (<[COMPUTE_PAINTINGS_AREA := c4]>
        (<[PREPARE_SEARCH_FOR_ANTENNA := c5]>
        (<[SEARCH_FOR_ANTENNA := c6]>
        (<[PREPARE_MOVING_TO_ANTENNA_POSITION := c7]>
        (<[PREPARE_MARKING_ANTENNA_POSITION := c8]>
        (<[ACQUIRE_INFORMATION_FROM_ANTENNA := c9]>
        (<[PREPARE_TRAVEL_TO_DRAWING_ZONE := c10]>
        (<[PREPARE_TO_DRAW := c11]>
        (<[PREPARE_EXIT_OF_DRAWING_ZONE := c12]>
        (<[PREPARE_CAPTURE_OF_PAINTING := c13]>
        (<[CAPTURE_CORRECT_PAINTING := c14]>
        (<[REPOSITION_FOR_CAPTURE_RETRY := c15]>
        (<[PREPARE_MOVING_TO_OFFSET := c16]>
        (<[PREPARE_ALIGN_WITH_CAPTURE := c17]>
        (<[PREPARE_REALIGN_WITH_FIRST_VERTEX_DRAWN := c18]> ∅))))))))))))))))))).

(** [get_relevant_command]: the value returned and the movement strategy's
    fields after the call. [ms] is the state of the shared movement strategy
    object when the call is made. *)
Definition get_relevant_command `{MovementStrategyMethods} (self : t)
    (current_step : Step) (ms : MovementStrategy)
    : option Command * MovementStrategy :=
  let ms1 :=
    if bool_decide
         (current_step ∈ steps_using_translation_material_servo_management self)
    then mkMovementStrategy TranslationStrategyType.TRUST_MATERIAL_SERVOING
                            (rotation_strategy ms)
    else mkMovementStrategy TranslationStrategyType.BASIC_WHEEL_SERVOING
                            (rotation_strategy ms) in
  let ms2 :=
    if bool_decide
         (current_step ∈ steps_using_rotation_material_servo_management self)
    then mkMovementStrategy (translation_strategy ms1)
                            RotationStrategyType.TRUST_MATERIAL_SERVOING
    else mkMovementStrategy (translation_strategy ms1)
                            RotationStrategyType.BASIC_WHEEL_SERVOING in
  let command := equivalencies self !! current_step in
  let args := [AStep current_step; AObj (interfacing_controller self);
               AObj (pathfinder self); AObj (logger self);
               AObj (servo_wheels_manager self)] in
  if truth_value command then (command, ms2)
  else if bool_decide (current_step ∈ steps_using_rotation self)
  then (get_rotation_command ms2 args, ms2)
  else (get_translation_command ms2 args, ms2).

End CommandDispatcher.

(** ** Python's [queue.Queue], as far as the command handler uses it

    A FIFO queue with a capacity; a capacity of zero or less means no
    bound. *)
Module queue.
Section Queue.
Context {A : Type}.

Record Queue : Type := mkQueue {
  maxsize : Z;
  items : list A;
}.

Definition qsize (q : Queue) : nat := length (items q).

(** [put_nowait(item)]: [None] stands for the exception [queue.Full]. *)
Definition put_nowait (item : A) (q : Queue) : option Queue :=
  if (0 <? maxsize q) && (maxsize q <=? Z.of_nat (qsize q))
  then None
  else Some (mkQueue (maxsize q) (items q ++ [item])).

(** [get_nowait()]: [None] stands for the exception [queue.Empty]. *)
Definition get_nowait (q : Queue) : option (A * Queue) :=
  match items q with
  | [] => None
  | item :: rest => Some (item, mkQueue (maxsize q) rest)
  end.

End Queue.
Arguments Queue A : clear implicits.
End queue.

(** ** [telemetry/commands.py] *)

Module CommandHandler.
Section Handler.
Context {Packet : Type}.

(** The handler object: its two queues. The caller of [__init__] hands over
    two queue objects or twice the same one, so [_consumed] and [_produced]
    are two queues or two names of one queue. The selector and the thread
    [__init__] starts on it are outside the model. *)
Inductive t : Type :=
  | Separate (consumed produced : queue.Queue Packet)
  | Shared (both : queue.Queue Packet).

Definition _consumed (self : t) : queue.Queue Packet :=
  match self with
  | Separate consumed _ => consumed
  | Shared both => both
  end.

Definition _produced (self : t) : queue.Queue Packet :=
  match self with
  | Separate _ produced => produced
  | Shared both => both
  end.

(** The handler after the queue [_consumed] names has become [q]. *)
Definition with_consumed (q : queue.Queue Packet) (self : t) : t :=
  match self with
  | Separate _ produced => Separate q produced
  | Shared _ => Shared q
  end.

(** The handler after the queue [_produced] names has become [q]. *)
Definition with_produced (q : queue.Queue Packet) (self : t) : t :=
  match self with
  | Separate consumed _ => Separate consumed q
  | Shared _ => Shared q
  end.

(** [put_command]: [queue.Full] is caught and dropped. *)
Definition put_command (packet : Packet) (self : t) : t :=
  match queue.put_nowait packet (_consumed self) with
  | Some q => with_consumed q self
  | None => self
  end.

(** [fetch_command]: the value returned ([None] after [queue.Empty]) and
    the handler after the call. *)
Definition fetch_command (self : t) : option Packet * t :=
  match queue.get_nowait (_produced self) with
  | Some (command, q) => (Some command, with_produced q self)
  | None => (None, self)
  end.

End Handler.
Arguments t Packet : clear implicits.
End CommandHandler.

(** ** [ui/models/main_model.py] *)

Module MainModel.

(** A view method handed to the model is known by its identity (Python
    compares two of them with [==]); what a call of it does is outside the
    model. *)
Definition Callback : Type := nat.

(** The model object, and with it the calls [announce_update] has made so
    far, oldest first. *)
Record t : Type := mkMainModel {
  time : Z;
  timer_is_on : bool;
  start_new_cycle : bool;
  find_robot_flag : bool;
  log_messages : string;
  _update_functions : list Callback;
  called : list Callback;
}.

(** The object [__init__] leaves behind. *)
Definition init : t := mkMainModel 0 false false false "" [] [].

Definition set_update_functions (l : list Callback) (self : t) : t :=
  mkMainModel (time self) (timer_is_on self) (start_new_cycle self)
              (find_robot_flag self) (log_messages self) l (called self).

(** [list.remove(x)]: the list without the first item equal to [x]. The
    caller below has checked that there is one. *)
Fixpoint list_remove (x : Callback) (l : list Callback) : list Callback :=
  match l with
  | [] => []
  | y :: l' => if decide (x = y) then l' else y :: list_remove x l'
  end.

Definition subscribe_update_function (function : Callback) (self : t) : t :=
  if bool_decide (function ∈ _update_functions self)
  then self
  else set_update_functions (_update_functions self ++ [function]) self.

Definition unsubscribe_update_function (function : Callback) (self : t)
    : t :=
  if bool_decide (function ∈ _update_functions self)
  then set_update_functions (list_remove function (_update_functions self))
                            self
  else self.


End MainModel.

(** ** Vocabulary of the statements *)

(** What a turn of the loop may change on a discarded frame: the input
    buffer and the printed lines, nothing else. *)
Definition only_consumes (n : nat) (st st' : Stm32Driver.State) : Prop :=
  Stm32Driver.observers st' = Stm32Driver.observers st
  /\ Stm32Driver.is_running st' = Stm32Driver.is_running st
  /\ Stm32Driver.is_ready st' = Stm32Driver.is_ready st
  /\ Stm32Driver.signal_strength st' = Stm32Driver.signal_strength st
  /\ Stm32Driver.antenna_information st' = Stm32Driver.antenna_information st
  /\ Stm32Driver.notified st' = Stm32Driver.notified st
  /\ serial.is_open (Stm32Driver.port st')
     = serial.is_open (Stm32Driver.port st)
  /\ serial.tx (Stm32Driver.port st') = serial.tx (Stm32Driver.port st)
  /\ serial.rx (Stm32Driver.port st')
     = drop n (serial.rx (Stm32Driver.port st)).

(** The range of a 16-bit signed int. *)
Definition in_int16 (v : Z) : Prop := -32768 <= v <= 32767.

(** The six bytes of a response with a valid checksum, as the STM32 sends
    it: opcode, parameter and the field that makes the three sum to 0. *)
Definition response_frame (opcode param : Z) : list byte :=
  struct.pack_H opcode ++ struct.pack_H param
  ++ struct.pack_H ((65536 - opcode - param) mod 65536).

(** A call of one of the driver's outbound command methods. *)
Inductive OutboundCall : Type :=
  | CallTranslateRobot (dx dy : Z)
  | CallRotateRobot (theta : float)
  | CallStopRobot
  | CallResetRobot
  | CallEnableRedLed (is_enabled : bool)
  | CallFlashGreenLed (milliseconds : Z)
  | CallEnableSampling (is_enabled : bool)
  | CallDecodeManchester.

Definition call (c : OutboundCall) (st : Stm32Driver.State)
    : Result Stm32Driver.State :=
  match c with
  | CallTranslateRobot dx dy => Stm32Driver.translate_robot dx dy st
  | CallRotateRobot theta => Stm32Driver.rotate_robot theta st
  | CallStopRobot => Stm32Driver.stop_robot st
  | CallResetRobot => Stm32Driver.reset_robot st
  | CallEnableRedLed is_enabled => Stm32Driver.enable_red_led is_enabled st
  | CallFlashGreenLed milliseconds =>
      Stm32Driver.flash_green_led milliseconds st
  | CallEnableSampling is_enabled => Stm32Driver.enable_sampling is_enabled st
  | CallDecodeManchester => Stm32Driver.decode_manchester st
  end.

(** Whether the arguments of a call pass the method's range assertions. *)
Definition passes_validation (c : OutboundCall) : bool :=
  match c with
  | CallTranslateRobot dx dy =>
      ((-32768 <=? dx) && (dx <=? 32767))
      && ((-32768 <=? dy) && (dy <=? 32767))
  | CallRotateRobot theta =>
      PrimFloat.leb (-2 * math_pi)%float theta
      && PrimFloat.leb theta (2 * math_pi)%float
  | CallFlashGreenLed milliseconds =>
      (0 <=? milliseconds) && (milliseconds <=? 65535)
  | _ => true
  end.

(** The arguments of [CommandDispatcher.__init__]: the eight collaborators,
    and the next unused object identity when it is called. *)
Record InitArgs : Type := mkInitArgs {
  arg_movement_strategies : Ref;
  arg_interfacing_controller : Ref;
  arg_pathfinder : Ref;
  arg_logger : Ref;
  arg_onboard_vision : Ref;
  arg_antenna_information : Ref;
  arg_servo_wheels_manager : Ref;
  arg_capture_repositioning_manager : Ref;
  next_id : nat;
}.

(** The dispatcher [__init__] builds. *)
Definition built (a : InitArgs) : CommandDispatcher.t :=
  fst (CommandDispatcher.init
         (arg_movement_strategies a) (arg_interfacing_controller a)
         (arg_pathfinder a) (arg_logger a) (arg_onboard_vision a)
         (arg_antenna_information a) (arg_servo_wheels_manager a)
         (arg_capture_repositioning_manager a) (next_id a)).

(** The arguments [get_relevant_command] hands to a factory. *)
Definition factory_args (a : InitArgs) (step : Step) : list Arg :=
  [AStep step; AObj (arg_interfacing_controller a); AObj (arg_pathfinder a);
   AObj (arg_logger a); AObj (arg_servo_wheels_manager a)].

(** A movement strategy to try the dispatcher on: its factories make a new
    command of the class that goes with the mode in force. *)
Definition sample_strategy : MovementStrategyMethods := {|
  get_rotation_command ms args :=
    Some (mkCommand 1000%nat
            (MovementCommand
               match rotation_strategy ms with
               | RotationStrategyType.TRUST_MATERIAL_SERVOING =>
                   "RotateTrustingMaterial"
               | RotationStrategyType.BASIC_WHEEL_SERVOING =>
                   "RotateBasicWheels"
               end) args);
  get_translation_command ms args :=
    Some (mkCommand 1001%nat
            (MovementCommand
               match translation_strategy ms with
               | TranslationStrategyType.TRUST_MATERIAL_SERVOING =>
                   "TranslateTrustingMaterial"
               | TranslationStrategyType.BASIC_WHEEL_SERVOING =>
                   "TranslateBasicWheels"
               end) args);
|}.

Definition sample_args : InitArgs := (mkInitArgs 1 2 3 4 5 6 7 8 100)%nat.

(** The opcode of the frame an outbound call sends. *)
Definition opcode_of (c : OutboundCall) : Z :=
  match c with
  | CallTranslateRobot _ _ => Commands.TRANSLATE
  | CallRotateRobot _ => Commands.ROTATE
  | CallStopRobot => Commands.STOP
  | CallResetRobot => Commands.RESET
  | CallEnableRedLed _ => Commands.ENABLE_RED_LED
  | CallFlashGreenLed _ => Commands.FLASH_GREEN_LED
  | CallEnableSampling _ => Commands.ENABLE_ADC
  | CallDecodeManchester => Commands.DECODE_MANCHESTER
  end.

(** The driver after [packet] has been written to its port. *)
Definition after_write (packet : list byte) (st : Stm32Driver.State)
    : Stm32Driver.State :=
  Stm32Driver.set_port
    (serial.mkSerial true (serial.rx (Stm32Driver.port st))
                     (serial.tx (Stm32Driver.port st) ++ packet)) st.

(** [n] turns of the receive loop. *)
Definition turns (n : nat) (st : Stm32Driver.State) : Stm32Driver.State :=
  Nat.iter n Stm32Driver.run_iteration st.

(** An observer whose [notify] returns, whenever and with whatever it is
    called. *)
Definition never_raises (o : Stm32Driver.Observer) : Prop :=
  forall n response_type, Stm32Driver.notify_raises o n response_type = None.

(** Two observers to try the driver on: one whose [notify] always returns,
    one whose [notify] always raises [e]. *)
Definition quiet_observer (id : nat) : Stm32Driver.Observer :=
  Stm32Driver.mkObserver id (fun _ _ => None).

Definition failing_observer (id : nat) (e : PyError) : Stm32Driver.Observer :=
  Stm32Driver.mkObserver id (fun _ _ => Some e).

(** The observers of [l] that a notification reaches when [n] calls of
    [notify] were made before it: those up to the first whose [notify]
    raises, that one included. *)
Fixpoint reached (l : list Stm32Driver.Observer) (n : nat) (response_type : Z)
    : list Stm32Driver.Observer :=
  match l with
  | [] => []
  | o :: l' =>
      o :: match Stm32Driver.notify_raises o n response_type with
           | None => reached l' (S n) response_type
           | Some _ => []
           end
  end.

(** The exception that ends such a notification, if one does. *)
Fixpoint first_raised (l : list Stm32Driver.Observer) (n : nat)
    (response_type : Z) : option PyError :=
  match l with
  | [] => None
  | o :: l' =>
      match Stm32Driver.notify_raises o n response_type with
      | None => first_raised l' (S n) response_type
      | Some e => Some e
      end
  end.

(** What is left of an exception after the [try] statement of the loop:
    [struct.error] is handled there. *)
Definition after_handler (e : option PyError) : option PyError :=
  match e with
  | Some StructError => None
  | _ => e
  end.

(** The line the handler of the loop prints on an exception, if any. *)
Definition handler_lines (e : option PyError) : list string :=
  match e with
  | Some StructError => ["Invalid received packet"]
  | _ => []
  end.

(** The receive thread leaves its loop by the loop test: it is alive when
    [close] clears the flag, and the turn it may be in ends normally. *)
Definition leaves_loop (thread : Stm32Driver.ReceiveThread)
    (st : Stm32Driver.State) : Prop :=
  match thread with
  | Stm32Driver.AtLoopTest => True
  | Stm32Driver.InTurn =>
      raised (Stm32Driver.run_turn (Stm32Driver.set_is_running false st))
      = None
  | Stm32Driver.Ended => False
  end.

(** A subscription or an unsubscription of a view method. *)
Inductive ModelOp : Type :=
  | Subscribe (function : MainModel.Callback)
  | Unsubscribe (function : MainModel.Callback).

Definition apply_op (m : MainModel.t) (op : ModelOp) : MainModel.t :=
  match op with
  | Subscribe function => MainModel.subscribe_update_function function m
  | Unsubscribe function => MainModel.unsubscribe_update_function function m
  end.

(** The model after the operations [ops], in order, on a new model. *)
Definition after_ops (ops : list ModelOp) : MainModel.t :=
  fold_left apply_op ops MainModel.init.

(** Whether the last operation on [f] in [ops] is a subscription. *)
Fixpoint last_subscribed (f : MainModel.Callback) (ops : list ModelOp)
    (current : bool) : bool :=
  match ops with
  | [] => current
  | Subscribe g :: ops' =>
      last_subscribed f ops' (if decide (f = g) then true else current)
  | Unsubscribe g :: ops' =>
      last_subscribed f ops' (if decide (f = g) then false else current)
  end.

(** [n] calls of [fetch_command] in a row: the values returned, in order,
    and the handler after them. *)
Fixpoint fetch_commands {Packet : Type} (n : nat)
    (h : CommandHandler.t Packet)
    : list (option Packet) * CommandHandler.t Packet :=
  match n with
  | O => ([], h)
  | S n' =>
      let '(v, h1) := CommandHandler.fetch_command h in
      let '(vs, h2) := fetch_commands n' h1 in
      (v :: vs, h2)
  end.

(** [put_command] on each packet of [packets] in turn. *)
Definition put_commands {Packet : Type} (packets : list Packet)
    (h : CommandHandler.t Packet) : CommandHandler.t Packet :=
  fold_left (fun h' packet => CommandHandler.put_command packet h') packets h.

(** * Properties *)

(** ** Bytes and 16-bit fields *)

Lemma Z_of_byte_range (b : byte) : 0 <= Z_of_byte b < 256.
Proof.
  unfold Z_of_byte. pose proof (Byte.to_N_bounded b). lia.
Qed.

Lemma Z_of_byte_of_Z (z : Z) : Z_of_byte (byte_of_Z z) = z mod 256.
Proof.
  unfold Z_of_byte, byte_of_Z.
  pose proof (Z.mod_pos_bound z 256 eq_refl) as Hz.
  destruct (Byte.of_N (Z.to_N (z mod 256))) as [b|] eqn:Hb; simpl.
  - apply Byte.to_of_N in Hb. rewrite Hb. lia.
  - apply Byte.of_N_None_iff in Hb. lia.
Qed.

Lemma unpack_H_range (lo hi : byte) : 0 <= struct.unpack_H lo hi < 65536.
Proof.
  unfold struct.unpack_H.
  pose proof (Z_of_byte_range lo). pose proof (Z_of_byte_range hi). lia.
Qed.

Lemma unpack_pack_H (v : Z) :
  0 <= v < 65536 ->
  struct.unpack_Hs (struct.pack_H v) = [v].
Proof.
  intros Hv. unfold struct.pack_H, struct.unpack_Hs, struct.unpack_H.
  rewrite !Z_of_byte_of_Z. f_equal.
  rewrite Z.mod_mod by lia.
  rewrite (Z.mod_small (v / 256) 256).
  - pose proof (Z.div_mod v 256). lia.
  - split; [apply Z.div_pos; lia | apply Z.div_lt_upper_bound; lia].
Qed.

Lemma unpack_Hs_app_pack_H (v : Z) (data : list byte) :
  0 <= v < 65536 ->
  struct.unpack_Hs (struct.pack_H v ++ data) = v :: struct.unpack_Hs data.
Proof.
  intros Hv. pose proof (unpack_pack_H v Hv) as H.
  unfold struct.pack_H in *. simpl in *. congruence.
Qed.

Lemma fits_H_range (v : Z) : struct.fits_H v = true <-> 0 <= v < 65536.
Proof. unfold struct.fits_H. rewrite andb_true_iff. lia. Qed.

Lemma py_sum_3 (a b c : Z) : py_sum [a; b; c] = a + b + c.
Proof. reflexivity. Qed.

(** A buffer of six bytes always unpacks, to its three little-endian
    fields. *)
Lemma unpack_response (b0 b1 b2 b3 b4 b5 : byte) :
  struct.unpack Stm32Driver.response_format [b0; b1; b2; b3; b4; b5]
  = Some [struct.unpack_H b0 b1; struct.unpack_H b2 b3; struct.unpack_H b4 b5].
Proof. reflexivity. Qed.

(** Packing four 16-bit values and unpacking the packet gives them back. *)
Lemma unpack_pack_command (a b c d : Z) :
  0 <= a < 65536 -> 0 <= b < 65536 -> 0 <= c < 65536 -> 0 <= d < 65536 ->
  exists packet,
    struct.pack Stm32Driver.command_format [a; b; c; d] = Some packet
    /\ length packet = 8%nat
    /\ struct.unpack Stm32Driver.command_format packet = Some [a; b; c; d].
Proof.
  intros Ha Hb Hc Hd.
  exists (struct.pack_H a ++ struct.pack_H b ++ struct.pack_H c
          ++ struct.pack_H d).
  split; [|split].
  - unfold struct.pack. cbn [Stm32Driver.command_format struct.fields
      struct.count_H fmap option_fmap option_map mbind option_bind].
    cbn [length Nat.eqb forallb andb].
    apply fits_H_range in Ha, Hb, Hc, Hd. rewrite Ha, Hb, Hc, Hd.
    cbn [andb map concat]. rewrite app_nil_r. reflexivity.
  - reflexivity.
  - unfold struct.unpack. cbn [Stm32Driver.command_format struct.fields
      struct.count_H fmap option_fmap option_map mbind option_bind].
    change (length _ =? _)%nat with true. cbv iota.
    rewrite !unpack_Hs_app_pack_H by assumption.
    rewrite unpack_pack_H by assumption. reflexivity.
Qed.

(** ** The receive loop of the driver *)

Section ReceiveLoop.
Import Stm32Driver.

Lemma only_consumes_print (n : nat) (line : string) (st st' : State) :
  only_consumes n st st' -> only_consumes n st (print line st').
Proof. unfold only_consumes. simpl. tauto. Qed.

Lemma only_consumes_read (st : State) :
  only_consumes response_size st
    (set_port (snd (serial.read response_size (port st))) st).
Proof. unfold only_consumes. repeat split; reflexivity. Qed.

Lemma set_notified_same (st : State) : set_notified (notified st) st = st.
Proof. destruct st. reflexivity. Qed.

(** The observers a notification reaches are the first ones of the list,
    and all of it when no [notify] raises. *)
Lemma reached_prefix (l : list Observer) (n : nat) (response_type : Z) :
  reached l n response_type `prefix_of` l.
Proof.
  revert n. induction l as [|o l IH]; intros n; cbn [reached].
  - reflexivity.
  - apply prefix_cons. destruct (notify_raises o n response_type).
    + apply prefix_nil.
    + apply IH.
Qed.

Lemma reached_quiet (l : list Observer) (n : nat) (response_type : Z) :
  Forall never_raises l ->
  reached l n response_type = l /\ first_raised l n response_type = None.
Proof.
  intros Hq. revert n.
  induction Hq as [|o l Ho _ IH]; intros n; cbn [reached first_raised].
  - split; reflexivity.
  - rewrite (Ho n response_type). destruct (IH (S n)) as (-> & ->).
    split; reflexivity.
Qed.

Lemma first_raised_None (l : list Observer) (n : nat) (response_type : Z) :
  first_raised l n response_type = None -> reached l n response_type = l.
Proof.
  revert n. induction l as [|o l IH]; intros n; cbn [reached first_raised].
  - reflexivity.
  - destruct (notify_raises o n response_type); [discriminate|].
    intros H. rewrite (IH _ H). reflexivity.
Qed.

(** The exception that ends a notification is one a [notify] of a
    registered observer raised: that of the last observer reached. *)
Lemma first_raised_Some (l : list Observer) (n : nat) (response_type : Z)
    (e : PyError) :
  first_raised l n response_type = Some e ->
  exists o,
    last (reached l n response_type) = Some o
    /\ o ∈ l
    /\ notify_raises o (n + length (reached l n response_type) - 1)
         response_type = Some e.
Proof.
  revert n. induction l as [|o l IH]; intros n; cbn [reached first_raised].
  - discriminate.
  - destruct (notify_raises o n response_type) as [e'|] eqn:Ho.
    + intros [= ->]. exists o. split; [reflexivity|].
      split; [apply list_elem_of_here|].
      cbn [length]. replace (n + 1 - 1)%nat with n by lia. exact Ho.
    + intros H. destruct (IH _ H) as (o' & Hlast & Hin & Hk).
      exists o'. split; [|split; [apply list_elem_of_further, Hin|]].
      * destruct (reached l (S n) response_type); [discriminate Hlast|].
        exact Hlast.
      * cbn [length].
        replace (n + S (length (reached l (S n) response_type)) - 1)%nat
          with (S n + length (reached l (S n) response_type) - 1)%nat by lia.
        exact Hk.
Qed.

(** The loop of [notify_all_observers], in closed form: it calls the
    observers reached, in order, and ends by the exception of the last of
    them, if that one raised. *)
Lemma notify_each_eq (response_type : Z) (l : list Observer) (st : State) :
  notify_each l response_type st
  = let st' :=
      set_notified
        (notified st
         ++ map (fun o => (o, response_type))
              (reached l (length (notified st)) response_type)) st in
    match first_raised l (length (notified st)) response_type with
    | None => Ok st'
    | Some e => Raise e st'
    end.
Proof.
  revert st. induction l as [|o l IH]; intros st;
    cbn [notify_each reached first_raised map]; cbv zeta.
  - rewrite app_nil_r, set_notified_same. reflexivity.
  - unfold notify.
    destruct (notify_raises o (length (notified st)) response_type) as [e|].
    + reflexivity.
    + rewrite IH. cbv zeta. cbn [set_notified notified observers port
        is_running is_ready signal_strength antenna_information stdout].
      rewrite length_app, Nat.add_1_r, <- app_assoc. reflexivity.
Qed.

Lemma notify_all_observers_eq (response_type : Z) (st : State) :
  notify_all_observers response_type st
  = let st' :=
      set_notified
        (notified st
         ++ map (fun o => (o, response_type))
              (reached (observers st) (length (notified st)) response_type))
        st in
    match first_raised (observers st) (length (notified st)) response_type
    with
    | None => Ok st'
    | Some e => Raise e st'
    end.
Proof. apply notify_each_eq. Qed.

(** [notify_all_observers] calls the observers it reaches, in the order of
    registration, and touches nothing else. *)
Lemma notify_all_observers_fields (response_type : Z) (st : State) :
  let st' := state_of (notify_all_observers response_type st) in
  observers st' = observers st
  /\ port st' = port st
  /\ is_running st' = is_running st
  /\ is_ready st' = is_ready st
  /\ signal_strength st' = signal_strength st
  /\ antenna_information st' = antenna_information st
  /\ stdout st' = stdout st
  /\ notified st'
     = notified st
       ++ map (fun o => (o, response_type))
            (reached (observers st) (length (notified st)) response_type).
Proof.
  rewrite notify_all_observers_eq. cbv zeta.
  destruct (first_raised _ _ _); repeat split; reflexivity.
Qed.

(** The state the handler of the loop leaves differs from the state at the
    exception by the printed lines only. *)
Lemma except_struct_error_eq (body : Result State) :
  except_struct_error body
  = match raised body with
    | Some StructError => Ok (print "Invalid received packet" (state_of body))
    | _ => body
    end.
Proof. destruct body as [st|[] st]; reflexivity. Qed.

Lemma except_struct_error_Ok (st : State) :
  except_struct_error (Ok st) = Ok st.
Proof. reflexivity. Qed.

(** The turn of the loop on a state whose input buffer starts with the six
    bytes of a frame. *)
Lemma run_turn_frame (st : State) (b0 b1 b2 b3 b4 b5 : byte)
    (rest : list byte) :
  serial.rx (port st) = [b0; b1; b2; b3; b4; b5] ++ rest ->
  let data_list := [struct.unpack_H b0 b1; struct.unpack_H b2 b3;
                    struct.unpack_H b4 b5] in
  let st1 := set_port (snd (serial.read response_size (port st))) st in
  run_turn st
  = except_struct_error
      (let '(valid, lines) := validate_checksum data_list in
       let st2 := fold_left (fun s l => print l s) lines st1 in
       if valid then handle_response data_list st2 else Ok st2).
Proof.
  intros Hrx. unfold run_turn, serial.in_waiting, serial.read.
  rewrite Hrx. reflexivity.
Qed.

(** C2. A six-byte frame that the loop reads and whose three fields do not
    sum to 0 modulo 65536, or whose opcode is none of STM_READY,
    SIGNAL_STRENGTH and SIGNAL_DATA, is discarded: the ready flag, the signal
    strength and the antenna information keep their values, no observer is
    notified, the frame's six bytes are consumed, and the loop goes on to its
    next turn on the resulting state. *)
Theorem invalid_frame_is_discarded (st : State) (b0 b1 b2 b3 b4 b5 : byte)
    (rest : list byte) :
  serial.rx (port st) = [b0; b1; b2; b3; b4; b5] ++ rest ->
  let opcode := struct.unpack_H b0 b1 in
  let param := struct.unpack_H b2 b3 in
  let sum_field := struct.unpack_H b4 b5 in
  (opcode + param + sum_field) mod 65536 <> 0
  \/ (opcode <> Response.STM_READY /\ opcode <> Response.SIGNAL_STRENGTH
      /\ opcode <> Response.SIGNAL_DATA) ->
  let st' := run_iteration st in
  is_ready st' = is_ready st
  /\ signal_strength st' = signal_strength st
  /\ antenna_information st' = antenna_information st
  /\ notified st' = notified st
  /\ observers st' = observers st
  /\ is_running st' = is_running st
  /\ port st' = serial.mkSerial (serial.is_open (port st)) rest
                                (serial.tx (port st))
  /\ (forall fuel, is_running st = true -> run (S fuel) st = run fuel st').
Proof.
  intros Hrx opcode param sum_field Hbad st'.
  assert (Hc : run_turn st = Ok st' /\ only_consumes response_size st st').
  { subst st'. unfold run_iteration.
    rewrite (run_turn_frame st _ _ _ _ _ _ _ Hrx).
    fold opcode param sum_field.
    unfold validate_checksum. rewrite py_sum_3.
    destruct (Z.eqb_spec ((opcode + param + sum_field) mod 65536) 0)
      as [Hsum|Hsum]; cbn [fold_left].
    - destruct Hbad as [Hbad|(H8 & H9 & H10)]; [contradiction|].
      unfold handle_response, item. cbn [nth].
      apply Z.eqb_neq in H8, H9, H10. rewrite H8, H9, H10.
      rewrite except_struct_error_Ok. split; [reflexivity|].
      apply only_consumes_print, only_consumes_read.
    - rewrite except_struct_error_Ok. split; [reflexivity|].
      apply only_consumes_print, only_consumes_read. }
  destruct Hc
    as (Hturn
        & Hobs & Hrun & Hready & Hsig & Hant & Hnot & Hopen & Htx & Hrxs).
  repeat split; try assumption.
  - rewrite Hrx in Hrxs. change (serial.rx (port st') = rest) in Hrxs.
    destruct (port st') as [o r t]. simpl in Hopen, Htx, Hrxs.
    rewrite Hopen, Htx, Hrxs. reflexivity.
  - intros fuel Hr. cbn [run]. rewrite Hr, Hturn. reflexivity.
Qed.

(** The theorem above at a frame with a wrong checksum (opcode STM_READY,
    parameter 0, sum field 0). *)
Lemma invalid_frame_is_discarded_witness :
  let st := init (serial.mkSerial true
                    (map byte_of_Z [8; 0; 0; 0; 0; 0; 9; 0]) []) in
  is_ready (run_iteration st) = false
  /\ notified (run_iteration st) = []
  /\ serial.rx (port (run_iteration st)) = map byte_of_Z [9; 0].
Proof.
  intros st.
  pose proof (invalid_frame_is_discarded st
                (byte_of_Z 8) (byte_of_Z 0) (byte_of_Z 0) (byte_of_Z 0)
                (byte_of_Z 0) (byte_of_Z 0) (map byte_of_Z [9; 0])
                eq_refl) as H.
  cbv zeta in H.
  destruct H as (Hready & _ & _ & Hnot & _ & _ & Hport & _).
  - left. vm_compute. discriminate.
  - rewrite Hready, Hnot, Hport. repeat split.
Defined.

End ReceiveLoop.

(** ** The checksum of an inbound frame *)

Section Checksum.
Import Stm32Driver.

Lemma pow2_range (k : Z) : 0 <= k < 16 -> 1 <= 2 ^ k <= 32768.
Proof.
  intros Hk. split.
  - change 1 with (2 ^ 0). apply Z.pow_le_mono_r; lia.
  - change 32768 with (2 ^ 15). apply Z.pow_le_mono_r; lia.
Qed.

Lemma land_pow2_clear (x k : Z) :
  0 <= k -> Z.testbit x k = false -> Z.land x (2 ^ k) = 0.
Proof.
  intros Hk Hbit. apply Z.bits_inj'. intros n Hn.
  rewrite Z.land_spec, Z.bits_0, Z.pow2_bits_eqb by assumption.
  destruct (Z.eqb_spec k n) as [->|Hne].
  - rewrite Hbit. reflexivity.
  - apply andb_false_r.
Qed.

(** Flipping bit [k] of [x] adds [2 ^ k] when the bit was clear and
    subtracts it when the bit was set. *)
Lemma lxor_pow2 (x k : Z) :
  0 <= k ->
  Z.lxor x (2 ^ k) = if Z.testbit x k then x - 2 ^ k else x + 2 ^ k.
Proof.
  intros Hk. destruct (Z.testbit x k) eqn:Hbit.
  - assert (Hy : Z.testbit (Z.lxor x (2 ^ k)) k = false).
    { rewrite Z.lxor_spec, Hbit, Z.pow2_bits_true by assumption. reflexivity. }
    pose proof (Z.add_nocarry_lxor _ _ (land_pow2_clear _ _ Hk Hy)) as Hadd.
    rewrite Z.lxor_assoc, Z.lxor_nilpotent, Z.lxor_0_r in Hadd. lia.
  - symmetry. apply Z.add_nocarry_lxor, land_pow2_clear; assumption.
Qed.

Lemma lxor_pow2_moves (x k : Z) :
  0 <= k < 16 ->
  exists d, Z.lxor x (2 ^ k) = x + d /\ d <> 0 /\ -65536 < d < 65536.
Proof.
  intros Hk. pose proof (pow2_range k Hk). rewrite lxor_pow2 by lia.
  destruct (Z.testbit x k); [exists (- 2 ^ k) | exists (2 ^ k)]; lia.
Qed.

Lemma log2_16bit (x : Z) : 0 <= x < 65536 -> Z.log2 x < 16.
Proof.
  intros Hx. destruct (Z.eq_dec x 0) as [->|Hne]; [reflexivity|].
  apply Z.log2_lt_pow2; lia.
Qed.

(** A 16-bit field with one of its sixteen bits flipped is a 16-bit field. *)
Lemma lxor_pow2_16bit (x k : Z) :
  0 <= x < 65536 -> 0 <= k < 16 -> 0 <= Z.lxor x (2 ^ k) < 65536.
Proof.
  intros Hx Hk. pose proof (pow2_range k Hk) as Hp.
  assert (Hnn : 0 <= Z.lxor x (2 ^ k)) by (apply Z.lxor_nonneg; lia).
  split; [assumption|].
  destruct (Z.eq_dec (Z.lxor x (2 ^ k)) 0) as [->|Hne]; [lia|].
  change 65536 with (2 ^ 16). apply Z.log2_lt_pow2; [lia|].
  pose proof (Z.log2_lxor x (2 ^ k) ltac:(lia) ltac:(lia)) as Hl.
  pose proof (log2_16bit x Hx).
  pose proof (log2_16bit (2 ^ k) ltac:(lia)). lia.
Qed.

Lemma mod_65536_shift (s d : Z) :
  s mod 65536 = 0 -> d <> 0 -> -65536 < d < 65536 -> (s + d) mod 65536 <> 0.
Proof.
  intros Hs Hd Hr Hsd.
  apply Z.mod_divide in Hs; [|lia]. apply Z.mod_divide in Hsd; [|lia].
  destruct Hs as [q Hq]. destruct Hsd as [q' Hq']. lia.
Qed.

Lemma validate_checksum_accepts (data_list : list Z) :
  fst (validate_checksum data_list) = true
  <-> py_sum data_list mod 65536 = 0.
Proof.
  unfold validate_checksum.
  destruct (Z.eqb_spec (py_sum data_list mod 65536) 0); simpl; split;
    intros; congruence.
Qed.

Lemma validate_checksum_rejects (data_list : list Z) :
  fst (validate_checksum data_list) = false
  <-> py_sum data_list mod 65536 <> 0.
Proof.
  rewrite <- validate_checksum_accepts.
  destruct (fst (validate_checksum data_list)); split; congruence.
Qed.

(** C5. The checksum validation accepts a frame of three 16-bit fields
    exactly when they sum to 0 modulo 65536; so a frame whose third field is
    (65536 - opcode - param) mod 65536 is accepted, and an accepted frame with
    any one of the sixteen bits of any one field flipped is a frame of 16-bit
    fields that the validation rejects. *)
Theorem validate_checksum_spec (opcode param sum_field : Z) :
  0 <= opcode < 65536 -> 0 <= param < 65536 -> 0 <= sum_field < 65536 ->
  (fst (validate_checksum [opcode; param; sum_field]) = true
   <-> (opcode + param + sum_field) mod 65536 = 0)
  /\ (0 <= (65536 - opcode - param) mod 65536 < 65536
      /\ fst (validate_checksum
                [opcode; param; (65536 - opcode - param) mod 65536]) = true)
  /\ (fst (validate_checksum [opcode; param; sum_field]) = true ->
      forall k, 0 <= k < 16 ->
        let flip x := Z.lxor x (2 ^ k) in
        (0 <= flip opcode < 65536
         /\ fst (validate_checksum [flip opcode; param; sum_field]) = false)
        /\ (0 <= flip param < 65536
            /\ fst (validate_checksum [opcode; flip param; sum_field]) = false)
        /\ (0 <= flip sum_field < 65536
            /\ fst (validate_checksum [opcode; param; flip sum_field])
               = false)).
Proof.
  intros Ho Hp Hs. split; [|split].
  - rewrite validate_checksum_accepts, py_sum_3. reflexivity.
  - split; [apply Z.mod_pos_bound; lia|].
    rewrite validate_checksum_accepts, py_sum_3.
    rewrite Z.add_mod_idemp_r by lia.
    replace (opcode + param + (65536 - opcode - param)) with (1 * 65536)
      by lia.
    apply Z.mod_mul. lia.
  - rewrite validate_checksum_accepts, py_sum_3. intros Hsum k Hk flip.
    subst flip. cbv beta.
    destruct (lxor_pow2_moves opcode k Hk) as (d1 & E1 & Hd1 & Hr1).
    destruct (lxor_pow2_moves param k Hk) as (d2 & E2 & Hd2 & Hr2).
    destruct (lxor_pow2_moves sum_field k Hk) as (d3 & E3 & Hd3 & Hr3).
    split; [|split];
      (split; [apply lxor_pow2_16bit; assumption|]);
      rewrite validate_checksum_rejects, py_sum_3.
    + rewrite E1.
      replace (opcode + d1 + param + sum_field)
        with (opcode + param + sum_field + d1) by lia.
      apply mod_65536_shift; assumption.
    + rewrite E2.
      replace (opcode + (param + d2) + sum_field)
        with (opcode + param + sum_field + d2) by lia.
      apply mod_65536_shift; assumption.
    + rewrite E3.
      replace (opcode + param + (sum_field + d3))
        with (opcode + param + sum_field + d3) by lia.
      apply mod_65536_shift; assumption.
Qed.

(** The theorem above at the frame (SIGNAL_DATA, 0x76, 0xFF80). *)
Lemma validate_checksum_spec_witness :
  fst (validate_checksum [0x000A; 0x76; 0xFF80]) = true
  /\ fst (validate_checksum [0x000A; Z.lxor 0x76 (2 ^ 4); 0xFF80]) = false.
Proof.
  destruct (validate_checksum_spec 0x000A 0x76 0xFF80) as (Hiff & _ & Hflip);
    [lia | lia | lia |].
  assert (Hacc : fst (validate_checksum [0x000A; 0x76; 0xFF80]) = true)
    by (apply Hiff; reflexivity).
  split; [exact Hacc|].
  destruct (Hflip Hacc 4 ltac:(lia)) as (_ & (_ & Hparam) & _).
  exact Hparam.
Defined.

End Checksum.

(** ** Outbound commands *)

Section Outbound.
Import Stm32Driver.

(** [send_command] on 16-bit arguments: on an open port the eight bytes of
    the frame are appended to what was written; on a port that is not open
    the write raises and nothing changes. *)
Lemma send_command_16bit (command param1 param2 : Z) (st : State) :
  0 <= command < 65536 -> 0 <= param1 < 65536 -> 0 <= param2 < 65536 ->
  exists packet,
    struct.unpack command_format packet
    = Some [command; param1; param2;
            (65536 - command - param1 - param2) mod 65536]
    /\ length packet = 8%nat
    /\ send_command command param1 param2 st
       = if serial.is_open (port st)
         then Ok (set_port (serial.mkSerial true (serial.rx (port st))
                              (serial.tx (port st) ++ packet)) st)
         else Raise PortNotOpenError st.
Proof.
  intros Hc H1 H2.
  destruct (unpack_pack_command command param1 param2
              ((65536 - command - param1 - param2) mod 65536))
    as (packet & Hpack & Hlen & Hunpack); try assumption.
  { apply Z.mod_pos_bound. lia. }
  exists packet. split; [exact Hunpack|]. split; [exact Hlen|].
  unfold send_command. rewrite Hpack. unfold serial.write.
  destruct st as [obs [o r t] run rdy sig ant out nt]. simpl.
  destruct o; reflexivity.
Qed.

(** Whatever its arguments, [send_command] writes nothing and raises on a
    port that is not open. *)
Lemma send_command_closed (command param1 param2 : Z) (st : State) :
  serial.is_open (port st) = false ->
  exists e, send_command command param1 param2 st = Raise e st
            /\ (e = StructError \/ e = PortNotOpenError).
Proof.
  intros Hclosed. unfold send_command.
  destruct (struct.pack _ _) as [packet|].
  - exists PortNotOpenError. unfold serial.write. rewrite Hclosed.
    destruct st as [obs [o r t] run rdy sig ant out nt]. simpl in *.
    subst o. split; [reflexivity | right; reflexivity].
  - exists StructError. split; [reflexivity | left; reflexivity].
Qed.

Lemma in_int16_test (v : Z) :
  (-32768 <=? v) && (v <=? 32767) = true <-> in_int16 v.
Proof. unfold in_int16. rewrite andb_true_iff. lia. Qed.

(** C6. [translate_robot dx dy] fails its validation (raises the assertion
    error) exactly when [dx] or [dy] is outside [-32768, 32767], and then the
    state, with the bytes written to the port, is as before. Otherwise, on an
    open port, it returns after appending to the written bytes one frame of
    eight bytes whose fields are TRANSLATE, dx + 32768, dy + 32768 and the
    checksum. So [translate_robot 32768 0] and [translate_robot (-32769) 0]
    fail and [translate_robot 32767 (-32768)] sends the parameters 65535
    and 0. *)
Theorem translate_robot_spec (dx dy : Z) (st : State) :
  let fails r := exists msg, raised r = Some (AssertionError msg) in
  let sends r param1 param2 :=
    exists packet,
      r = Ok (set_port (serial.mkSerial true (serial.rx (port st))
                          (serial.tx (port st) ++ packet)) st)
      /\ length packet = 8%nat
      /\ struct.unpack command_format packet
         = Some [Commands.TRANSLATE; param1; param2;
                 (65536 - Commands.TRANSLATE - param1 - param2) mod 65536] in
  (fails (translate_robot dx dy st) <-> ~ (in_int16 dx /\ in_int16 dy))
  /\ (fails (translate_robot dx dy st) ->
      state_of (translate_robot dx dy st) = st)
  /\ (in_int16 dx -> in_int16 dy -> serial.is_open (port st) = true ->
      sends (translate_robot dx dy st) (dx + 32768) (dy + 32768))
  /\ fails (translate_robot 32768 0 st)
  /\ fails (translate_robot (-32769) 0 st)
  /\ (serial.is_open (port st) = true ->
      sends (translate_robot 32767 (-32768) st) 65535 0).
Proof.
  intros fails sends.
  assert (Hsend : forall x y, in_int16 x -> in_int16 y ->
            serial.is_open (port st) = true ->
            sends (translate_robot x y st) (x + 32768) (y + 32768)).
  { intros x y Hx Hy Hopen. unfold translate_robot, py_assert.
    rewrite (proj2 (in_int16_test x) Hx), (proj2 (in_int16_test y) Hy).
    unfold in_int16 in Hx, Hy.
    destruct (send_command_16bit Commands.TRANSLATE (x + 32768) (y + 32768) st)
      as (packet & Hunpack & Hlen & Heq);
      [unfold Commands.TRANSLATE; lia | lia | lia |].
    rewrite Hopen in Heq. exists packet. auto. }
  assert (Hfail : forall x y,
            fails (translate_robot x y st) <-> ~ (in_int16 x /\ in_int16 y)).
  { intros x y. unfold fails, translate_robot, py_assert.
    destruct ((-32768 <=? x) && (x <=? 32767)) eqn:Hx.
    - destruct ((-32768 <=? y) && (y <=? 32767)) eqn:Hy.
      + apply in_int16_test in Hx, Hy. split; [|tauto].
        intros [msg Hmsg]. exfalso.
        unfold in_int16 in Hx, Hy.
        destruct (send_command_16bit Commands.TRANSLATE
                    (x + 32768) (y + 32768) st)
          as (packet & _ & _ & Heq);
          [unfold Commands.TRANSLATE; lia | lia | lia |].
        rewrite Heq in Hmsg. destruct (serial.is_open (port st));
          simpl in Hmsg; congruence.
      + split; [|intros _; eexists; reflexivity].
        intros _ [_ Hy']. apply in_int16_test in Hy'. congruence.
    - split; [|intros _; eexists; reflexivity].
      intros _ [Hx' _]. apply in_int16_test in Hx'. congruence. }
  split; [apply Hfail|]. split; [|split; [apply Hsend|]].
  - intros Hf. apply Hfail in Hf. unfold translate_robot, py_assert.
    destruct ((-32768 <=? dx) && (dx <=? 32767)) eqn:Hx; [|reflexivity].
    destruct ((-32768 <=? dy) && (dy <=? 32767)) eqn:Hy; [|reflexivity].
    apply in_int16_test in Hx, Hy. tauto.
  - split; [|split].
    + apply Hfail. unfold in_int16. lia.
    + apply Hfail. unfold in_int16. lia.
    + intros Hopen. apply (Hsend 32767 (-32768)); unfold in_int16; try lia.
      exact Hopen.
Qed.

(** The theorem above on a freshly opened port with nothing written yet. *)
Lemma translate_robot_spec_witness :
  let st := init (serial.mkSerial true [] []) in
  exists packet,
    translate_robot 5 (-7) st
    = Ok (set_port (serial.mkSerial true [] packet) st)
    /\ struct.unpack command_format packet
       = Some [0; 32773; 32761; (65536 - 0 - 32773 - 32761) mod 65536].
Proof.
  intros st.
  destruct (translate_robot_spec 5 (-7) st) as (_ & _ & Hsends & _).
  destruct Hsends as (packet & Hr & _ & Hu);
    [unfold in_int16; lia | unfold in_int16; lia | reflexivity |].
  exists packet. split; [exact Hr | exact Hu].
Defined.

End Outbound.

(** ** Decoding the antenna telemetry *)

Section Telemetry.
Import Stm32Driver.

Lemma unpack_H_pack_H (v : Z) (rest : list byte) :
  0 <= v < 65536 ->
  exists lo hi, struct.pack_H v ++ rest = lo :: hi :: rest
                /\ struct.unpack_H lo hi = v.
Proof.
  intros Hv. pose proof (unpack_pack_H v Hv) as H.
  unfold struct.pack_H in *. simpl in H.
  eexists _, _. split; [reflexivity|]. congruence.
Qed.

(** The turn of the loop on a well-formed response: the checksum validates
    and the opcode is dispatched, inside the [try] statement. *)
Lemma run_turn_response (opcode param : Z) (rest : list byte) (st : State) :
  0 <= opcode < 65536 -> 0 <= param < 65536 ->
  serial.rx (port st) = response_frame opcode param ++ rest ->
  run_turn st
  = except_struct_error
      (handle_response [opcode; param; (65536 - opcode - param) mod 65536]
         (set_port (serial.mkSerial (serial.is_open (port st)) rest
                                    (serial.tx (port st))) st)).
Proof.
  intros Ho Hp Hrx.
  assert (Hs : 0 <= (65536 - opcode - param) mod 65536 < 65536)
    by (apply Z.mod_pos_bound; lia).
  unfold response_frame in Hrx. rewrite <- !app_assoc in Hrx.
  destruct (unpack_H_pack_H _ rest Hs) as (b4 & b5 & E3 & U3).
  rewrite E3 in Hrx.
  destruct (unpack_H_pack_H _ (b4 :: b5 :: rest) Hp) as (b2 & b3 & E2 & U2).
  rewrite E2 in Hrx.
  destruct (unpack_H_pack_H _ (b2 :: b3 :: b4 :: b5 :: rest) Ho)
    as (b0 & b1 & E1 & U1).
  rewrite E1 in Hrx.
  rewrite (run_turn_frame st b0 b1 b2 b3 b4 b5 rest Hrx).
  rewrite U1, U2, U3.
  assert (Hv : validate_checksum
                 [opcode; param; (65536 - opcode - param) mod 65536]
               = (true, [])).
  { unfold validate_checksum. rewrite py_sum_3.
    rewrite Z.add_mod_idemp_r by lia.
    replace (opcode + param + (65536 - opcode - param)) with (1 * 65536)
      by lia.
    rewrite Z.mod_mul by lia. reflexivity. }
  rewrite Hv. cbn [fold_left]. unfold serial.read. rewrite Hrx. reflexivity.
Qed.

(** The turn of the loop on a SIGNAL_STRENGTH response, in closed form: the
    parameter is stored, then the observers are notified; an exception of
    a [notify] ends the notification, and the turn unless the exception is
    [struct.error], which the handler of the loop takes. *)
Lemma run_turn_signal_strength (param : Z) (rest : list byte) (st : State) :
  0 <= param < 65536 ->
  serial.rx (port st)
  = response_frame Response.SIGNAL_STRENGTH param ++ rest ->
  let n := length (notified st) in
  let e := first_raised (observers st) n Response.SIGNAL_STRENGTH in
  let st' :=
    mkState (observers st)
            (serial.mkSerial (serial.is_open (port st)) rest
                             (serial.tx (port st)))
            (is_running st) (is_ready st) (Some param)
            (antenna_information st)
            (stdout st ++ handler_lines e)
            (notified st
             ++ map (fun o => (o, Response.SIGNAL_STRENGTH))
                  (reached (observers st) n Response.SIGNAL_STRENGTH)) in
  run_turn st
  = match after_handler e with
    | None => Ok st'
    | Some e' => Raise e' st'
    end.
Proof.
  intros Hp Hrx n e st'. subst n e st'.
  rewrite (run_turn_response Response.SIGNAL_STRENGTH param rest st);
    [| unfold Response.SIGNAL_STRENGTH; lia | assumption | assumption].
  unfold handle_response, item. cbn [nth].
  change (Response.SIGNAL_STRENGTH =? Response.STM_READY) with false.
  rewrite Z.eqb_refl. cbv iota.
  rewrite notify_all_observers_eq. cbv zeta.
  cbn [set_signal_strength set_port set_notified observers port is_running
       is_ready signal_strength antenna_information stdout notified].
  destruct (first_raised _ _ _) as [[]|];
    cbn [except_struct_error after_handler handler_lines print observers port
         is_running is_ready signal_strength antenna_information stdout
         notified];
    rewrite ?app_nil_r; reflexivity.
Qed.

(** The turn of the loop on a SIGNAL_DATA response, in closed form: a line
    is printed, a fresh antenna information computed from the parameter by
    the three mask expressions of the source is stored, then the observers
    are notified as for SIGNAL_STRENGTH. *)
Lemma run_turn_signal_data (param : Z) (rest : list byte) (st : State) :
  0 <= param < 65536 ->
  serial.rx (port st) = response_frame Response.SIGNAL_DATA param ++ rest ->
  let n := length (notified st) in
  let e := first_raised (observers st) n Response.SIGNAL_DATA in
  let st' :=
    mkState (observers st)
            (serial.mkSerial (serial.is_open (port st)) rest
                             (serial.tx (port st)))
            (is_running st) (is_ready st) (signal_strength st)
            (Some (mkAntennaInformation
                     (Z.land param Constants.MASK_FIGURE)
                     (Z.land param (Constants.MASK_ZOOM + 2))
                     ((360 - Z.land param Constants.MASK_ORIENTATION * 90)
                      mod 360)))
            ((stdout st ++ ["DRIVER IS BUILDING ANTENNA_INFO"])
             ++ handler_lines e)
            (notified st
             ++ map (fun o => (o, Response.SIGNAL_DATA))
                  (reached (observers st) n Response.SIGNAL_DATA)) in
  run_turn st
  = match after_handler e with
    | None => Ok st'
    | Some e' => Raise e' st'
    end.
Proof.
  intros Hp Hrx n e st'. subst n e st'.
  rewrite (run_turn_response Response.SIGNAL_DATA param rest st);
    [| unfold Response.SIGNAL_DATA; lia | assumption | assumption].
  unfold handle_response, item. cbn [nth].
  change (Response.SIGNAL_DATA =? Response.STM_READY) with false.
  change (Response.SIGNAL_DATA =? Response.SIGNAL_STRENGTH) with false.
  rewrite Z.eqb_refl. cbv iota zeta.
  rewrite notify_all_observers_eq. cbv zeta.
  cbn [set_antenna_information set_port set_notified print observers port
       is_running is_ready signal_strength antenna_information stdout
       notified].
  destruct (first_raised _ _ _) as [[]|];
    cbn [except_struct_error after_handler handler_lines print observers port
         is_running is_ready signal_strength antenna_information stdout
         notified];
    rewrite ?app_nil_r; reflexivity.
Qed.

(** On a SIGNAL_DATA response the loop stores a fresh antenna information
    computed from the parameter by the three mask expressions of the
    source, whatever the observers do afterwards. *)
Lemma run_iteration_signal_data (param : Z) (rest : list byte) (st : State) :
  0 <= param < 65536 ->
  serial.rx (port st) = response_frame Response.SIGNAL_DATA param ++ rest ->
  antenna_information (run_iteration st)
  = Some (mkAntennaInformation
            (Z.land param Constants.MASK_FIGURE)
            (Z.land param (Constants.MASK_ZOOM + 2))
            ((360 - Z.land param Constants.MASK_ORIENTATION * 90) mod 360)).
Proof.
  intros Hp Hrx. unfold run_iteration.
  rewrite (run_turn_signal_data param rest st Hp Hrx). cbv zeta.
  destruct (after_handler _); reflexivity.
Qed.

Lemma land_pow2 (x k : Z) :
  0 <= k -> Z.land x (2 ^ k) = if Z.testbit x k then 2 ^ k else 0.
Proof.
  intros Hk. destruct (Z.testbit x k) eqn:Hbit.
  - apply Z.bits_inj'. intros n Hn.
    rewrite Z.land_spec, Z.pow2_bits_eqb by assumption.
    destruct (Z.eqb_spec k n) as [->|Hne].
    + rewrite Hbit. reflexivity.
    + apply andb_false_r.
  - apply land_pow2_clear; assumption.
Qed.

(** C8. For a 16-bit parameter of a SIGNAL_DATA response, the antenna
    information the loop stores has the painting number [param & 0x70] and
    the orientation [(360 - (param & 0x0C) * 90) mod 360]; for the parameter
    0x76 these are 0x70 and 0. *)
Theorem signal_data_painting_and_orientation (param : Z) (rest : list byte)
    (st : State) :
  0 <= param < 65536 ->
  serial.rx (port st) = response_frame Response.SIGNAL_DATA param ++ rest ->
  exists info,
    antenna_information (run_iteration st) = Some info
    /\ painting_number info = Z.land param 0x70
    /\ orientation info = (360 - Z.land param 0x0C * 90) mod 360
    /\ (param = 0x76 -> painting_number info = 0x70 /\ orientation info = 0).
Proof.
  intros Hp Hrx. eexists. split.
  - apply (run_iteration_signal_data param rest st Hp Hrx).
  - cbn [painting_number orientation].
    split; [reflexivity|]. split; [reflexivity|].
    intros ->. split; reflexivity.
Qed.

(** The theorem above at the parameter 0x76, on a port that has received
    exactly that response. *)
Lemma signal_data_painting_and_orientation_witness :
  let st := init (serial.mkSerial true
                    (response_frame Response.SIGNAL_DATA 0x76) []) in
  exists info,
    antenna_information (run_iteration st) = Some info
    /\ painting_number info = 0x70 /\ orientation info = 0.
Proof.
  intros st.
  destruct (signal_data_painting_and_orientation 0x76 [] st)
    as (info & Hinfo & _ & _ & H76); [lia | reflexivity |].
  exists info. split; [exact Hinfo | exact (H76 eq_refl)].
Defined.

(** C10. For a 16-bit parameter of a SIGNAL_DATA response, the zoom the loop
    stores is [param & 0x04], with no offset added: it is 0 or 4, never 2
    or 6. *)
Theorem signal_data_zoom_is_masked_bit (param : Z) (rest : list byte)
    (st : State) :
  0 <= param < 65536 ->
  serial.rx (port st) = response_frame Response.SIGNAL_DATA param ++ rest ->
  exists info,
    antenna_information (run_iteration st) = Some info
    /\ zoom info = Z.land param 0x04
    /\ (zoom info = 0 \/ zoom info = 4)
    /\ zoom info <> 2 /\ zoom info <> 6.
Proof.
  intros Hp Hrx. eexists. split.
  - apply (run_iteration_signal_data param rest st Hp Hrx).
  - cbn [zoom]. change (Constants.MASK_ZOOM + 2) with (2 ^ 2).
    change 0x04 with (2 ^ 2). rewrite land_pow2 by lia.
    destruct (Z.testbit param 2); cbn; repeat split; auto; discriminate.
Qed.

(** The theorem above at the parameters 0x76 (bit 2 set). *)
Lemma signal_data_zoom_is_masked_bit_witness :
  let st := init (serial.mkSerial true
                    (response_frame Response.SIGNAL_DATA 0x76) []) in
  exists info,
    antenna_information (run_iteration st) = Some info /\ zoom info = 4.
Proof.
  intros st.
  destruct (signal_data_zoom_is_masked_bit 0x76 [] st)
    as (info & Hinfo & Hzoom & _); [lia | reflexivity |].
  exists info. split; [exact Hinfo | rewrite Hzoom; reflexivity].
Defined.

(** C7, as the code behaves: the offset 2 is not added after the masking.
    [data_list[1] & Constants.MASK_ZOOM + 2] is read by Python as
    [data_list[1] & (Constants.MASK_ZOOM + 2)], so on the parameter 0 the
    stored zoom is 0, while [(0 & 0x04) + 2] is 2 (and so is
    [(0 & Constants.MASK_ZOOM) + 2]). *)
Theorem signal_data_zoom_offset_not_applied :
  let st := init (serial.mkSerial true
                    (response_frame Response.SIGNAL_DATA 0) []) in
  antenna_information (run_iteration st)
  = Some (mkAntennaInformation 0 0 0)
  /\ Z.land 0 0x04 + 2 = 2
  /\ Z.land 0 Constants.MASK_ZOOM + 2 = 2.
Proof.
  intros st. split; [|split; reflexivity].
  rewrite (run_iteration_signal_data 0 [] st); [reflexivity | lia |].
  reflexivity.
Qed.

End Telemetry.

(** ** A turn of the receive loop *)

Section LoopTurn.
Import Stm32Driver.

Lemma print_lines_effect (lines : list string) (st : State) :
  fold_left (fun s l => print l s) lines st
  = mkState (observers st) (port st) (is_running st) (is_ready st)
            (signal_strength st) (antenna_information st)
            (stdout st ++ lines) (notified st).
Proof.
  revert st. induction lines as [|l lines IH]; intros st; cbn [fold_left].
  - rewrite app_nil_r. destruct st. reflexivity.
  - rewrite IH. cbn. rewrite <- app_assoc. reflexivity.
Qed.

Lemma unpack_six_bytes (data : list byte) :
  length data = 6%nat ->
  struct.unpack response_format data = Some (struct.unpack_Hs data).
Proof.
  intros Hlen. unfold struct.unpack.
  cbn [response_format struct.fields struct.count_H fmap option_fmap
       option_map mbind option_bind].
  rewrite Hlen. reflexivity.
Qed.

Lemma state_of_outcome {S : Type} (e : option PyError) (st : S) :
  state_of match e with None => Ok st | Some e' => Raise e' st end = st.
Proof. destruct e; reflexivity. Qed.

Lemma raised_outcome {S : Type} (e : option PyError) (st : S) :
  raised match e with None => Ok st | Some e' => Raise e' st end = e.
Proof. destruct e; reflexivity. Qed.

(** A notification inside the [try] statement of the loop, in closed
    form. *)
Lemma except_notify_eq (response_type : Z) (st : State) :
  let e := first_raised (observers st) (length (notified st)) response_type in
  let st' :=
    mkState (observers st) (port st) (is_running st) (is_ready st)
            (signal_strength st) (antenna_information st)
            (stdout st ++ handler_lines e)
            (notified st
             ++ map (fun o => (o, response_type))
                  (reached (observers st) (length (notified st))
                     response_type)) in
  except_struct_error (notify_all_observers response_type st)
  = match after_handler e with
    | None => Ok st'
    | Some e' => Raise e' st'
    end.
Proof.
  cbv zeta. rewrite notify_all_observers_eq. cbv zeta.
  destruct (first_raised _ _ _) as [[]|];
    cbn [except_struct_error after_handler handler_lines print set_notified
         observers port is_running is_ready signal_strength
         antenna_information stdout notified];
    rewrite ?app_nil_r; reflexivity.
Qed.

(** The ways a turn of the loop can go: nothing to read; a frame that only
    makes it print a line (wrong checksum, unknown opcode); a frame that
    sets the ready flag; a frame that stores telemetry and notifies. The
    [struct.unpack] of the six bytes read never fails. *)
Lemma run_turn_cases (st : State) :
  let st1 :=
    set_port (serial.mkSerial (serial.is_open (port st))
                (drop response_size (serial.rx (port st)))
                (serial.tx (port st))) st in
  let param :=
    item (struct.unpack_Hs (take response_size (serial.rx (port st)))) 1 in
  ((serial.in_waiting (port st) < response_size)%nat /\ run_turn st = Ok st)
  \/ ((response_size <= serial.in_waiting (port st))%nat
      /\ ((exists line,
             line <> "Invalid received packet"
             /\ run_turn st = Ok (print line st1))
          \/ run_turn st = Ok (set_is_ready true st1)
          \/ run_turn st
             = except_struct_error
                 (notify_all_observers Response.SIGNAL_STRENGTH
                    (set_signal_strength (Some param) st1))
          \/ exists info,
               run_turn st
               = except_struct_error
                   (notify_all_observers Response.SIGNAL_DATA
                      (set_antenna_information (Some info)
                         (print "DRIVER IS BUILDING ANTENNA_INFO" st1))))).
Proof.
  cbv zeta. unfold run_turn.
  destruct (response_size <=? serial.in_waiting (port st))%nat eqn:Hwait.
  - right. apply Nat.leb_le in Hwait. split; [exact Hwait|].
    unfold serial.read. rewrite unpack_six_bytes.
    2:{ unfold serial.in_waiting, response_size in *.
        rewrite length_take. lia. }
    unfold validate_checksum.
    destruct (py_sum _ mod 65536 =? 0); cbn [fold_left].
    + unfold handle_response.
      destruct (item _ 0 =? Response.STM_READY);
        [right; left; reflexivity|].
      destruct (item _ 0 =? Response.SIGNAL_STRENGTH);
        [right; right; left; reflexivity|].
      destruct (item _ 0 =? Response.SIGNAL_DATA).
      * right; right; right. eexists. reflexivity.
      * left. exists "Invalid opcode". split; [discriminate | reflexivity].
    + left. eexists. split; [|reflexivity]. cbn. discriminate.
  - left. apply Nat.leb_gt in Hwait. split; [exact Hwait | reflexivity].
Qed.

(** What one turn of the loop does to the driver, and how it ends. It
    consumes a frame if one waits, prints at most one line of its own and
    then the line of its handler if that takes an exception, may store
    telemetry, and makes the calls of at most one notification; it ends by
    the exception that ends the notification, unless the handler takes
    it. *)
Lemma run_turn_effect (st : State) :
  exists rx' rdy sig ant lines e calls,
    run_turn st
    = (let st' :=
         mkState (observers st)
                 (serial.mkSerial (serial.is_open (port st)) rx'
                                  (serial.tx (port st)))
                 (is_running st) rdy sig ant
                 (stdout st ++ lines ++ handler_lines e)
                 (notified st ++ calls) in
       match after_handler e with
       | None => Ok st'
       | Some e' => Raise e' st'
       end)
    /\ rx' = (if (response_size <=? serial.in_waiting (port st))%nat
              then drop response_size (serial.rx (port st))
              else serial.rx (port st))
    /\ (is_ready st = true -> rdy = true)
    /\ (is_Some (signal_strength st) -> is_Some sig)
    /\ (is_Some (antenna_information st) -> is_Some ant)
    /\ (length lines <= 1)%nat
    /\ ("Invalid received packet" ∉ lines)
    /\ ((e = None /\ calls = [])
        \/ exists r,
             (r = Response.SIGNAL_STRENGTH \/ r = Response.SIGNAL_DATA)
             /\ e = first_raised (observers st) (length (notified st)) r
             /\ calls
                = map (fun o => (o, r))
                    (reached (observers st) (length (notified st)) r)).
Proof.
  destruct (run_turn_cases st)
    as [(Hwait & ->)
       |(Hwait & [(line & Hline & ->)|[->|[->|(info & ->)]]])];
    [apply Nat.leb_gt in Hwait|apply Nat.leb_le in Hwait..];
    rewrite Hwait.
  - exists (serial.rx (port st)), (is_ready st), (signal_strength st),
      (antenna_information st), [], None, [].
    split.
    { destruct st as [obs [o r t] run rdy sig ant out nt].
      cbn. rewrite !app_nil_r. reflexivity. }
    do 4 (split; [auto|]). split; [cbn; lia|].
    split; [apply not_elem_of_nil | left; auto].
  - exists (drop response_size (serial.rx (port st))), (is_ready st),
      (signal_strength st), (antenna_information st), [line], None, [].
    split; [cbn; rewrite !app_nil_r; reflexivity|].
    do 4 (split; [auto|]). split; [cbn; lia|].
    split; [|left; auto].
    rewrite list_elem_of_singleton. congruence.
  - exists (drop response_size (serial.rx (port st))), true,
      (signal_strength st), (antenna_information st), [], None, [].
    split; [cbn; rewrite !app_nil_r; reflexivity|].
    do 4 (split; [auto|]). split; [cbn; lia|].
    split; [apply not_elem_of_nil | left; auto].
  - rewrite except_notify_eq. cbv zeta.
    cbn [set_signal_strength set_port observers port is_running is_ready
         signal_strength antenna_information stdout notified].
    eexists _, _, _, _, [], _, _.
    split; [reflexivity|].
    do 4 (split; [eauto|]). split; [cbn; lia|].
    split; [apply not_elem_of_nil|].
    right. exists Response.SIGNAL_STRENGTH. auto.
  - rewrite except_notify_eq. cbv zeta.
    cbn [set_antenna_information set_port print observers port is_running
         is_ready signal_strength antenna_information stdout notified].
    eexists _, _, _, _, ["DRIVER IS BUILDING ANTENNA_INFO"], _, _.
    split; [rewrite <- app_assoc; reflexivity|].
    do 4 (split; [eauto|]). split; [cbn; lia|].
    split; [rewrite list_elem_of_singleton; discriminate|].
    right. exists Response.SIGNAL_DATA. auto.
Qed.

(** The driver after a turn, field by field. *)
Lemma run_iteration_effect (st : State) :
  let st' := run_iteration st in
  observers st' = observers st
  /\ is_running st' = is_running st
  /\ serial.is_open (port st') = serial.is_open (port st)
  /\ serial.tx (port st') = serial.tx (port st)
  /\ serial.rx (port st')
     = (if (response_size <=? serial.in_waiting (port st))%nat
        then drop response_size (serial.rx (port st))
        else serial.rx (port st))
  /\ (exists lines, stdout st' = stdout st ++ lines)
  /\ (notified st' = notified st
      \/ exists r, (r = Response.SIGNAL_STRENGTH \/ r = Response.SIGNAL_DATA)
                   /\ notified st'
                      = notified st
                        ++ map (fun o => (o, r))
                             (reached (observers st) (length (notified st))
                                r))
  /\ (is_ready st = true -> is_ready st' = true)
  /\ (is_Some (signal_strength st) -> is_Some (signal_strength st'))
  /\ (is_Some (antenna_information st) ->
      is_Some (antenna_information st')).
Proof.
  destruct (run_turn_effect st)
    as (rx' & rdy & sig & ant & lines & e & calls & Heq & Hrx & Hrdy & Hsig
        & Hant & _ & _ & Hcalls).
  cbv zeta in Heq. cbv zeta. unfold run_iteration.
  rewrite Heq, state_of_outcome.
  cbn [observers port is_running is_ready signal_strength antenna_information
       stdout notified serial.is_open serial.tx serial.rx].
  repeat split; eauto.
  destruct Hcalls as [(_ & ->)|(r & Hr & _ & ->)].
  - left. apply app_nil_r.
  - right. exists r. auto.
Qed.

(** A turn ends by an exception only when the [notify] of a registered
    observer has raised it, and it is not [struct.error]. *)
Lemma run_turn_raises (st : State) (e : PyError) :
  raised (run_turn st) = Some e ->
  e <> StructError
  /\ exists o n r,
       o ∈ observers st /\ notify_raises o n r = Some e.
Proof.
  destruct (run_turn_effect st)
    as (rx' & rdy & sig & ant & lines & e0 & calls & Heq & _ & _ & _ & _ & _
        & _ & Hcalls).
  cbv zeta in Heq. rewrite Heq, raised_outcome. intros He.
  assert (e0 = Some e /\ e <> StructError) as (-> & Hne).
  { destruct e0 as [[]|]; cbn in He; try discriminate;
      injection He as <-; split; congruence. }
  split; [exact Hne|].
  destruct Hcalls as [(Hnone & _)|(r & _ & Hfirst & _)]; [discriminate|].
  symmetry in Hfirst.
  destruct (first_raised_Some _ _ _ _ Hfirst) as (o & _ & Hin & Hk).
  eexists o, _, r. eauto.
Qed.


End LoopTurn.

(** ** The angle of [rotate_robot]

    The range assertion of [rotate_robot] bounds the angle, so that the
    conversion [int((theta + 2 * math.pi) * 100)] neither overflows nor
    meets a NaN, and gives a 16-bit value. The lemmas follow the IEEE 754
    operations on binary64 as the Standard Library specifies them. *)

Section FloatRounding.

Lemma digits2_pos_bounds (p : positive) :
  2 ^ (Z.pos (digits2_pos p) - 1) <= Z.pos p < 2 ^ Z.pos (digits2_pos p).
Proof.
  induction p as [p IH|p IH|]; cbn [digits2_pos].
  - rewrite Pos2Z.inj_succ.
    replace (Z.succ (Z.pos (digits2_pos p)) - 1)
      with (Z.succ (Z.pos (digits2_pos p) - 1)) by lia.
    rewrite !Z.pow_succ_r by lia. lia.
  - rewrite Pos2Z.inj_succ.
    replace (Z.succ (Z.pos (digits2_pos p)) - 1)
      with (Z.succ (Z.pos (digits2_pos p) - 1)) by lia.
    rewrite !Z.pow_succ_r by lia. lia.
  - cbn. lia.
Qed.

Lemma Zdigits2_le (x k : Z) : 0 <= k -> 0 <= x < 2 ^ k -> Zdigits2 x <= k.
Proof.
  intros Hk [Hx Hlt]. destruct x as [|p|p]; cbn [Zdigits2]; [lia| |lia].
  pose proof (digits2_pos_bounds p) as [Hlo _].
  assert (2 ^ (Z.pos (digits2_pos p) - 1) < 2 ^ k) as H by lia.
  apply Z.pow_lt_mono_r_iff in H; lia.
Qed.

Lemma shr_1_m (mrs : shr_record) :
  0 <= shr_m mrs -> shr_m (shr_1 mrs) = shr_m mrs / 2.
Proof.
  destruct mrs as [m r s]. cbn [shr_m]. intros Hm.
  destruct m as [|[p|p|]|p]; cbn [shr_1 shr_m]; try lia.
  - reflexivity.
  - rewrite (Pos2Z.inj_xI p).
    apply (Z.div_unique_pos _ _ _ 1); lia.
  - rewrite (Pos2Z.inj_xO p).
    apply (Z.div_unique_pos _ _ _ 0); lia.
  - reflexivity.
Qed.

Lemma iter_pos_shr_1_m (n : positive) (mrs : shr_record) :
  0 <= shr_m mrs ->
  shr_m (SpecFloat.iter_pos shr_1 n mrs) = shr_m mrs / 2 ^ Z.pos n.
Proof.
  revert mrs. induction n as [n IH|n IH|]; intros mrs Hm; cbn [SpecFloat.iter_pos].
  - assert (0 <= shr_m (shr_1 mrs)) as H1
      by (rewrite shr_1_m by assumption; apply Z.div_pos; lia).
    assert (0 <= shr_m (SpecFloat.iter_pos shr_1 n (shr_1 mrs))) as H2
      by (rewrite IH by assumption; apply Z.div_pos; lia).
    rewrite IH, IH, shr_1_m by assumption.
    rewrite !Z.div_div by lia.
    f_equal. rewrite (Pos2Z.inj_xI n).
    replace (2 * Z.pos n + 1) with (1 + Z.pos n + Z.pos n) by lia.
    rewrite (Z.pow_add_r 2 (1 + Z.pos n) (Z.pos n)) by lia.
    rewrite (Z.pow_add_r 2 1 (Z.pos n)) by lia. lia.
  - assert (0 <= shr_m (SpecFloat.iter_pos shr_1 n mrs)) as H2
      by (rewrite IH by assumption; apply Z.div_pos; lia).
    rewrite IH, IH by assumption.
    rewrite !Z.div_div by lia.
    f_equal. rewrite (Pos2Z.inj_xO n).
    replace (2 * Z.pos n) with (Z.pos n + Z.pos n) by lia.
    rewrite (Z.pow_add_r 2 (Z.pos n) (Z.pos n)) by lia. lia.
  - rewrite shr_1_m by assumption. reflexivity.
Qed.

Lemma shr_record_of_loc_m (m : Z) (l : location) :
  shr_m (shr_record_of_loc m l) = m.
Proof. destruct l as [|[| |]]; reflexivity. Qed.

Lemma shr_fexp_spec (m e : Z) (l : location) :
  0 <= m ->
  snd (shr_fexp prec emax m e l)
    = Z.max e (fexp prec emax (Zdigits2 m + e))
  /\ shr_m (fst (shr_fexp prec emax m e l))
    = m / 2 ^ (snd (shr_fexp prec emax m e l) - e).
Proof.
  intros Hm. unfold shr_fexp, shr.
  destruct (fexp prec emax (Zdigits2 m + e) - e) as [|n|n] eqn:Hn;
    cbn [fst snd].
  - split; [lia|].
    rewrite Z.sub_diag, Z.pow_0_r, Z.div_1_r. apply shr_record_of_loc_m.
  - split; [lia|].
    rewrite iter_pos_shr_1_m by (rewrite shr_record_of_loc_m; exact Hm).
    rewrite shr_record_of_loc_m. do 2 f_equal. lia.
  - split; [lia|].
    rewrite Z.sub_diag, Z.pow_0_r, Z.div_1_r. apply shr_record_of_loc_m.
Qed.

Lemma round_nearest_even_bounds (mx : Z) (lx : location) :
  mx <= round_nearest_even mx lx <= mx + 1.
Proof.
  unfold round_nearest_even.
  destruct lx as [|[| |]]; try destruct (Z.even mx); lia.
Qed.

Lemma pow2_split (a b : Z) : 0 <= a -> 0 <= b -> 2 ^ (a + b) = 2 ^ a * 2 ^ b.
Proof. intros. apply Z.pow_add_r; assumption. Qed.

Lemma pow2_pos (a : Z) : 0 <= a -> 1 <= 2 ^ a.
Proof. intros. assert (0 < 2 ^ a) by (apply Z.pow_pos_nonneg; lia). lia. Qed.

(** A positive number below [2 ^ n] forces [n] to be positive. *)
Lemma below_pow2_pos (x n : Z) : 1 <= x -> x < 2 ^ n -> 1 <= n.
Proof.
  intros Hx Hlt. destruct (Z_lt_le_dec n 1) as [Hn|Hn]; [|exact Hn].
  exfalso. destruct (Z.eq_dec n 0) as [->|Hn0].
  - cbn in Hlt. lia.
  - rewrite Z.pow_neg_r in Hlt by lia. lia.
Qed.

Lemma div_pow2_below (x a b : Z) :
  0 <= a -> 0 <= b -> 0 <= x < 2 ^ (a + b) -> 0 <= x / 2 ^ b < 2 ^ a.
Proof.
  intros Ha Hb [Hx Hlt]. pose proof (pow2_pos b Hb).
  split; [apply Z.div_pos; lia|].
  apply Z.div_lt_upper_bound; [lia|].
  rewrite pow2_split in Hlt by assumption. lia.
Qed.

(** Rounding a positive integer significand whose value is below [2 ^ k]
    gives a zero or a finite number whose value is below [2 ^ (k + 1)]. *)
Lemma binary_round_aux_below (s : bool) (p : positive) (E k : Z) :
  -1074 <= k <= 970 ->
  Z.pos p < 2 ^ (k - E) ->
  binary_round_aux prec emax s (Z.pos p) E loc_Exact = S754_zero s
  \/ exists m e,
       binary_round_aux prec emax s (Z.pos p) E loc_Exact = S754_finite s m e
       /\ Z.pos m < 2 ^ (k + 1 - e).
Proof.
  intros Hk Hp.
  assert (1 <= k - E) as HkE by (apply (below_pow2_pos (Z.pos p)); lia).
  unfold binary_round_aux.
  destruct (shr_fexp_spec (Z.pos p) E loc_Exact) as [He1 Hm1]; [lia|].
  destruct (shr_fexp prec emax (Z.pos p) E loc_Exact) as [mrs1 e1].
  cbn [fst snd] in He1, Hm1.
  assert (Zdigits2 (Z.pos p) <= k - E) as Hd
    by (apply Zdigits2_le; lia).
  assert (E <= e1 <= k) as Hbe1
    by (rewrite He1; unfold fexp, SpecFloat.emin, prec, emax; lia).
  set (m1 := round_nearest_even (shr_m mrs1) (loc_of_shr_record mrs1)).
  assert (0 <= m1 < 2 ^ (k + 1 - e1)) as Hbm1.
  { pose proof (round_nearest_even_bounds (shr_m mrs1)
                  (loc_of_shr_record mrs1)) as Hr.
    fold m1 in Hr. rewrite Hm1 in Hr.
    destruct (div_pow2_below (Z.pos p) (k - e1) (e1 - E)) as [Hq1 Hq2];
      [lia|lia| |].
    - replace (k - e1 + (e1 - E)) with (k - E) by lia. lia.
    - replace (k + 1 - e1) with (k - e1 + 1) by lia.
      rewrite pow2_split by lia. change (2 ^ 1) with 2. lia. }
  destruct (shr_fexp_spec m1 e1 loc_Exact) as [He2 Hm2]; [lia|].
  destruct (shr_fexp prec emax m1 e1 loc_Exact) as [mrs2 e2].
  cbn [fst snd] in He2, Hm2.
  assert (Zdigits2 m1 <= k + 1 - e1) as Hd1
    by (apply Zdigits2_le; lia).
  assert (e1 <= e2 <= k + 1) as Hbe2
    by (rewrite He2; unfold fexp, SpecFloat.emin, prec, emax; lia).
  destruct (div_pow2_below m1 (k + 1 - e2) (e2 - e1)) as [Hq1 Hq2];
    [lia|lia| |].
  { replace (k + 1 - e2 + (e2 - e1)) with (k + 1 - e1) by lia. lia. }
  rewrite <- Hm2 in Hq1, Hq2.
  destruct (shr_m mrs2) as [|m2|m2]; [left; reflexivity| |lia].
  right. exists m2, e2.
  replace (e2 <=? emax - prec) with true
    by (symmetry; apply Z.leb_le; unfold emax, prec; lia).
  split; [reflexivity|exact Hq2].
Qed.

Lemma iter_xO_mul (p d : positive) :
  Z.pos (Pos.iter xO p d) = Z.pos p * 2 ^ Z.pos d.
Proof.
  induction d as [|d IH] using Pos.peano_ind.
  - cbn. lia.
  - rewrite Pos.iter_succ, (Pos2Z.inj_xO (Pos.iter xO p d)), IH, Pos2Z.inj_succ,
      Z.pow_succ_r by lia. lia.
Qed.

Lemma shl_align_spec (mx : positive) (ex ex' : Z) :
  snd (shl_align mx ex ex') = Z.min ex ex'
  /\ Z.pos (fst (shl_align mx ex ex'))
     = Z.pos mx * 2 ^ (ex - snd (shl_align mx ex ex')).
Proof.
  unfold shl_align. destruct (ex' - ex) as [|d|d] eqn:Hd; cbn [fst snd].
  - split; [lia|]. rewrite Z.sub_diag. cbn. lia.
  - split; [lia|]. rewrite Z.sub_diag. cbn. lia.
  - split; [lia|]. rewrite iter_xO_mul. do 2 f_equal. lia.
Qed.

Lemma binary_round_below (s : bool) (p : positive) (E k : Z) :
  -1074 <= k <= 970 ->
  Z.pos p < 2 ^ (k - E) ->
  binary_round prec emax s p E = S754_zero s
  \/ exists m e,
       binary_round prec emax s p E = S754_finite s m e
       /\ Z.pos m < 2 ^ (k + 1 - e).
Proof.
  intros Hk Hp.
  assert (1 <= k - E) as HkE by (apply (below_pow2_pos (Z.pos p)); lia).
  unfold binary_round.
  destruct (shl_align_spec p E (fexp prec emax (Z.pos (digits2_pos p) + E)))
    as [He Hm].
  destruct (shl_align p E _) as [mz ez]. cbn [fst snd] in He, Hm.
  apply binary_round_aux_below; [exact Hk|].
  rewrite Hm.
  replace (k - ez) with (k - E + (E - ez)) by lia.
  rewrite pow2_split by lia.
  pose proof (pow2_pos (E - ez)). nia.
Qed.

End FloatRounding.

Section RotationAngle.

Lemma Prim2SF_two_pi :
  Prim2SF (2 * math_pi) = S754_finite false two_pi_m (-50).
Proof. vm_compute. reflexivity. Qed.

Lemma Prim2SF_minus_two_pi :
  Prim2SF (-2 * math_pi) = S754_finite true two_pi_m (-50).
Proof. vm_compute. reflexivity. Qed.

Lemma Prim2SF_hundred :
  Prim2SF 100 = S754_finite false hundred_m (-46).
Proof. vm_compute. reflexivity. Qed.

(** A finite double has a significand below [2 ^ 53]. *)
Lemma valid_binary_finite (s : bool) (m : positive) (e : Z) :
  valid_binary (S754_finite s m e) = true -> Z.pos m < 2 ^ 53.
Proof.
  unfold valid_binary. cbn [SpecFloat.valid_binary].
  unfold bounded, canonical_mantissa.
  intros H. apply andb_prop in H as [H _]. apply Z.eqb_eq in H.
  pose proof (digits2_pos_bounds m) as [_ Hhi].
  assert (Z.pos (digits2_pos m) <= 53) as Hd
    by (revert H; unfold fexp, SpecFloat.emin, prec, emax; lia).
  eapply Z.lt_le_trans; [exact Hhi|].
  apply Z.pow_le_mono_r; lia.
Qed.

Lemma SFleb_finite_pos (m mc : positive) (e ec : Z) :
  SFleb (S754_finite false m e) (S754_finite false mc ec) = true ->
  e < ec \/ (e = ec /\ Z.pos m <= Z.pos mc).
Proof.
  unfold SFleb, SFcompare.
  change (Pos.compare_cont Eq m mc) with (m ?= mc)%positive.
  destruct (Z.compare_spec e ec); [|left; assumption|discriminate].
  destruct (Pos.compare_spec m mc); try discriminate; intros _; right; lia.
Qed.

Lemma SFleb_finite_neg (m mc : positive) (e ec : Z) :
  SFleb (S754_finite true mc ec) (S754_finite true m e) = true ->
  e < ec \/ (e = ec /\ Z.pos m <= Z.pos mc).
Proof.
  unfold SFleb, SFcompare.
  change (Pos.compare_cont Eq mc m) with (mc ?= m)%positive.
  destruct (Z.compare_spec ec e); [|discriminate|left; lia].
  destruct (Pos.compare_spec mc m); cbn [CompOpp]; try discriminate;
    intros _; right; lia.
Qed.

(** The sum [theta + 2 * math_pi] of a finite [theta] of magnitude at most
    [2 * math_pi]: a zero or a positive number below [2 ^ 5]. *)
Lemma angle_plus_two_pi (s : bool) (m : positive) (e : Z) :
  Z.pos m < 2 ^ 53 ->
  e < -50 \/ (e = -50 /\ Z.pos m <= Z.pos two_pi_m) ->
  SF64add (S754_finite s m e) (S754_finite false two_pi_m (-50))
    = S754_zero false
  \/ exists m1 e1,
       SF64add (S754_finite s m e) (S754_finite false two_pi_m (-50))
         = S754_finite false m1 e1
       /\ Z.pos m1 < 2 ^ (5 - e1).
Proof.
  intros Hm Hle.
  assert (e <= -50) as He by lia.
  unfold SF64add, SFadd.
  replace (Z.min e (-50)) with e by lia.
  destruct (shl_align_spec m e e) as [He1 Hm1].
  destruct (shl_align_spec two_pi_m (-50) e) as [He2 Hm2].
  destruct (shl_align m e e) as [mx ex].
  destruct (shl_align two_pi_m (-50) e) as [my ey].
  unfold cond_Zopp. cbn [fst snd] in *.
  assert (ex = e) as -> by lia. assert (ey = e) as -> by lia.
  rewrite Z.sub_diag, Z.pow_0_r, Z.mul_1_r in Hm1.
  pose proof (pow2_pos (-50 - e)) as Hp.
  assert (2 ^ 52 <= Z.pos two_pi_m < 2 ^ 53) as Hc
    by (unfold two_pi_m; split; [apply Z.leb_le|apply Z.ltb_lt];
        vm_compute; reflexivity).
  assert (2 ^ (3 - e) = 2 ^ 53 * 2 ^ (-50 - e)) as Hsplit
    by (rewrite <- pow2_split by lia; f_equal; lia).
  assert (2 ^ (4 - e) = 2 * 2 ^ (3 - e)) as Hsplit'
    by (replace (4 - e) with (1 + (3 - e)) by lia;
        rewrite pow2_split by lia; reflexivity).
  assert (Z.pos m <= Z.pos my) as Hmag.
  { rewrite Hm2. destruct Hle as [Hlt|[-> Hle]].
    - assert (2 <= 2 ^ (-50 - e)).
      { replace (-50 - e) with (1 + (-51 - e)) by lia.
        rewrite pow2_split by lia.
        pose proof (pow2_pos (-51 - e)). change (2 ^ 1) with 2. lia. }
      change (2 ^ 53) with (2 * 2 ^ 52) in Hm. nia.
    - rewrite Z.sub_diag, Z.pow_0_r. lia. }
  assert (Z.pos my < 2 ^ (3 - e)) as Hmy by (rewrite Hm2, Hsplit; nia).
  set (sum := (if s then - Z.pos mx else Z.pos mx) + Z.pos my).
  assert (0 <= sum < 2 ^ (4 - e)) as Hsum
    by (subst sum; rewrite Hm1; destruct s; lia).
  unfold binary_normalize.
  destruct sum as [|p|p]; [left; reflexivity| |lia].
  exact (binary_round_below false p e 4 ltac:(lia) ltac:(lia)).
Qed.

(** What the conversion in [rotate_robot] gives on an angle that passed the
    range assertion: an int, non-negative and below [2 ^ 13]. *)
Lemma rotation_angle_converts (theta : float) :
  PrimFloat.leb (-2 * math_pi) theta && PrimFloat.leb theta (2 * math_pi)
    = true ->
  exists converted,
    int_of_float ((theta + 2 * math_pi) * 100) = inr converted
    /\ 0 <= converted < 2 ^ 13.
Proof.
  intros H. apply andb_prop in H as [Hlo Hhi].
  rewrite leb_spec in Hlo, Hhi.
  rewrite Prim2SF_minus_two_pi in Hlo. rewrite Prim2SF_two_pi in Hhi.
  unfold int_of_float.
  rewrite mul_spec, add_spec, Prim2SF_two_pi, Prim2SF_hundred.
  pose proof (Prim2SF_valid theta) as Hv.
  destruct (Prim2SF theta) as [s|s| |s m e].
  - exists 628. split; [destruct s; vm_compute; reflexivity|].
    change (2 ^ 13) with 8192. lia.
  - destruct s; cbv in Hlo, Hhi; discriminate.
  - cbv in Hlo. discriminate.
  - apply valid_binary_finite in Hv.
    assert (e < -50 \/ (e = -50 /\ Z.pos m <= Z.pos two_pi_m)) as Hle.
    { destruct s.
      - apply SFleb_finite_neg. exact Hlo.
      - apply SFleb_finite_pos. exact Hhi. }
    destruct (angle_plus_two_pi s m e Hv Hle) as [->|(m1 & e1 & -> & Hm1)].
    + exists 0. split; [reflexivity|]. change (2 ^ 13) with 8192. lia.
    + unfold SF64mul, SFmul. cbn [xorb].
      assert (1 <= 5 - e1) as He1
        by (apply (below_pow2_pos (Z.pos m1)); lia).
      assert (Z.pos (m1 * hundred_m) < 2 ^ (12 - (e1 + -46))) as Hprod.
      { rewrite Pos2Z.inj_mul.
        replace (12 - (e1 + -46)) with (5 - e1 + 53) by lia.
        rewrite pow2_split by lia.
        assert (Z.pos hundred_m < 2 ^ 53)
          by (apply Z.ltb_lt; vm_compute; reflexivity).
        nia. }
      destruct (binary_round_aux_below false (m1 * hundred_m) (e1 + -46) 12)
        as [->|(m2 & e2 & -> & Hm2)]; [lia|exact Hprod| |].
      * exists 0. split; [reflexivity|]. change (2 ^ 13) with 8192. lia.
      * change (12 + 1 - e2) with (13 - e2) in Hm2.
        assert (1 <= 13 - e2) as He2
          by (apply (below_pow2_pos (Z.pos m2)); lia).
        eexists. split; [reflexivity|]. cbv zeta.
        destruct (Z.leb_spec 0 e2) as [Hpos|Hneg].
        -- pose proof (pow2_split (13 - e2) e2 ltac:(lia) Hpos) as Hs.
           replace (13 - e2 + e2) with 13 in Hs by lia.
           pose proof (pow2_pos e2 Hpos). rewrite Hs. split; [lia|nia].
        -- apply (div_pow2_below (Z.pos m2) 13 (- e2)); [lia|lia|].
           replace (13 + - e2) with (13 - e2) by lia. lia.
Qed.

End RotationAngle.

(** ** Commands after [close] *)

Section AfterClose.
Import Stm32Driver.

(** A turn of the loop leaves the running flag alone, and leaves the port
    open or not as it was. *)
Lemma run_iteration_fields (st : State) :
  is_running (run_iteration st) = is_running st
  /\ serial.is_open (port (run_iteration st)) = serial.is_open (port st)
  /\ serial.tx (port (run_iteration st)) = serial.tx (port st).
Proof.
  destruct (run_iteration_effect st) as (_ & Hrun & Hopen & Htx & _).
  auto.
Qed.

(** [close] returns whenever the receive thread, alive and leaving its loop
    by the loop test, is given at least one more test of the flag; the
    thread has then closed the port, and the bytes written so far are
    unchanged. *)
Lemma close_closes_port (thread : ReceiveThread) (fuel : nat) (st : State) :
  leaves_loop thread st ->
  exists st',
    close thread (S fuel) st = Some st'
    /\ is_running st' = false
    /\ serial.is_open (port st') = false
    /\ serial.tx (port st') = serial.tx (port st).
Proof.
  unfold close. destruct thread; cbn [leaves_loop]; intros Hleaves.
  - cbn [run set_is_running is_running fmap option_fmap option_map state_of].
    eexists. split; [reflexivity|]. repeat split.
  - destruct (run_iteration_fields (set_is_running false st))
      as (Hrun & _ & Htx).
    unfold run_iteration in Hrun, Htx.
    destruct (run_turn (set_is_running false st)) as [st2|e st2];
      [|discriminate Hleaves].
    cbn [state_of] in Hrun, Htx.
    change (is_running st2 = false) in Hrun.
    change (serial.tx (port st2) = serial.tx (port st)) in Htx.
    cbn [run]. rewrite Hrun.
    cbn [fmap option_fmap option_map state_of].
    eexists. split; [reflexivity|]. split; [exact Hrun|].
    split; [reflexivity | exact Htx].
  - contradiction.
Qed.

Lemma py_assert_false {S : Type} (cond : bool) (msg : string) (st : S)
    (rest : Result S) :
  cond = false -> py_assert cond msg st rest = Raise (AssertionError msg) st.
Proof. intros ->. reflexivity. Qed.

Lemma py_assert_true {S : Type} (cond : bool) (msg : string) (st : S)
    (rest : Result S) :
  cond = true -> py_assert cond msg st rest = rest.
Proof. intros ->. reflexivity. Qed.

Lemma send_command_closed_16bit (command param1 param2 : Z) (st : State) :
  serial.is_open (port st) = false ->
  0 <= command < 65536 -> 0 <= param1 < 65536 -> 0 <= param2 < 65536 ->
  send_command command param1 param2 st = Raise PortNotOpenError st.
Proof.
  intros Hclosed Hc H1 H2.
  destruct (send_command_16bit command param1 param2 st Hc H1 H2)
    as (packet & _ & _ & Heq).
  rewrite Heq, Hclosed. reflexivity.
Qed.

(** On a driver whose port is not open every outbound call raises and
    leaves the state, with the bytes written, as it was. A call whose
    arguments fail the range assertions raises the assertion error; any other
    raises pyserial's port-not-open error from the write: the values packed
    are 16-bit values, for [rotate_robot] because the angle is in range. *)
Lemma call_on_closed_port (c : OutboundCall) (st : State) :
  serial.is_open (port st) = false ->
  exists e,
    call c st = Raise e st
    /\ (passes_validation c = false -> exists msg, e = AssertionError msg)
    /\ (passes_validation c = true -> e = PortNotOpenError).
Proof.
  intros Hclosed.
  assert (Hsend : forall command param1 param2,
            0 <= command < 65536 -> 0 <= param1 < 65536 ->
            0 <= param2 < 65536 ->
            exists e,
              send_command command param1 param2 st = Raise e st
              /\ (true = false -> exists msg, e = AssertionError msg)
              /\ (true = true -> e = PortNotOpenError)).
  { intros command param1 param2 Hc H1 H2. exists PortNotOpenError.
    split; [apply send_command_closed_16bit; assumption|].
    split; [discriminate | reflexivity]. }
  destruct c as [dx dy|theta| | |b|ms|b|]; cbn [call passes_validation].
  - unfold translate_robot.
    destruct ((-32768 <=? dx) && (dx <=? 32767)) eqn:Hx; cbn [andb py_assert].
    + destruct ((-32768 <=? dy) && (dy <=? 32767)) eqn:Hy; cbn [py_assert].
      * apply Hsend; unfold Commands.TRANSLATE; lia.
      * eexists. split; [reflexivity|].
        split; [eauto | discriminate].
    + eexists. split; [reflexivity|]. split; [eauto | discriminate].
  - unfold rotate_robot.
    destruct (PrimFloat.leb (-2 * math_pi) theta
              && PrimFloat.leb theta (2 * math_pi)) eqn:Ht; cbn [py_assert].
    + destruct (rotation_angle_converts theta Ht)
        as (converted & -> & Hrange).
      change (2 ^ 13) with 8192 in Hrange.
      apply Hsend;
        unfold Commands.ROTATE, Constants.EMPTY_PARAM; lia.
    + eexists. split; [reflexivity|]. split; [eauto | discriminate].
  - apply Hsend; cbv; split; congruence.
  - apply Hsend; cbv; split; congruence.
  - unfold enable_red_led. destruct b; apply Hsend; cbv; split; congruence.
  - unfold flash_green_led.
    destruct ((0 <=? ms) && (ms <=? 65535)) eqn:Hms; cbn [py_assert].
    + apply Hsend; unfold Commands.FLASH_GREEN_LED, Constants.EMPTY_PARAM; lia.
    + eexists. split; [reflexivity|]. split; [eauto | discriminate].
  - unfold enable_sampling. destruct b; apply Hsend; cbv; split; congruence.
  - apply Hsend; cbv; split; congruence.
Qed.

End AfterClose.

Section ClosedDriver.
Import Stm32Driver.

(** C9, amended. When the receive thread is alive and leaves its loop by
    the loop test, [close] returns (once the thread tests its flag again)
    with the port closed by the thread, and after it every outbound command
    call raises and leaves the driver, with the bytes written to the port,
    as [close] left it. The error is the assertion error when the arguments
    fail the method's range assertions, which are checked first; otherwise
    it is the port-not-open error raised by the write. *)
Theorem commands_after_close_fail (thread : ReceiveThread) (fuel : nat)
    (st : State) (c : OutboundCall) :
  leaves_loop thread st ->
  exists st' e,
    close thread (S fuel) st = Some st'
    /\ serial.is_open (port st') = false
    /\ serial.tx (port st') = serial.tx (port st)
    /\ call c st' = Raise e st'
    /\ (passes_validation c = false -> exists msg, e = AssertionError msg)
    /\ (passes_validation c = true -> e = PortNotOpenError).
Proof.
  intros Hleaves.
  destruct (close_closes_port thread fuel st Hleaves)
    as (st' & Hclose & _ & Hclosed & Htx).
  destruct (call_on_closed_port c st' Hclosed) as (e & Hcall & Hbad & Hgood).
  exists st', e. auto 6.
Qed.

(** The theorem above for [rotate_robot 1.0] on a driver that was closed
    right after its construction, the thread being at its loop test. *)
Lemma commands_after_close_fail_witness :
  let st := init (serial.mkSerial true [] []) in
  exists st',
    close AtLoopTest 1 st = Some st'
    /\ call (CallRotateRobot 1) st' = Raise PortNotOpenError st'.
Proof.
  intros st.
  destruct (commands_after_close_fail AtLoopTest 0 st (CallRotateRobot 1) I)
    as (st' & e & Hclose & _ & _ & Hcall & _ & Hgood).
  exists st'. split; [exact Hclose|].
  rewrite <- (Hgood eq_refl). exact Hcall.
Defined.

(** C9 as stated fails, in two ways. On a closed driver
    [translate_robot 32768 0] raises the assertion error of its validation,
    not the error of the closed port. And on a driver whose receive thread
    has been ended by the exception of an observer (here on the response
    (SIGNAL_STRENGTH, 700)), the port is still open after that and after
    [close], and [stop_robot] then returns, having written its frame. *)
Lemma commands_after_close_counterexample :
  (let st := init (serial.mkSerial true [] []) in
   exists st',
     close AtLoopTest 1 st = Some st'
     /\ raised (call (CallTranslateRobot 32768 0) st')
        = Some (AssertionError
                  "The horizontal distance should be a 16 bits signed int.")
     /\ raised (call (CallTranslateRobot 32768 0) st')
        <> Some PortNotOpenError)
  /\ (let st :=
        register_hardware_observer
          (failing_observer 1 (OtherError "RuntimeError"))
          (init (serial.mkSerial true
                   (response_frame Response.SIGNAL_STRENGTH 700) [])) in
      exists st1 st2,
        run 1 st = Some (Raise (OtherError "RuntimeError") st1)
        /\ serial.is_open (port st1) = true
        /\ close Ended 0 st1 = Some st2
        /\ serial.is_open (port st2) = true
        /\ call CallStopRobot st2
           = Ok (after_write (map byte_of_Z [6; 0; 0; 0; 0; 0; 250; 255])
                   st2)).
Proof.
  split.
  - intros st. eexists. split; [reflexivity|].
    split; [reflexivity | discriminate].
  - intros st. eexists _, _. split; [reflexivity|].
    split; [reflexivity|]. split; [reflexivity|].
    split; reflexivity.
Qed.

End ClosedDriver.

(** ** The step dispatcher *)

Section Dispatcher.
Import CommandDispatcher.
Context `{MovementStrategyMethods}.
Variable a : InitArgs.


Lemma init_allocates_18 :
  snd (init (arg_movement_strategies a) (arg_interfacing_controller a)
         (arg_pathfinder a) (arg_logger a) (arg_onboard_vision a)
         (arg_antenna_information a) (arg_servo_wheels_manager a)
         (arg_capture_repositioning_manager a) (next_id a))
  = (next_id a + 18)%nat.
Proof. cbn. lia. Qed.

Lemma built_sets :
  steps_using_rotation (built a)
  = [ROTATE_BACK_AFTER_CAPTURE; ROTATE_TO_FACE_PAINTING;
     ROTATE_TO_STANDARD_HEADING]
  /\ steps_using_translation_material_servo_management (built a)
     = [DRAWING; MARKING_ANTENNA_POSITION; TRAVEL_TO_DRAWING_ZONE;
        TRAVEL_TO_PAINTINGS_AREA; SEARCH_FOR_ANTENNA; EXITING_DRAWING_ZONE]
  /\ steps_using_rotation_material_servo_management (built a)
     = [ROTATE_TO_FACE_PAINTING; ROTATE_BACK_AFTER_CAPTURE]
  /\ interfacing_controller (built a) = arg_interfacing_controller a
  /\ pathfinder (built a) = arg_pathfinder a
  /\ logger (built a) = arg_logger a
  /\ servo_wheels_manager (built a) = arg_servo_wheels_manager a.
Proof. repeat split. Qed.

(** Every entry of the table is one of the eighteen objects [__init__]
    constructed. *)
Lemma built_lookup_id (step : Step) (c : Command) :
  equivalencies (built a) !! step = Some c ->
  (next_id a <= cmd_id c < next_id a + 18)%nat.
Proof.
  unfold built, init, alloc_bind, new, alloc_ret. cbn [fst equivalencies].
  rewrite !lookup_insert, lookup_empty.
  repeat case_decide; intros Hc; try discriminate Hc;
    injection Hc as <-; cbn [cmd_id]; lia.
Qed.

(** The keys of the table are the eighteen steps of the dictionary
    display. *)
Lemma built_keys (step : Step) :
  is_Some (equivalencies (built a) !! step)
  <-> step ∈ [STANBY; PREPARE_TRAVEL_TO_ANTENNA_ZONE; TERMINATE_SEQUENCE;
              COMPUTE_PAINTINGS_AREA; PREPARE_SEARCH_FOR_ANTENNA;
              SEARCH_FOR_ANTENNA; PREPARE_MOVING_TO_ANTENNA_POSITION;
              PREPARE_MARKING_ANTENNA_POSITION;
              ACQUIRE_INFORMATION_FROM_ANTENNA;
              PREPARE_TRAVEL_TO_DRAWING_ZONE; PREPARE_TO_DRAW;
              PREPARE_EXIT_OF_DRAWING_ZONE; PREPARE_CAPTURE_OF_PAINTING;
              CAPTURE_CORRECT_PAINTING; REPOSITION_FOR_CAPTURE_RETRY;
              PREPARE_MOVING_TO_OFFSET; PREPARE_ALIGN_WITH_CAPTURE;
              PREPARE_REALIGN_WITH_FIRST_VERTEX_DRAWN].
Proof.
  unfold built, init, alloc_bind, new, alloc_ret. cbn [fst equivalencies].
  rewrite !lookup_insert, lookup_empty, !elem_of_cons, elem_of_nil.
  split.
  - repeat case_decide; intros Hs; auto 20.
    destruct Hs as [c Hc]. discriminate Hc.
  - intros Hin. repeat case_decide; eauto.
    repeat (destruct Hin as [Hin|Hin]; [congruence|]). contradiction.
Qed.

(** [get_relevant_command] in one piece: the modes it leaves and the value
    it returns, on any dispatcher. *)
Lemma get_relevant_command_eq (self : CommandDispatcher.t) (step : Step)
    (ms : MovementStrategy) :
  let ms' :=
    mkMovementStrategy
      (if bool_decide
            (step ∈ steps_using_translation_material_servo_management self)
       then TranslationStrategyType.TRUST_MATERIAL_SERVOING
       else TranslationStrategyType.BASIC_WHEEL_SERVOING)
      (if bool_decide
            (step ∈ steps_using_rotation_material_servo_management self)
       then RotationStrategyType.TRUST_MATERIAL_SERVOING
       else RotationStrategyType.BASIC_WHEEL_SERVOING) in
  let args := [AStep step; AObj (interfacing_controller self);
               AObj (pathfinder self); AObj (logger self);
               AObj (servo_wheels_manager self)] in
  get_relevant_command self step ms
  = (match equivalencies self !! step with
     | Some c => Some c
     | None =>
         if bool_decide (step ∈ steps_using_rotation self)
         then get_rotation_command ms' args
         else get_translation_command ms' args
     end, ms').
Proof.
  unfold get_relevant_command.
  destruct (bool_decide
              (step ∈ steps_using_translation_material_servo_management self));
    destruct (bool_decide
                (step ∈ steps_using_rotation_material_servo_management self));
    destruct (equivalencies self !! step) as [c|];
    cbn [truth_value translation_strategy rotation_strategy];
    try reflexivity;
    destruct (bool_decide (step ∈ steps_using_rotation self)); reflexivity.
Qed.

(** The same on the dispatcher [__init__] builds. *)
Lemma get_relevant_command_built (step : Step) (ms : MovementStrategy) :
  let ms' :=
    mkMovementStrategy
      (if bool_decide
            (step ∈ [DRAWING; MARKING_ANTENNA_POSITION; TRAVEL_TO_DRAWING_ZONE;
                     TRAVEL_TO_PAINTINGS_AREA; SEARCH_FOR_ANTENNA;
                     EXITING_DRAWING_ZONE])
       then TranslationStrategyType.TRUST_MATERIAL_SERVOING
       else TranslationStrategyType.BASIC_WHEEL_SERVOING)
      (if bool_decide
            (step ∈ [ROTATE_TO_FACE_PAINTING; ROTATE_BACK_AFTER_CAPTURE])
       then RotationStrategyType.TRUST_MATERIAL_SERVOING
       else RotationStrategyType.BASIC_WHEEL_SERVOING) in
  get_relevant_command (built a) step ms
  = (match equivalencies (built a) !! step with
     | Some c => Some c
     | None =>
         if bool_decide
              (step ∈ [ROTATE_BACK_AFTER_CAPTURE; ROTATE_TO_FACE_PAINTING;
                       ROTATE_TO_STANDARD_HEADING])
         then get_rotation_command ms' (factory_args a step)
         else get_translation_command ms' (factory_args a step)
     end, ms').
Proof. apply get_relevant_command_eq. Qed.

(** C1. On the dispatcher [__init__] builds, with factories that return a
    command, [get_relevant_command] returns a command for every step: the
    table's entry when the step is a key of the table; otherwise the result of
    the rotation factory when the step is one of the three steps using
    rotation, and the result of the translation factory for any other
    step. *)
Theorem get_relevant_command_total (step : Step) (ms : MovementStrategy) :
  (forall ms' args, is_Some (get_rotation_command ms' args)) ->
  (forall ms' args, is_Some (get_translation_command ms' args)) ->
  let r := get_relevant_command (built a) step ms in
  is_Some r.1
  /\ (forall c, equivalencies (built a) !! step = Some c -> r.1 = Some c)
  /\ (equivalencies (built a) !! step = None ->
      step ∈ [ROTATE_BACK_AFTER_CAPTURE; ROTATE_TO_FACE_PAINTING;
              ROTATE_TO_STANDARD_HEADING] ->
      r.1 = get_rotation_command r.2 (factory_args a step))
  /\ (equivalencies (built a) !! step = None ->
      step ∉ [ROTATE_BACK_AFTER_CAPTURE; ROTATE_TO_FACE_PAINTING;
              ROTATE_TO_STANDARD_HEADING] ->
      r.1 = get_translation_command r.2 (factory_args a step)).
Proof.
  intros Hrot Htrans r. subst r.
  rewrite get_relevant_command_built. cbn [fst snd].
  destruct (equivalencies (built a) !! step) as [c|] eqn:Hlookup.
  - split; [eauto|]. split; [intros c' Hc'; exact Hc'|].
    split; intros Hnone; discriminate Hnone.
  - case_bool_decide as Hin.
    + split; [apply Hrot|]. split; [intros c Hc; discriminate Hc|].
      split; [reflexivity | intros _ Hnotin; contradiction].
    + split; [apply Htrans|]. split; [intros c Hc; discriminate Hc|].
      split; [intros _ Hin'; contradiction | reflexivity].
Qed.

(** C3. On the dispatcher [__init__] builds, a call of
    [get_relevant_command] leaves the translation mode of the movement
    strategy at trust-material-servoing when the step is one of the six
    translation-servo steps and at basic-wheel-servoing otherwise, and the
    rotation mode at trust-material-servoing when the step is one of the two
    rotation-servo steps and at basic-wheel-servoing otherwise, whatever the
    modes were; the modes are set before the command is looked up or made,
    so a factory that is called sees them. *)
Theorem get_relevant_command_sets_modes (step : Step) (ms : MovementStrategy) :
  let r := get_relevant_command (built a) step ms in
  translation_strategy r.2
  = (if bool_decide
          (step ∈ [DRAWING; MARKING_ANTENNA_POSITION; TRAVEL_TO_DRAWING_ZONE;
                   TRAVEL_TO_PAINTINGS_AREA; SEARCH_FOR_ANTENNA;
                   EXITING_DRAWING_ZONE])
     then TranslationStrategyType.TRUST_MATERIAL_SERVOING
     else TranslationStrategyType.BASIC_WHEEL_SERVOING)
  /\ rotation_strategy r.2
     = (if bool_decide
             (step ∈ [ROTATE_TO_FACE_PAINTING; ROTATE_BACK_AFTER_CAPTURE])
        then RotationStrategyType.TRUST_MATERIAL_SERVOING
        else RotationStrategyType.BASIC_WHEEL_SERVOING)
  /\ r.1
     = match equivalencies (built a) !! step with
       | Some c => Some c
       | None =>
           if bool_decide
                (step ∈ [ROTATE_BACK_AFTER_CAPTURE; ROTATE_TO_FACE_PAINTING;
                         ROTATE_TO_STANDARD_HEADING])
           then get_rotation_command r.2 (factory_args a step)
           else get_translation_command r.2 (factory_args a step)
       end.
Proof.
  intros r. subst r. rewrite get_relevant_command_built. cbn [fst snd].
  split; [reflexivity|]. split; reflexivity.
Qed.

(** C4. On the dispatcher [__init__] builds, for a step that is a key of the
    table, calls of [get_relevant_command] return one and the same object,
    whatever the state of the movement strategy at each call and also when
    one call follows the other: the table's entry, one of the eighteen
    commands constructed by [__init__]. *)
Theorem static_command_is_singleton (step : Step)
    (ms1 ms2 : MovementStrategy) :
  is_Some (equivalencies (built a) !! step) ->
  exists c,
    equivalencies (built a) !! step = Some c
    /\ (next_id a <= cmd_id c < next_id a + 18)%nat
    /\ (get_relevant_command (built a) step ms1).1 = Some c
    /\ (get_relevant_command (built a) step ms2).1 = Some c
    /\ (get_relevant_command (built a) step
          (get_relevant_command (built a) step ms1).2).1 = Some c.
Proof.
  intros [c Hc]. exists c. split; [exact Hc|].
  split; [apply (built_lookup_id step c Hc)|].
  rewrite !get_relevant_command_built, Hc. repeat split.
Qed.

End Dispatcher.

(** The theorem for C1 on [sample_strategy], at a step the table does not
    hold and the rotation list does. *)
Lemma get_relevant_command_total_witness :
  let ms := mkMovementStrategy TranslationStrategyType.TRUST_MATERIAL_SERVOING
                               RotationStrategyType.TRUST_MATERIAL_SERVOING in
  (@CommandDispatcher.get_relevant_command sample_strategy
     (built sample_args) ROTATE_TO_STANDARD_HEADING ms).1
  = Some (mkCommand 1000 (MovementCommand "RotateBasicWheels")
            (factory_args sample_args ROTATE_TO_STANDARD_HEADING)).
Proof.
  intros ms.
  destruct (@get_relevant_command_total sample_strategy sample_args
              ROTATE_TO_STANDARD_HEADING ms) as (_ & _ & Hrot & _).
  - intros ms' args. eexists. reflexivity.
  - intros ms' args. eexists. reflexivity.
  - rewrite Hrot.
    + reflexivity.
    + reflexivity.
    + do 2 apply list_elem_of_further. apply list_elem_of_here.
Defined.

(** The theorem for C4 at the step STANBY. *)
Lemma static_command_is_singleton_witness :
  let ms1 := mkMovementStrategy TranslationStrategyType.TRUST_MATERIAL_SERVOING
                                RotationStrategyType.TRUST_MATERIAL_SERVOING in
  let ms2 := mkMovementStrategy TranslationStrategyType.BASIC_WHEEL_SERVOING
                                RotationStrategyType.BASIC_WHEEL_SERVOING in
  exists c,
    (@CommandDispatcher.get_relevant_command sample_strategy
       (built sample_args) STANBY ms1).1 = Some c
    /\ (@CommandDispatcher.get_relevant_command sample_strategy
          (built sample_args) STANBY ms2).1 = Some c
    /\ cmd_class c = BuildGameMapCommand.
Proof.
  intros ms1 ms2.
  destruct (@static_command_is_singleton sample_strategy sample_args
              STANBY ms1 ms2) as (c & Hc & _ & H1 & H2 & _).
  - eexists. reflexivity.
  - exists c. split; [exact H1|]. split; [exact H2|].
    assert (Hlookup : CommandDispatcher.equivalencies (built sample_args)
                      !! STANBY
                      = Some (mkCommand 100 BuildGameMapCommand
                                [AStep STANBY; AObj 2%nat; AObj 3%nat;
                                 AObj 4%nat])) by reflexivity.
    rewrite Hlookup in Hc. injection Hc as <-. reflexivity.
Defined.

(** * Further properties of the driver *)

Section Framing.
Import Stm32Driver.

Lemma set_port_same (st : State) : set_port (port st) st = st.
Proof. destruct st. reflexivity. Qed.

(** Packing four values succeeds exactly when each is a 16-bit value. *)
Lemma pack_command_cases (a b c d : Z) :
  ((0 <= a < 65536 /\ 0 <= b < 65536 /\ 0 <= c < 65536 /\ 0 <= d < 65536)
   /\ exists packet,
        struct.pack command_format [a; b; c; d] = Some packet
        /\ length packet = 8%nat
        /\ struct.unpack command_format packet = Some [a; b; c; d])
  \/ (~ (0 <= a < 65536 /\ 0 <= b < 65536 /\ 0 <= c < 65536
         /\ 0 <= d < 65536)
      /\ struct.pack command_format [a; b; c; d] = None).
Proof.
  destruct (struct.fits_H a) eqn:Ha; [|right].
  - destruct (struct.fits_H b) eqn:Hb; [|right].
    + destruct (struct.fits_H c) eqn:Hc; [|right].
      * destruct (struct.fits_H d) eqn:Hd; [left|right].
        -- apply fits_H_range in Ha, Hb, Hc, Hd.
           split; [tauto|]. apply unpack_pack_command; assumption.
        -- split.
           ++ intros (_ & _ & _ & Hd'). apply fits_H_range in Hd'. congruence.
           ++ unfold struct.pack. cbn. rewrite Ha, Hb, Hc, Hd. reflexivity.
      * split.
        -- intros (_ & _ & Hc' & _). apply fits_H_range in Hc'. congruence.
        -- unfold struct.pack. cbn. rewrite Ha, Hb, Hc. reflexivity.
    + split.
      * intros (_ & Hb' & _). apply fits_H_range in Hb'. congruence.
      * unfold struct.pack. cbn. rewrite Ha, Hb. reflexivity.
  - split.
    + intros (Ha' & _). apply fits_H_range in Ha'. congruence.
    + unfold struct.pack. cbn. rewrite Ha. reflexivity.
Qed.

Lemma checksum_closes_sum (command param1 param2 : Z) :
  (command + param1 + param2
   + (65536 - command - param1 - param2) mod 65536) mod 65536 = 0.
Proof.
  rewrite Z.add_mod_idemp_r by lia.
  replace (command + param1 + param2 + (65536 - command - param1 - param2))
    with (1 * 65536) by lia.
  apply Z.mod_mul. lia.
Qed.

(** What a call of [send_command] can do: send one frame of eight bytes
    whose four fields are the arguments and the checksum, on an open port and
    16-bit arguments, or raise and leave the driver as it was. *)
Lemma send_command_outcome (command param1 param2 : Z) (st : State) :
  match send_command command param1 param2 st with
  | Ok st' =>
      serial.is_open (port st) = true
      /\ (0 <= command < 65536 /\ 0 <= param1 < 65536 /\ 0 <= param2 < 65536)
      /\ exists packet,
           st' = after_write packet st
           /\ length packet = 8%nat
           /\ struct.unpack command_format packet
              = Some [command; param1; param2;
                      (65536 - command - param1 - param2) mod 65536]
  | Raise e st' =>
      st' = st
      /\ ((e = StructError
           /\ ~ (0 <= command < 65536 /\ 0 <= param1 < 65536
                 /\ 0 <= param2 < 65536))
          \/ (e = PortNotOpenError /\ serial.is_open (port st) = false))
  end.
Proof.
  unfold send_command.
  destruct (pack_command_cases command param1 param2
              ((65536 - command - param1 - param2) mod 65536))
    as [(Hfit & packet & Hpack & Hlen & Hunpack)|(Hnfit & Hpack)];
    rewrite Hpack.
  - unfold serial.write. destruct (serial.is_open (port st)) eqn:Hopen.
    + split; [reflexivity|]. split; [tauto|]. exists packet. auto.
    + split; [apply set_port_same|]. right. auto.
  - split; [reflexivity|]. left. split; [reflexivity|].
    intros (Hc & H1 & H2). apply Hnfit. repeat split; try tauto;
      apply Z.mod_pos_bound; lia.
Qed.

(** X1. On an open port [send_command] sends a frame exactly when its three
    arguments are 16-bit values: then it appends to the bytes written one
    frame of eight bytes whose fields are the arguments and a checksum that
    makes the four fields sum to 0 modulo 65536; otherwise [struct.pack]
    raises and nothing is written. *)
Theorem send_command_sends_iff_16bit (command param1 param2 : Z)
    (st : State) :
  serial.is_open (port st) = true ->
  let fits := 0 <= command < 65536 /\ 0 <= param1 < 65536
              /\ 0 <= param2 < 65536 in
  let checksum := (65536 - command - param1 - param2) mod 65536 in
  (fits ->
   exists packet,
     send_command command param1 param2 st = Ok (after_write packet st)
     /\ length packet = 8%nat
     /\ struct.unpack command_format packet
        = Some [command; param1; param2; checksum]
     /\ (command + param1 + param2 + checksum) mod 65536 = 0)
  /\ (~ fits -> send_command command param1 param2 st = Raise StructError st).
Proof.
  intros Hopen fits checksum.
  pose proof (send_command_outcome command param1 param2 st) as Hout.
  destruct (send_command command param1 param2 st) as [st'|e st'].
  - destruct Hout as (_ & Hfit & packet & -> & Hlen & Hunpack). split.
    + intros _. exists packet. split; [reflexivity|]. split; [exact Hlen|].
      split; [exact Hunpack | apply checksum_closes_sum].
    + intros Hn. contradiction.
  - destruct Hout as (-> & [(-> & Hnfit)|(_ & Hclosed)]); [|congruence].
    split; [intros Hfit; contradiction | reflexivity].
Qed.

(** The theorem above at the arguments (2, 500, 0) and at (2, 65536, 0), on
    a port just opened. *)
Lemma send_command_sends_iff_16bit_witness :
  let st := init (serial.mkSerial true [] []) in
  (exists packet,
     send_command 2 500 0 st = Ok (after_write packet st)
     /\ struct.unpack command_format packet = Some [2; 500; 0; 65034])
  /\ send_command 2 65536 0 st = Raise StructError st.
Proof.
  intros st.
  destruct (send_command_sends_iff_16bit 2 500 0 st eq_refl) as (Hyes & _).
  destruct (send_command_sends_iff_16bit 2 65536 0 st eq_refl) as (_ & Hno).
  split.
  - destruct Hyes as (packet & Hsend & _ & Hunpack & _); [lia|].
    exists packet. split; [exact Hsend | exact Hunpack].
  - apply Hno. lia.
Defined.

(** X2. Whatever the outbound command and its arguments, a call that returns
    has written exactly one frame of eight bytes, with the opcode of the
    command and four fields that sum to 0 modulo 65536, on a port that was
    open and after passing the range assertions, and has changed nothing
    else; a call that raises leaves the driver, with the bytes written, as it
    was. *)
Theorem outbound_call_outcome (c : OutboundCall) (st : State) :
  match call c st with
  | Ok st' =>
      serial.is_open (port st) = true
      /\ passes_validation c = true
      /\ exists packet param1 param2 checksum,
           st' = after_write packet st
           /\ length packet = 8%nat
           /\ struct.unpack command_format packet
              = Some [opcode_of c; param1; param2; checksum]
           /\ (opcode_of c + param1 + param2 + checksum) mod 65536 = 0
  | Raise e st' => st' = st
  end.
Proof.
  assert (Hsend : forall command param1 param2,
            match send_command command param1 param2 st with
            | Ok st' =>
                serial.is_open (port st) = true
                /\ true = true
                /\ exists packet p1 p2 checksum,
                     st' = after_write packet st
                     /\ length packet = 8%nat
                     /\ struct.unpack command_format packet
                        = Some [command; p1; p2; checksum]
                     /\ (command + p1 + p2 + checksum) mod 65536 = 0
            | Raise e st' => st' = st
            end).
  { intros command param1 param2.
    pose proof (send_command_outcome command param1 param2 st) as Hout.
    destruct (send_command command param1 param2 st) as [st'|e st'].
    - destruct Hout as (Hopen & _ & packet & -> & Hlen & Hunpack).
      split; [exact Hopen|]. split; [reflexivity|].
      exists packet, param1, param2,
        ((65536 - command - param1 - param2) mod 65536).
      split; [reflexivity|].
      split; [exact Hlen|]. split; [exact Hunpack|].
      apply checksum_closes_sum.
    - tauto. }
  destruct c as [dx dy|theta| | |b|ms|b|];
    cbn [call passes_validation opcode_of].
  - unfold translate_robot, py_assert.
    destruct ((-32768 <=? dx) && (dx <=? 32767)); [|reflexivity].
    destruct ((-32768 <=? dy) && (dy <=? 32767)); [|reflexivity].
    apply Hsend.
  - unfold rotate_robot, py_assert.
    destruct (PrimFloat.leb (-2 * math_pi) theta
              && PrimFloat.leb theta (2 * math_pi)); [|reflexivity].
    destruct (int_of_float _) as [e|converted]; [reflexivity|].
    apply Hsend.
  - apply Hsend.
  - apply Hsend.
  - unfold enable_red_led. apply Hsend.
  - unfold flash_green_led, py_assert.
    destruct ((0 <=? ms) && (ms <=? 65535)); [|reflexivity].
    apply Hsend.
  - unfold enable_sampling. apply Hsend.
  - apply Hsend.
Qed.

End Framing.

Section OtherCommands.
Import Stm32Driver.

(** X3. On an open port [flash_green_led] sends the frame (FLASH_GREEN_LED,
    milliseconds, 0, checksum) when the duration is in [0, 65535], and
    otherwise raises the assertion error of its range check and writes
    nothing. *)
Theorem flash_green_led_spec (milliseconds : Z) (st : State) :
  serial.is_open (port st) = true ->
  (0 <= milliseconds <= 65535 ->
   exists packet,
     flash_green_led milliseconds st = Ok (after_write packet st)
     /\ length packet = 8%nat
     /\ struct.unpack command_format packet
        = Some [Commands.FLASH_GREEN_LED; milliseconds; 0;
                (65536 - Commands.FLASH_GREEN_LED - milliseconds - 0)
                mod 65536])
  /\ (~ 0 <= milliseconds <= 65535 ->
      flash_green_led milliseconds st
      = Raise (AssertionError "The duration should be a 16 bits unsigned int.")
              st).
Proof.
  intros Hopen. unfold flash_green_led, py_assert. split.
  - intros Hms.
    replace ((0 <=? milliseconds) && (milliseconds <=? 65535)) with true
      by (symmetry; apply andb_true_iff; lia).
    pose proof (send_command_outcome Commands.FLASH_GREEN_LED milliseconds
                  Constants.EMPTY_PARAM st) as Hout.
    destruct (send_command _ _ _ st) as [st'|e st'].
    + destruct Hout as (_ & _ & packet & -> & Hlen & Hunpack).
      exists packet. auto.
    + destruct Hout as (_ & [(_ & Hnfit)|(_ & Hclosed)]); [|congruence].
      exfalso. apply Hnfit.
      unfold Commands.FLASH_GREEN_LED, Constants.EMPTY_PARAM. lia.
  - intros Hms.
    replace ((0 <=? milliseconds) && (milliseconds <=? 65535)) with false;
      [reflexivity|].
    symmetry. apply andb_false_iff. lia.
Qed.

(** The theorem above at 250 ms and at 65536 ms, on a port just opened. *)
Lemma flash_green_led_spec_witness :
  let st := init (serial.mkSerial true [] []) in
  (exists packet,
     flash_green_led 250 st = Ok (after_write packet st)
     /\ struct.unpack command_format packet = Some [2; 250; 0; 65284])
  /\ raised (flash_green_led 65536 st)
     = Some (AssertionError "The duration should be a 16 bits unsigned int.").
Proof.
  intros st.
  destruct (flash_green_led_spec 250 st eq_refl) as (Hyes & _).
  destruct (flash_green_led_spec 65536 st eq_refl) as (_ & Hno).
  split.
  - destruct Hyes as (packet & Hsend & _ & Hunpack); [lia|].
    exists packet. split; [exact Hsend | exact Hunpack].
  - rewrite Hno; [reflexivity | lia].
Defined.

(** X4. The bytes on the wire of the commands without a numeric argument,
    on an open port: [stop_robot], [reset_robot] and [decode_manchester] send
    their opcode with two zero parameters, [enable_red_led] and
    [enable_sampling] send 0xFFFF for [True] and 0x0000 for [False]; each
    field is little-endian and the last one is the checksum. *)
Theorem fixed_command_frames (st : State) :
  serial.is_open (port st) = true ->
  let sent bytes := Ok (after_write (map byte_of_Z bytes) st) in
  stop_robot st = sent [6; 0; 0; 0; 0; 0; 250; 255]
  /\ reset_robot st = sent [7; 0; 0; 0; 0; 0; 249; 255]
  /\ decode_manchester st = sent [5; 0; 0; 0; 0; 0; 251; 255]
  /\ enable_red_led true st = sent [3; 0; 255; 255; 0; 0; 254; 255]
  /\ enable_red_led false st = sent [3; 0; 0; 0; 0; 0; 253; 255]
  /\ enable_sampling true st = sent [4; 0; 255; 255; 0; 0; 253; 255]
  /\ enable_sampling false st = sent [4; 0; 0; 0; 0; 0; 252; 255].
Proof.
  intros Hopen sent. subst sent.
  destruct st as [obs [o r t] run rdy sig ant out nt].
  simpl in Hopen. subst o. repeat split.
Qed.

(** The theorem above on a port just opened: the bytes [stop_robot]
    writes. *)
Lemma fixed_command_frames_witness :
  serial.tx (port (state_of (stop_robot (init (serial.mkSerial true [] [])))))
  = map byte_of_Z [6; 0; 0; 0; 0; 0; 250; 255].
Proof.
  destruct (fixed_command_frames (init (serial.mkSerial true [] [])) eq_refl)
    as (Hstop & _).
  rewrite Hstop. reflexivity.
Defined.

End OtherCommands.

Section RotateCommand.
Import Stm32Driver.

(** X29. On an open port [rotate_robot] sends a frame for every angle that
    passes its range assertion: the conversion
    [int((theta + 2 * math.pi) * 100)] then gives a value in [0, 8191], so
    neither the conversion nor [struct.pack] raises, and the frame is
    (ROTATE, converted angle, 0, checksum). An angle that fails the
    assertion (outside the range, or a NaN) raises the assertion error and
    nothing is written. *)
Theorem rotate_robot_spec (theta : float) (st : State) :
  serial.is_open (port st) = true ->
  (passes_validation (CallRotateRobot theta) = true ->
   exists converted packet,
     int_of_float ((theta + 2 * math_pi) * 100) = inr converted
     /\ 0 <= converted <= 8191
     /\ rotate_robot theta st = Ok (after_write packet st)
     /\ length packet = 8%nat
     /\ struct.unpack command_format packet
        = Some [Commands.ROTATE; converted; 0;
                (65536 - Commands.ROTATE - converted - 0) mod 65536])
  /\ (passes_validation (CallRotateRobot theta) = false ->
      rotate_robot theta st
      = Raise (AssertionError
                 "The rotation angle should be in the range [-2Pi, 2Pi].")
              st).
Proof.
  intros Hopen. cbn [passes_validation]. unfold rotate_robot. split.
  - intros Ht. rewrite Ht. cbn [py_assert].
    destruct (rotation_angle_converts theta Ht) as (converted & -> & Hrange).
    change (2 ^ 13) with 8192 in Hrange.
    destruct (send_command_16bit Commands.ROTATE converted
                Constants.EMPTY_PARAM st)
      as (packet & Hunpack & Hlen & Heq);
      [unfold Commands.ROTATE; lia | lia
      | unfold Constants.EMPTY_PARAM; lia |].
    rewrite Hopen in Heq.
    exists converted, packet. split; [reflexivity|]. split; [lia|].
    split; [exact Heq|]. split; [exact Hlen | exact Hunpack].
  - intros Ht. rewrite Ht. reflexivity.
Qed.

(** The theorem above on a port just opened: at the angle 1.0, which is
    sent as 728, and at the angle 7.0 and at a NaN, which fail the
    assertion. *)
Lemma rotate_robot_spec_witness :
  let st := init (serial.mkSerial true [] []) in
  (exists packet,
     rotate_robot 1 st = Ok (after_write packet st)
     /\ struct.unpack command_format packet = Some [1; 728; 0; 64807])
  /\ raised (rotate_robot 7 st)
     = Some (AssertionError
               "The rotation angle should be in the range [-2Pi, 2Pi].")
  /\ raised (rotate_robot nan st)
     = Some (AssertionError
               "The rotation angle should be in the range [-2Pi, 2Pi].").
Proof.
  intros st.
  destruct (rotate_robot_spec 1 st eq_refl) as (Hyes & _).
  destruct (rotate_robot_spec 7 st eq_refl) as (_ & Hno).
  destruct (rotate_robot_spec nan st eq_refl) as (_ & Hnan).
  split; [|split].
  - destruct (Hyes eq_refl)
      as (converted & packet & Hconv & _ & Hsend & _ & Hunpack).
    exists packet. split; [exact Hsend|].
    assert (converted = 728) as -> by (vm_compute in Hconv; congruence).
    exact Hunpack.
  - rewrite (Hno eq_refl). reflexivity.
  - rewrite (Hnan eq_refl). reflexivity.
Defined.

End RotateCommand.

Section Responses.
Import Stm32Driver.

(** X5. An STM_READY response with a valid checksum sets the ready flag and
    does nothing else, whatever its parameter: besides the six bytes consumed
    the driver is as before, nothing is printed and no observer is
    notified. *)
Theorem stm_ready_sets_flag_only (param : Z) (rest : list byte) (st : State) :
  0 <= param < 65536 ->
  serial.rx (port st) = response_frame Response.STM_READY param ++ rest ->
  run_iteration st
  = mkState (observers st)
            (serial.mkSerial (serial.is_open (port st)) rest
                             (serial.tx (port st)))
            (is_running st) true (signal_strength st)
            (antenna_information st) (stdout st) (notified st).
Proof.
  intros Hp Hrx. unfold run_iteration.
  rewrite (run_turn_response Response.STM_READY param rest st);
    [reflexivity | unfold Response.STM_READY; lia | assumption | assumption].
Qed.

(** The theorem above on a driver that has just received the response
    (STM_READY, 0). *)
Lemma stm_ready_sets_flag_only_witness :
  let st := init (serial.mkSerial true
                    (response_frame Response.STM_READY 0) []) in
  is_ready (run_iteration st) = true /\ notified (run_iteration st) = [].
Proof.
  intros st.
  rewrite (stm_ready_sets_flag_only 0 [] st ltac:(lia) eq_refl).
  split; reflexivity.
Defined.

(** X6. A SIGNAL_STRENGTH response with a valid checksum stores its
    parameter as the signal strength and then calls [notify] with
    SIGNAL_STRENGTH on the registered observers in the order of
    registration, up to the first whose [notify] raises: every observer once
    when none raises, and otherwise the observers after the one that raised
    are not called. An exception other than [struct.error] ends the turn;
    [struct.error] is taken by the handler of the loop, which prints its
    line. The signal strength is stored in every case; the ready flag, the
    antenna information and the list of observers stay as they were.
    (Observers whose [notify] calls back into the driver are outside the
    model.) *)
Theorem signal_strength_stored_and_notified (param : Z) (rest : list byte)
    (st : State) :
  0 <= param < 65536 ->
  serial.rx (port st)
  = response_frame Response.SIGNAL_STRENGTH param ++ rest ->
  let st' := run_iteration st in
  let called :=
    reached (observers st) (length (notified st)) Response.SIGNAL_STRENGTH in
  let e :=
    first_raised (observers st) (length (notified st))
      Response.SIGNAL_STRENGTH in
  signal_strength st' = Some param
  /\ notified st'
     = notified st ++ map (fun o => (o, Response.SIGNAL_STRENGTH)) called
  /\ called `prefix_of` observers st
  /\ (e = None -> called = observers st)
  /\ (forall e', e = Some e' ->
      exists o,
        last called = Some o
        /\ notify_raises o (length (notified st) + length called - 1)
             Response.SIGNAL_STRENGTH = Some e')
  /\ (Forall never_raises (observers st) -> e = None)
  /\ raised (run_turn st) = after_handler e
  /\ stdout st' = stdout st ++ handler_lines e
  /\ is_ready st' = is_ready st
  /\ antenna_information st' = antenna_information st
  /\ observers st' = observers st
  /\ port st' = serial.mkSerial (serial.is_open (port st)) rest
                                (serial.tx (port st)).
Proof.
  intros Hp Hrx st' called e. subst st'. unfold run_iteration.
  rewrite (run_turn_signal_strength param rest st Hp Hrx). cbv zeta.
  rewrite state_of_outcome, raised_outcome. fold called e.
  cbn [observers port is_running is_ready signal_strength antenna_information
       stdout notified].
  do 2 (split; [reflexivity|]).
  split; [apply reached_prefix|].
  split; [apply first_raised_None|].
  split.
  { intros e' He'. destruct (first_raised_Some _ _ _ _ He') as (o & Ho & _ & Hk).
    exists o. auto. }
  split; [intros Hq; apply reached_quiet; exact Hq|].
  repeat split.
Qed.

(** The theorem above on a driver that has just received the response
    (SIGNAL_STRENGTH, 700): with two observers that return, and with an
    observer that raises registered before one that returns. *)
Lemma signal_strength_stored_and_notified_witness :
  (let st := register_hardware_observer (quiet_observer 2)
               (register_hardware_observer (quiet_observer 1)
                  (init (serial.mkSerial true
                           (response_frame Response.SIGNAL_STRENGTH 700)
                           []))) in
   signal_strength (run_iteration st) = Some 700
   /\ notified (run_iteration st)
      = [(quiet_observer 1, 9); (quiet_observer 2, 9)]
   /\ raised (run_turn st) = None)
  /\ (let st := register_hardware_observer (quiet_observer 2)
                  (register_hardware_observer
                     (failing_observer 1 (OtherError "RuntimeError"))
                     (init (serial.mkSerial true
                              (response_frame Response.SIGNAL_STRENGTH 700)
                              []))) in
      signal_strength (run_iteration st) = Some 700
      /\ notified (run_iteration st)
         = [(failing_observer 1 (OtherError "RuntimeError"), 9)]
      /\ raised (run_turn st) = Some (OtherError "RuntimeError")).
Proof.
  split; intros st.
  - destruct (signal_strength_stored_and_notified 700 [] st ltac:(lia)
                eq_refl)
      as (Hsig & Hnot & _ & _ & _ & _ & Hraised & _).
    split; [exact Hsig|]. split; [exact Hnot | exact Hraised].
  - destruct (signal_strength_stored_and_notified 700 [] st ltac:(lia)
                eq_refl)
      as (Hsig & Hnot & _ & _ & _ & _ & Hraised & _).
    split; [exact Hsig|]. split; [exact Hnot | exact Hraised].
Defined.

(** X7. A SIGNAL_DATA response with a valid checksum prints one line,
    replaces the antenna information by a new one, whatever the previous one
    was, and then calls [notify] with SIGNAL_DATA on the registered
    observers in the order of registration, up to the first whose [notify]
    raises: every observer once when none raises, and otherwise the
    observers after the one that raised are not called. An exception other
    than [struct.error] ends the turn; [struct.error] is taken by the
    handler of the loop, which prints its line. The antenna information is
    stored in every case; the ready flag, the signal strength and the list
    of observers stay as they were. (Observers whose [notify] calls back
    into the driver are outside the model.) *)
Theorem signal_data_stored_and_notified (param : Z) (rest : list byte)
    (st : State) :
  0 <= param < 65536 ->
  serial.rx (port st) = response_frame Response.SIGNAL_DATA param ++ rest ->
  let st' := run_iteration st in
  let called :=
    reached (observers st) (length (notified st)) Response.SIGNAL_DATA in
  let e :=
    first_raised (observers st) (length (notified st)) Response.SIGNAL_DATA in
  is_Some (antenna_information st')
  /\ antenna_information st'
     = antenna_information
         (run_iteration (set_antenna_information None st))
  /\ notified st'
     = notified st ++ map (fun o => (o, Response.SIGNAL_DATA)) called
  /\ called `prefix_of` observers st
  /\ (e = None -> called = observers st)
  /\ (forall e', e = Some e' ->
      exists o,
        last called = Some o
        /\ notify_raises o (length (notified st) + length called - 1)
             Response.SIGNAL_DATA = Some e')
  /\ (Forall never_raises (observers st) -> e = None)
  /\ raised (run_turn st) = after_handler e
  /\ stdout st'
     = (stdout st ++ ["DRIVER IS BUILDING ANTENNA_INFO"]) ++ handler_lines e
  /\ is_ready st' = is_ready st
  /\ signal_strength st' = signal_strength st
  /\ observers st' = observers st
  /\ port st' = serial.mkSerial (serial.is_open (port st)) rest
                                (serial.tx (port st)).
Proof.
  intros Hp Hrx st' called e. subst st'.
  rewrite (run_iteration_signal_data param rest
             (set_antenna_information None st) Hp Hrx).
  rewrite (run_iteration_signal_data param rest st Hp Hrx).
  split; [eauto|]. split; [reflexivity|].
  unfold run_iteration.
  rewrite (run_turn_signal_data param rest st Hp Hrx). cbv zeta.
  rewrite state_of_outcome, raised_outcome. fold called e.
  cbn [observers port is_running is_ready signal_strength antenna_information
       stdout notified].
  split; [reflexivity|].
  split; [apply reached_prefix|].
  split; [apply first_raised_None|].
  split.
  { intros e' He'. destruct (first_raised_Some _ _ _ _ He') as (o & Ho & _ & Hk).
    exists o. auto. }
  split; [intros Hq; apply reached_quiet; exact Hq|].
  repeat split.
Qed.

(** The theorem above on a driver that has just received the response
    (SIGNAL_DATA, 0x76): with an observer that returns, and with an observer
    that raises [struct.error] registered before it. *)
Lemma signal_data_stored_and_notified_witness :
  (let st := register_hardware_observer (quiet_observer 1)
               (init (serial.mkSerial true
                        (response_frame Response.SIGNAL_DATA 0x76) [])) in
   notified (run_iteration st) = [(quiet_observer 1, 10)]
   /\ stdout (run_iteration st) = ["DRIVER IS BUILDING ANTENNA_INFO"])
  /\ (let st := register_hardware_observer (quiet_observer 1)
                  (register_hardware_observer (failing_observer 2 StructError)
                     (init (serial.mkSerial true
                              (response_frame Response.SIGNAL_DATA 0x76)
                              []))) in
      notified (run_iteration st) = [(failing_observer 2 StructError, 10)]
      /\ stdout (run_iteration st)
         = ["DRIVER IS BUILDING ANTENNA_INFO"; "Invalid received packet"]
      /\ raised (run_turn st) = None).
Proof.
  split; intros st.
  - destruct (signal_data_stored_and_notified 0x76 [] st ltac:(lia) eq_refl)
      as (_ & _ & Hnot & _ & _ & _ & _ & _ & Hout & _).
    split; [exact Hnot | exact Hout].
  - destruct (signal_data_stored_and_notified 0x76 [] st ltac:(lia) eq_refl)
      as (_ & _ & Hnot & _ & _ & _ & _ & Hraised & Hout & _).
    split; [exact Hnot|]. split; [exact Hout | exact Hraised].
Defined.

End Responses.

Section TelemetryRanges.
Import Stm32Driver.

Lemma land_0x0C (p : Z) :
  Z.land p 0x0C
  = (if Z.testbit p 3 then 8 else 0) + (if Z.testbit p 2 then 4 else 0).
Proof.
  change 0x0C with (Z.lor (2 ^ 3) (2 ^ 2)).
  rewrite Z.land_lor_distr_r, !land_pow2 by lia.
  destruct (Z.testbit p 3), (Z.testbit p 2); reflexivity.
Qed.

(** X8. Whatever the 16-bit parameter of a SIGNAL_DATA response, the
    orientation the loop stores is 0: the masked orientation bits are not
    shifted down, so [(param & 0x0C) * 90] is 0, 360, 720 or 1080, always a
    multiple of 360. *)
Theorem signal_data_orientation_is_zero (param : Z) (rest : list byte)
    (st : State) :
  0 <= param < 65536 ->
  serial.rx (port st) = response_frame Response.SIGNAL_DATA param ++ rest ->
  exists info,
    antenna_information (run_iteration st) = Some info
    /\ orientation info = 0
    /\ (Z.land param 0x0C * 90 = 0 \/ Z.land param 0x0C * 90 = 360
        \/ Z.land param 0x0C * 90 = 720 \/ Z.land param 0x0C * 90 = 1080).
Proof.
  intros Hp Hrx. eexists. split.
  - apply (run_iteration_signal_data param rest st Hp Hrx).
  - cbn [orientation]. unfold Constants.MASK_ORIENTATION.
    rewrite land_0x0C.
    destruct (Z.testbit param 3), (Z.testbit param 2);
      (split; [reflexivity|]); auto.
Qed.

(** The theorem above at the parameter 0x0C (both orientation bits set). *)
Lemma signal_data_orientation_is_zero_witness :
  let st := init (serial.mkSerial true
                    (response_frame Response.SIGNAL_DATA 0x0C) []) in
  exists info,
    antenna_information (run_iteration st) = Some info
    /\ orientation info = 0.
Proof.
  intros st.
  destruct (signal_data_orientation_is_zero 0x0C [] st ltac:(lia) eq_refl)
    as (info & Hinfo & Hzero & _).
  exists info. split; [exact Hinfo | exact Hzero].
Defined.

(** X9. Whatever the 16-bit parameter of a SIGNAL_DATA response, the
    painting number the loop stores is 16 times the number in bits 4 to 6 of
    the parameter: one of 0, 16, ..., 112, and never one of 1, ..., 7. *)
Theorem signal_data_painting_number_range (param : Z) (rest : list byte)
    (st : State) :
  0 <= param < 65536 ->
  serial.rx (port st) = response_frame Response.SIGNAL_DATA param ++ rest ->
  exists info,
    antenna_information (run_iteration st) = Some info
    /\ painting_number info = 16 * ((param / 16) mod 8)
    /\ ~ 1 <= painting_number info <= 7.
Proof.
  intros Hp Hrx. eexists. split.
  - apply (run_iteration_signal_data param rest st Hp Hrx).
  - cbn [painting_number]. unfold Constants.MASK_FIGURE.
    assert (Hland : Z.land param 0x70 = 16 * ((param / 16) mod 8)).
    { change 0x70 with (Z.shiftl (Z.ones 3) 4).
      apply Z.bits_inj'. intros n Hn.
      rewrite Z.land_spec.
      change 16 with (2 ^ 4). change 8 with (2 ^ 3).
      rewrite Z.mul_comm, <- Z.shiftl_mul_pow2 by lia.
      rewrite <- Z.land_ones, <- Z.shiftr_div_pow2 by lia.
      destruct (Z.ltb_spec n 4) as [Hlt|Hge].
      - rewrite !Z.shiftl_spec_low by assumption. apply andb_false_r.
      - rewrite !Z.shiftl_spec by assumption.
        rewrite Z.land_spec, Z.shiftr_spec by lia.
        replace (n - 4 + 4) with n by lia. reflexivity. }
    rewrite Hland. split; [reflexivity|].
    pose proof (Z.mod_pos_bound (param / 16) 8 eq_refl). lia.
Qed.

(** The theorem above at the parameter 0x76 (painting bits 111). *)
Lemma signal_data_painting_number_range_witness :
  let st := init (serial.mkSerial true
                    (response_frame Response.SIGNAL_DATA 0x76) []) in
  exists info,
    antenna_information (run_iteration st) = Some info
    /\ painting_number info = 112.
Proof.
  intros st.
  destruct (signal_data_painting_number_range 0x76 [] st ltac:(lia) eq_refl)
    as (info & Hinfo & Hnum & _).
  exists info. split; [exact Hinfo | rewrite Hnum; reflexivity].
Defined.

End TelemetryRanges.

Section LoopInvariants.
Import Stm32Driver.

(** X10. The loop reads whole frames only: a turn with fewer than six bytes
    waiting leaves the driver exactly as it is, and [n] turns on a buffer of
    at least [6 * n] bytes consume its first [6 * n] bytes, whatever the
    bytes are (a bad checksum or an unknown opcode does not make the loop
    skip fewer or more bytes). *)
Theorem turns_consume_whole_frames (n : nat) (st : State) :
  ((serial.in_waiting (port st) < 6)%nat -> run_iteration st = st)
  /\ ((6 * n <= serial.in_waiting (port st))%nat ->
      serial.rx (port (turns n st)) = drop (6 * n) (serial.rx (port st))).
Proof.
  split.
  - intros Hlt. unfold run_iteration, run_turn.
    replace (response_size <=? serial.in_waiting (port st))%nat with false;
      [reflexivity|].
    symmetry. apply Nat.leb_gt. exact Hlt.
  - unfold serial.in_waiting. induction n as [|n IH]; intros Hlen.
    + reflexivity.
    + unfold turns in *. rewrite Nat.iter_succ.
      destruct (run_iteration_effect (Nat.iter n run_iteration st))
        as (_ & _ & _ & _ & Hrx & _).
      rewrite Hrx. unfold serial.in_waiting, response_size.
      rewrite IH by lia.
      replace (6 <=? length (drop (6 * n) (serial.rx (port st))))%nat
        with true.
      * rewrite drop_drop. f_equal. lia.
      * symmetry. apply Nat.leb_le. rewrite length_drop. lia.
Qed.

(** The theorem above on a buffer of thirteen bytes: two turns leave one
    byte. *)
Lemma turns_consume_whole_frames_witness :
  let st := init (serial.mkSerial true
                    (map byte_of_Z [8; 0; 0; 0; 0; 0; 1; 2; 3; 4; 5; 6; 7])
                    []) in
  serial.rx (port (turns 2 st)) = map byte_of_Z [7].
Proof.
  intros st.
  destruct (turns_consume_whole_frames 2 st) as (_ & Hdrop).
  rewrite Hdrop; [reflexivity|]. cbn. lia.
Defined.


(** X12. Telemetry is never cleared by the loop: over any number of turns a
    ready flag that is set stays set, and a signal strength or an antenna
    information that is present stays present (it may be replaced). *)
Theorem telemetry_is_never_cleared (n : nat) (st : State) :
  (is_ready st = true -> is_ready (turns n st) = true)
  /\ (is_Some (signal_strength st) -> is_Some (signal_strength (turns n st)))
  /\ (is_Some (antenna_information st) ->
      is_Some (antenna_information (turns n st))).
Proof.
  unfold turns. induction n as [|n (IHready & IHsig & IHant)].
  - auto.
  - rewrite Nat.iter_succ.
    destruct (run_iteration_effect (Nat.iter n run_iteration st))
      as (_ & _ & _ & _ & _ & _ & _ & Hready & Hsig & Hant).
    repeat split; auto.
Qed.

(** [run] started with the flag set does not end normally: within any
    number of turns it is still looping, or an exception has ended it. *)
Lemma run_while_flag_set (fuel : nat) (st : State) :
  is_running st = true ->
  run fuel st = None
  \/ exists e st',
       run fuel st = Some (Raise e st')
       /\ is_running st' = true
       /\ observers st' = observers st
       /\ serial.is_open (port st') = serial.is_open (port st)
       /\ e <> StructError
       /\ exists o n r, o ∈ observers st /\ notify_raises o n r = Some e.
Proof.
  revert st. induction fuel as [|fuel IH]; intros st Hrun; cbn [run].
  - left. reflexivity.
  - rewrite Hrun.
    destruct (run_iteration_effect st) as (Hobs & Hrun' & Hopen & _).
    pose proof (run_turn_raises st) as Hraise.
    unfold run_iteration in Hobs, Hrun', Hopen.
    destruct (run_turn st) as [st1|e st1]; cbn [state_of raised] in *.
    + destruct (IH st1) as [Hnone|(e & st' & Heq & Hr & Ho & Hp & He)].
      * rewrite Hrun'. exact Hrun.
      * left. exact Hnone.
      * right. exists e, st'. rewrite <- Hobs, <- Hopen. auto 8.
    + right. exists e, st1. destruct (Hraise e eq_refl) as (Hne & Hwho).
      split; [reflexivity|]. rewrite Hrun', Hobs, Hopen. auto.
Qed.

(** X13. The loop of [run] ends normally only when the running flag is
    cleared from outside. Started with the flag set, it has not reached the
    statement that closes the port after any number of turns, whatever
    arrives on the port: it is still looping, or an exception that the
    [notify] of a registered observer raised (other than [struct.error]) has
    ended [run], with the flag still set and the port open or not as it was;
    with observers that never raise it is still looping. Started with the
    flag cleared, it returns at once after closing the port, without reading
    anything. (Exceptions of the port itself are outside the model.) *)
Theorem run_ends_only_when_flag_cleared (fuel : nat) (st : State) :
  (is_running st = true ->
   (forall st', run fuel st <> Some (Ok st'))
   /\ (Forall never_raises (observers st) -> run fuel st = None)
   /\ (forall e st',
         run fuel st = Some (Raise e st') ->
         is_running st' = true
         /\ serial.is_open (port st') = serial.is_open (port st)
         /\ e <> StructError
         /\ exists o n r, o ∈ observers st /\ notify_raises o n r = Some e))
  /\ (is_running st = false ->
      run (S fuel) st = Some (Ok (set_port (serial.close (port st)) st))).
Proof.
  split.
  - intros Hrun.
    destruct (run_while_flag_set fuel st Hrun)
      as [Hnone|(e & st' & Heq & Hr & Hobs & Hopen & Hne & Hwho)].
    + rewrite Hnone. split; [discriminate|]. split; [reflexivity|].
      discriminate.
    + rewrite Heq. split; [discriminate|]. split.
      * intros Hq. exfalso. destruct Hwho as (o & n & r & Hin & Hraise).
        rewrite Forall_forall in Hq. specialize (Hq o Hin n r). congruence.
      * intros e0 st0 [= <- <-]. auto.
  - intros Hrun. cbn [run]. rewrite Hrun. reflexivity.
Qed.

(** The theorem above on a new driver (flag set, no observer) with a
    response waiting, and on the same driver with the flag cleared. *)
Lemma run_ends_only_when_flag_cleared_witness :
  let st := init (serial.mkSerial true
                    (response_frame Response.STM_READY 0) []) in
  run 50 st = None
  /\ exists st', run 1 (set_is_running false st) = Some (Ok st')
                 /\ serial.is_open (port st') = false
                 /\ is_ready st' = false.
Proof.
  intros st. split.
  - apply (run_ends_only_when_flag_cleared 50 st); [reflexivity|].
    apply Forall_nil_2.
  - eexists. split.
    + apply (run_ends_only_when_flag_cleared 0 (set_is_running false st)).
      reflexivity.
    + split; reflexivity.
Defined.

(** X14. Registration never filters: each call of
    [register_hardware_observer] adds the observer at the end of the list,
    also when it is registered already. So after [k] registrations of [o] a
    notification goes through the observers registered before, in their
    order, and then through [o] another [k] times, up to the first call that
    raises; when none of these observers ever raises, it reaches them
    all. (Observers whose [notify] calls back into the driver are outside
    the model.) *)
Theorem registration_keeps_duplicates (o : Observer) (k : nat)
    (response_type : Z) (st : State) :
  let st' := Nat.iter k (register_hardware_observer o) st in
  observers st' = observers st ++ replicate k o
  /\ notified (state_of (notify_all_observers response_type st'))
     = notified st
       ++ map (fun o' => (o', response_type))
            (reached (observers st ++ replicate k o) (length (notified st))
               response_type)
  /\ (Forall never_raises (observers st) -> never_raises o ->
      raised (notify_all_observers response_type st') = None
      /\ notified (state_of (notify_all_observers response_type st'))
         = notified st
           ++ map (fun o' => (o', response_type)) (observers st)
           ++ replicate k (o, response_type)).
Proof.
  intros st'.
  assert (Hobs : observers st' = observers st ++ replicate k o
                 /\ notified st' = notified st).
  { subst st'. induction k as [|k (IHobs & IHnot)].
    - cbn. rewrite app_nil_r. split; reflexivity.
    - rewrite Nat.iter_succ. unfold register_hardware_observer at 1 3.
      cbn [observers notified]. rewrite IHobs, IHnot, <- app_assoc.
      split; [|reflexivity]. f_equal.
      change [o] with (replicate 1 o).
      rewrite <- replicate_add. f_equal. lia. }
  destruct Hobs as (Hobs & Hnot). split; [exact Hobs|].
  rewrite notify_all_observers_eq. cbv zeta.
  rewrite state_of_outcome, raised_outcome, Hobs, Hnot.
  cbn [notified set_notified].
  split; [reflexivity|].
  intros Hq Ho.
  assert (Hall : Forall never_raises (observers st ++ replicate k o)).
  { apply Forall_app. split; [exact Hq|].
    apply Forall_replicate. exact Ho. }
  destruct (reached_quiet _ (length (notified st)) response_type Hall)
    as (-> & ->).
  split; [reflexivity|].
  rewrite map_app. do 2 f_equal.
  clear. induction k as [|k IH]; [reflexivity|]. cbn. f_equal. exact IH.
Qed.

End LoopInvariants.

(** * Further properties of the dispatcher *)

Section DispatcherTable.
Import CommandDispatcher.
Context `{MovementStrategyMethods}.
Variable a : InitArgs.

(** X15. No two keys of the table share a command: the commands stored
    under two different steps are two different objects. *)
Theorem distinct_steps_have_distinct_commands (step1 step2 : Step)
    (c1 c2 : Command) :
  equivalencies (built a) !! step1 = Some c1 ->
  equivalencies (built a) !! step2 = Some c2 ->
  step1 <> step2 ->
  cmd_id c1 <> cmd_id c2.
Proof.
  unfold built, init, alloc_bind, new, alloc_ret. cbn [fst equivalencies].
  rewrite !lookup_insert, lookup_empty.
  intros H1 H2 Hne.
  repeat case_decide; try discriminate H1; try discriminate H2;
    try congruence;
    injection H1 as <-; injection H2 as <-; cbn [cmd_id]; lia.
Qed.

(** X16. Every command of the table is bound to the step of its key and to
    the shared collaborators: its constructor arguments start with the step,
    the interfacing controller, the pathfinder and the logger, in this order;
    for SEARCH_FOR_ANTENNA alone the movement strategy comes first. *)
Theorem table_commands_are_bound_to_their_step (step : Step) (c : Command) :
  equivalencies (built a) !! step = Some c ->
  let bound := [AStep step; AObj (arg_interfacing_controller a);
                AObj (arg_pathfinder a); AObj (arg_logger a)] in
  (step <> SEARCH_FOR_ANTENNA /\ take 4 (cmd_args c) = bound)
  \/ (step = SEARCH_FOR_ANTENNA
      /\ cmd_args c
         = AObj (arg_movement_strategies a) :: bound
           ++ [AObj (arg_antenna_information a);
               AObj (arg_servo_wheels_manager a)]).
Proof.
  unfold built, init, alloc_bind, new, alloc_ret. cbn [fst equivalencies].
  rewrite !lookup_insert, lookup_empty.
  intros Hc.
  repeat case_decide; try discriminate Hc; injection Hc as <-; subst step;
    cbn [cmd_args take app];
    first [ left; split; [discriminate | reflexivity]
          | right; split; reflexivity ].
Qed.

(** X17. A call of [get_relevant_command] does not depend on the modes the
    movement strategy had before it, on any dispatcher: both modes are
    overwritten first. So a call for one step leaves no trace in the next:
    calling for [step1] and then for [step2] gives what calling for [step2]
    directly gives. *)
Theorem get_relevant_command_forgets_modes (self : CommandDispatcher.t)
    (step1 step2 : Step) (ms ms' : MovementStrategy) :
  get_relevant_command self step2 ms = get_relevant_command self step2 ms'
  /\ get_relevant_command self step2 (get_relevant_command self step1 ms).2
     = get_relevant_command self step2 ms.
Proof.
  rewrite !(get_relevant_command_eq self step2). split; reflexivity.
Qed.

Lemma built_lookup_rotation_steps :
  equivalencies (built a) !! ROTATE_BACK_AFTER_CAPTURE = None
  /\ equivalencies (built a) !! ROTATE_TO_FACE_PAINTING = None
  /\ equivalencies (built a) !! ROTATE_TO_STANDARD_HEADING = None.
Proof.
  unfold built, init, alloc_bind, new, alloc_ret. cbn [fst equivalencies].
  repeat split;
    rewrite !lookup_insert_ne by discriminate; apply lookup_empty.
Qed.

(** X18. For each of the three steps using rotation, none of which is a key
    of the table, [get_relevant_command] returns what the rotation factory
    makes, and the factory runs with the translation mode at
    basic-wheel-servoing and the rotation mode at trust-material-servoing,
    except for ROTATE_TO_STANDARD_HEADING, where the rotation mode is
    basic-wheel-servoing too. *)
Theorem rotation_steps_use_rotation_factory (step : Step)
    (ms : MovementStrategy) :
  step ∈ [ROTATE_BACK_AFTER_CAPTURE; ROTATE_TO_FACE_PAINTING;
          ROTATE_TO_STANDARD_HEADING] ->
  let ms' :=
    mkMovementStrategy
      TranslationStrategyType.BASIC_WHEEL_SERVOING
      (if decide (step = ROTATE_TO_STANDARD_HEADING)
       then RotationStrategyType.BASIC_WHEEL_SERVOING
       else RotationStrategyType.TRUST_MATERIAL_SERVOING) in
  get_relevant_command (built a) step ms
  = (get_rotation_command ms' (factory_args a step), ms').
Proof.
  intros Hin ms'. subst ms'.
  destruct built_lookup_rotation_steps as (Hback & Hface & Hstd).
  rewrite get_relevant_command_built.
  rewrite !elem_of_cons, elem_of_nil in Hin.
  destruct Hin as [->|[->|[->|[]]]].
  - rewrite Hback. reflexivity.
  - rewrite Hface. reflexivity.
  - rewrite Hstd. reflexivity.
Qed.

(** X19. For a step that is neither a key of the table nor a step using
    rotation, [get_relevant_command] returns what the translation factory
    makes, and the factory runs with the rotation mode at
    basic-wheel-servoing and the translation mode at trust-material-servoing
    exactly for DRAWING, MARKING_ANTENNA_POSITION, TRAVEL_TO_DRAWING_ZONE,
    TRAVEL_TO_PAINTINGS_AREA and EXITING_DRAWING_ZONE (SEARCH_FOR_ANTENNA,
    the sixth translation-servo step, is a key of the table and never
    reaches a factory). *)
Theorem other_steps_use_translation_factory (step : Step)
    (ms : MovementStrategy) :
  equivalencies (built a) !! step = None ->
  step ∉ [ROTATE_BACK_AFTER_CAPTURE; ROTATE_TO_FACE_PAINTING;
          ROTATE_TO_STANDARD_HEADING] ->
  let ms' :=
    mkMovementStrategy
      (if bool_decide
            (step ∈ [DRAWING; MARKING_ANTENNA_POSITION; TRAVEL_TO_DRAWING_ZONE;
                     TRAVEL_TO_PAINTINGS_AREA; EXITING_DRAWING_ZONE])
       then TranslationStrategyType.TRUST_MATERIAL_SERVOING
       else TranslationStrategyType.BASIC_WHEEL_SERVOING)
      RotationStrategyType.BASIC_WHEEL_SERVOING in
  get_relevant_command (built a) step ms
  = (get_translation_command ms' (factory_args a step), ms').
Proof.
  intros Hnone Hnotin ms'. subst ms'.
  assert (Hkey : step <> SEARCH_FOR_ANTENNA).
  { intros ->. apply eq_None_not_Some in Hnone. apply Hnone.
    apply built_keys. rewrite !elem_of_cons. tauto. }
  rewrite get_relevant_command_built, Hnone.
  rewrite (bool_decide_eq_false_2 _ Hnotin).
  rewrite !elem_of_cons, elem_of_nil in Hnotin.
  assert (Hrot : bool_decide
                   (step ∈ [ROTATE_TO_FACE_PAINTING; ROTATE_BACK_AFTER_CAPTURE])
                 = false).
  { apply bool_decide_eq_false_2. rewrite !elem_of_cons, elem_of_nil. tauto. }
  rewrite Hrot.
  assert (Htrans : bool_decide
                     (step ∈ [DRAWING; MARKING_ANTENNA_POSITION;
                              TRAVEL_TO_DRAWING_ZONE; TRAVEL_TO_PAINTINGS_AREA;
                              SEARCH_FOR_ANTENNA; EXITING_DRAWING_ZONE])
                   = bool_decide
                       (step ∈ [DRAWING; MARKING_ANTENNA_POSITION;
                                TRAVEL_TO_DRAWING_ZONE;
                                TRAVEL_TO_PAINTINGS_AREA;
                                EXITING_DRAWING_ZONE])).
  { apply bool_decide_ext. rewrite !elem_of_cons, !elem_of_nil. tauto. }
  rewrite Htrans. reflexivity.
Qed.

(** X20. For a key of the table [get_relevant_command] returns the table's
    command with both modes at basic-wheel-servoing, except for
    SEARCH_FOR_ANTENNA, the one key that is also a translation-servo step,
    where the translation mode is trust-material-servoing. *)
Theorem table_steps_modes (step : Step) (c : Command)
    (ms : MovementStrategy) :
  equivalencies (built a) !! step = Some c ->
  get_relevant_command (built a) step ms
  = (Some c,
     mkMovementStrategy
       (if decide (step = SEARCH_FOR_ANTENNA)
        then TranslationStrategyType.TRUST_MATERIAL_SERVOING
        else TranslationStrategyType.BASIC_WHEEL_SERVOING)
       RotationStrategyType.BASIC_WHEEL_SERVOING).
Proof.
  intros Hc. rewrite get_relevant_command_built, Hc.
  assert (Hkey : is_Some (equivalencies (built a) !! step)) by eauto.
  apply built_keys in Hkey. rewrite !elem_of_cons, elem_of_nil in Hkey.
  repeat (destruct Hkey as [->|Hkey]; [reflexivity|]). contradiction.
Qed.

End DispatcherTable.

(** The theorem for X15 at the steps STANBY and TERMINATE_SEQUENCE. *)
Lemma distinct_steps_have_distinct_commands_witness :
  exists c1 c2,
    CommandDispatcher.equivalencies (built sample_args) !! STANBY = Some c1
    /\ CommandDispatcher.equivalencies (built sample_args)
       !! TERMINATE_SEQUENCE = Some c2
    /\ cmd_id c1 <> cmd_id c2.
Proof.
  eexists _, _. split; [reflexivity|]. split; [reflexivity|].
  eapply (distinct_steps_have_distinct_commands sample_args
            STANBY TERMINATE_SEQUENCE);
    [reflexivity | reflexivity | discriminate].
Defined.

(** The theorem for X16 at the step CAPTURE_CORRECT_PAINTING. *)
Lemma table_commands_are_bound_to_their_step_witness :
  exists c,
    CommandDispatcher.equivalencies (built sample_args)
    !! CAPTURE_CORRECT_PAINTING = Some c
    /\ take 4 (cmd_args c)
       = [AStep CAPTURE_CORRECT_PAINTING; AObj 2%nat; AObj 3%nat; AObj 4%nat].
Proof.
  eexists. split; [reflexivity|].
  destruct (table_commands_are_bound_to_their_step sample_args
              CAPTURE_CORRECT_PAINTING _ eq_refl) as [(_ & Hargs)|(Hs & _)];
    [exact Hargs | discriminate Hs].
Defined.

(** The theorem for X18 at ROTATE_TO_FACE_PAINTING, on [sample_strategy]. *)
Lemma rotation_steps_use_rotation_factory_witness :
  let ms := mkMovementStrategy TranslationStrategyType.TRUST_MATERIAL_SERVOING
                               RotationStrategyType.BASIC_WHEEL_SERVOING in
  (@CommandDispatcher.get_relevant_command sample_strategy
     (built sample_args) ROTATE_TO_FACE_PAINTING ms).1
  = Some (mkCommand 1000 (MovementCommand "RotateTrustingMaterial")
            (factory_args sample_args ROTATE_TO_FACE_PAINTING)).
Proof.
  intros ms.
  rewrite (@rotation_steps_use_rotation_factory sample_strategy sample_args
             ROTATE_TO_FACE_PAINTING ms).
  - reflexivity.
  - apply list_elem_of_further, list_elem_of_here.
Defined.

(** The theorem for X19 at the step DRAWING, on [sample_strategy]. *)
Lemma other_steps_use_translation_factory_witness :
  let ms := mkMovementStrategy TranslationStrategyType.BASIC_WHEEL_SERVOING
                               RotationStrategyType.TRUST_MATERIAL_SERVOING in
  (@CommandDispatcher.get_relevant_command sample_strategy
     (built sample_args) DRAWING ms).1
  = Some (mkCommand 1001 (MovementCommand "TranslateTrustingMaterial")
            (factory_args sample_args DRAWING)).
Proof.
  intros ms.
  rewrite (@other_steps_use_translation_factory sample_strategy sample_args
             DRAWING ms).
  - reflexivity.
  - reflexivity.
  - rewrite !elem_of_cons, elem_of_nil. intros [Hd|[Hd|[Hd|[]]]];
      discriminate Hd.
Defined.

(** The theorem for X20 at the step SEARCH_FOR_ANTENNA, on
    [sample_strategy]. *)
Lemma table_steps_modes_witness :
  let ms := mkMovementStrategy TranslationStrategyType.BASIC_WHEEL_SERVOING
                               RotationStrategyType.TRUST_MATERIAL_SERVOING in
  translation_strategy
    (@CommandDispatcher.get_relevant_command sample_strategy
       (built sample_args) SEARCH_FOR_ANTENNA ms).2
  = TranslationStrategyType.TRUST_MATERIAL_SERVOING.
Proof.
  intros ms.
  rewrite (@table_steps_modes sample_strategy sample_args SEARCH_FOR_ANTENNA
             _ ms eq_refl).
  reflexivity.
Defined.

(** * Properties of the command handler *)

Section CommandQueues.
Import CommandHandler.
Context {Packet : Type}.
Implicit Types (self h : CommandHandler.t Packet) (q : queue.Queue Packet).

Lemma consumed_with_consumed q self : _consumed (with_consumed q self) = q.
Proof. destruct self; reflexivity. Qed.

Lemma produced_with_produced q self : _produced (with_produced q self) = q.
Proof. destruct self; reflexivity. Qed.

(** One [put_command]: the capacity stays, and the packet goes to the end of
    [_consumed] unless the queue is full. *)
Lemma put_command_consumed (packet : Packet) self :
  _consumed (put_command packet self)
  = queue.mkQueue (queue.maxsize (_consumed self))
      (if (0 <? queue.maxsize (_consumed self))
          && (queue.maxsize (_consumed self)
              <=? Z.of_nat (queue.qsize (_consumed self)))
       then queue.items (_consumed self)
       else queue.items (_consumed self) ++ [packet]).
Proof.
  unfold put_command, queue.put_nowait.
  destruct ((0 <? queue.maxsize (_consumed self))
            && (queue.maxsize (_consumed self)
                <=? Z.of_nat (queue.qsize (_consumed self)))).
  - destruct (_consumed self). reflexivity.
  - apply consumed_with_consumed.
Qed.

(** X21. [put_command] never raises and never exceeds the capacity: after
    the packets [packets] have been put in turn, a bounded queue that
    respected its capacity holds the packets it held followed by the new
    ones, cut at the capacity (the packets that came when it was full are
    dropped without a trace), and an unbounded queue holds them all, in
    order. *)
Theorem put_commands_fill_up_to_capacity (packets : list Packet) self :
  (0 < queue.maxsize (_consumed self) ->
   Z.of_nat (queue.qsize (_consumed self)) <= queue.maxsize (_consumed self)) ->
  _consumed (put_commands packets self)
  = queue.mkQueue (queue.maxsize (_consumed self))
      (if 0 <? queue.maxsize (_consumed self)
       then take (Z.to_nat (queue.maxsize (_consumed self)))
                 (queue.items (_consumed self) ++ packets)
       else queue.items (_consumed self) ++ packets).
Proof.
  unfold put_commands. revert self.
  induction packets as [|packet packets IH]; intros self Hcap;
    cbn [fold_left].
  - rewrite app_nil_r.
    destruct (Z.ltb_spec 0 (queue.maxsize (_consumed self))) as [Hpos|Hle].
    + rewrite take_ge by (unfold queue.qsize in Hcap; lia).
      destruct (_consumed self). reflexivity.
    + destruct (_consumed self). reflexivity.
  - pose proof (put_command_consumed packet self) as Hput.
    rewrite IH; rewrite Hput; cbn [queue.maxsize queue.items queue.qsize].
    + unfold queue.qsize.
      destruct (Z.ltb_spec 0 (queue.maxsize (_consumed self))) as [Hpos|Hle];
        cbn [andb]; [|rewrite <- app_assoc; reflexivity].
      specialize (Hcap Hpos). unfold queue.qsize in Hcap.
      destruct (Z.leb_spec (queue.maxsize (_consumed self))
                  (Z.of_nat (length (queue.items (_consumed self)))))
        as [Hfull|Hroom].
      * rewrite !take_app_le by lia. reflexivity.
      * rewrite <- app_assoc. reflexivity.
    + intros Hpos. specialize (Hcap Hpos). unfold queue.qsize in *.
      rewrite (proj2 (Z.ltb_lt _ _) Hpos). cbn [andb].
      destruct (Z.leb_spec (queue.maxsize (_consumed self))
                  (Z.of_nat (length (queue.items (_consumed self)))))
        as [Hfull|Hroom]; cbn [queue.items]; [lia|].
      rewrite length_app. cbn [length]. lia.
Qed.

(** One [fetch_command], by what [_produced] holds. *)
Lemma fetch_command_cases self :
  match queue.items (_produced self) with
  | [] => fetch_command self = (None, self)
  | item :: rest =>
      fetch_command self
      = (Some item,
         with_produced (queue.mkQueue (queue.maxsize (_produced self)) rest)
                       self)
  end.
Proof.
  unfold fetch_command, queue.get_nowait.
  destruct (queue.items (_produced self)); reflexivity.
Qed.

(** X22. [fetch_command] never raises and is first in, first out: [n] calls
    in a row return the [n] oldest packets of [_produced], oldest first,
    then [None] for every call made after the queue has run empty, and leave
    in the queue exactly the packets not returned. *)
Theorem fetch_commands_are_fifo (n : nat) self :
  (fetch_commands n self).1
  = map Some (take n (queue.items (_produced self)))
    ++ replicate (n - length (queue.items (_produced self))) None
  /\ _produced (fetch_commands n self).2
     = queue.mkQueue (queue.maxsize (_produced self))
                     (drop n (queue.items (_produced self))).
Proof.
  revert self. induction n as [|n IH]; intros self.
  - cbn. split; [reflexivity|]. destruct (_produced self). reflexivity.
  - cbn [fetch_commands]. pose proof (fetch_command_cases self) as Hfetch.
    destruct (queue.items (_produced self)) as [|item rest] eqn:Hitems;
      rewrite Hfetch.
    + destruct (IH self) as (Hv & Hq).
      destruct (fetch_commands n self) as [vs h2]. cbn [fst snd] in *.
      rewrite Hitems in Hv, Hq. rewrite take_nil, drop_nil in *.
      cbn [map app length] in *. rewrite Nat.sub_0_r in *.
      split; [rewrite Hv; reflexivity | exact Hq].
    + destruct (IH (with_produced
                      (queue.mkQueue (queue.maxsize (_produced self)) rest)
                      self)) as (Hv & Hq).
      destruct (fetch_commands n _) as [vs h2]. cbn [fst snd] in *.
      rewrite produced_with_produced in Hv, Hq.
      cbn [queue.items queue.maxsize] in Hv, Hq.
      split; [rewrite Hv; reflexivity | exact Hq].
Qed.

(** X23. On a handler given two queues, putting and fetching do not touch
    each other's queue: a fetch returns the same packet whether a packet was
    put before it or not, and the two calls give the same handler in either
    order. So a packet put with [put_command] is never what
    [fetch_command] returns. *)
Theorem put_and_fetch_commute_on_separate_queues (packet : Packet)
    (consumed produced : queue.Queue Packet) :
  let self := Separate consumed produced in
  (fetch_command (put_command packet self)).1 = (fetch_command self).1
  /\ (fetch_command (put_command packet self)).2
     = put_command packet (fetch_command self).2
  /\ _produced (put_command packet self) = produced
  /\ _consumed (fetch_command self).2 = consumed.
Proof.
  intros self. subst self.
  unfold put_command, fetch_command, queue.put_nowait, queue.get_nowait.
  cbn [_consumed _produced].
  destruct ((0 <? queue.maxsize consumed)
            && (queue.maxsize consumed <=? Z.of_nat (queue.qsize consumed)))
    eqn:Hfull;
    destruct (queue.items produced) as [|item rest] eqn:Hitems;
    cbn [with_consumed with_produced _consumed _produced fst snd];
    rewrite ?Hfull, ?Hitems;
    cbn [with_consumed with_produced _consumed _produced fst snd];
    repeat split; reflexivity.
Qed.

(** X24. On a handler given one queue for both roles, [fetch_command] gets
    back what [put_command] puts: after the packets [packets] have been put
    into an unbounded queue that held [held], as many fetches as there are
    packets in the queue return the held packets and then the new ones, in
    the order they were put, and empty the queue. *)
Theorem shared_queue_round_trip (held packets : list Packet) (maxsize : Z) :
  maxsize <= 0 ->
  fetch_commands (length held + length packets)
    (put_commands packets (Shared (queue.mkQueue maxsize held)))
  = (map Some (held ++ packets), Shared (queue.mkQueue maxsize [])).
Proof.
  intros Hunbounded. revert held.
  induction packets as [|packet packets IH]; intros held.
  - cbn [put_commands fold_left length]. rewrite Nat.add_0_r, app_nil_r.
    induction held as [|item held IHheld]; [reflexivity|].
    cbn [length fetch_commands]. unfold fetch_command at 1.
    cbn [_produced queue.get_nowait queue.items queue.maxsize with_produced].
    rewrite IHheld. reflexivity.
  - unfold put_commands. cbn [fold_left].
    unfold put_command at 2, queue.put_nowait.
    cbn [_consumed queue.maxsize queue.items with_consumed].
    replace (0 <? maxsize) with false by (symmetry; apply Z.ltb_ge; lia).
    cbn [andb].
    specialize (IH (held ++ [packet])). unfold put_commands in IH.
    rewrite length_app in IH. cbn [length] in IH.
    replace (length held + length (packet :: packets))%nat
      with (length held + 1 + length packets)%nat by (cbn [length]; lia).
    rewrite IH, <- app_assoc. reflexivity.
Qed.

End CommandQueues.

(** The theorem for X21 on a queue of capacity 2 that holds one packet: of
    three new packets only the first is kept. *)
Lemma put_commands_fill_up_to_capacity_witness :
  CommandHandler._consumed (put_commands [20; 30; 40]
               (CommandHandler.Separate (queue.mkQueue 2 [10]) (queue.mkQueue 0 [])))
  = queue.mkQueue 2 [10; 20].
Proof.
  rewrite (put_commands_fill_up_to_capacity [20; 30; 40]
             (CommandHandler.Separate (queue.mkQueue 2 [10]) (queue.mkQueue 0 []))).
  - reflexivity.
  - intros _. cbn. lia.
Defined.

(** The theorem for X24 on an empty unbounded queue and three packets. *)
Lemma shared_queue_round_trip_witness :
  fetch_commands 3 (put_commands [7; 8; 9] (CommandHandler.Shared (queue.mkQueue 0 [])))
  = ([Some 7; Some 8; Some 9], CommandHandler.Shared (queue.mkQueue 0 [])).
Proof.
  apply (shared_queue_round_trip [] [7; 8; 9] 0). lia.
Defined.

(** * Properties of the main model *)

Section ModelSubscriptions.
Import MainModel.
Implicit Types (f g : Callback) (l : list Callback) (m : MainModel.t).

Lemma list_remove_absent f l : f ∉ l -> list_remove f l = l.
Proof.
  induction l as [|g l IH]; intros Hnotin; cbn [list_remove]; [reflexivity|].
  apply not_elem_of_cons in Hnotin as (Hne & Hnotin).
  destruct (decide (f = g)); [contradiction|]. rewrite IH by assumption.
  reflexivity.
Qed.

Lemma list_remove_snoc f l : f ∉ l -> list_remove f (l ++ [f]) = l.
Proof.
  induction l as [|g l IH]; intros Hnotin; cbn [list_remove app].
  - destruct (decide (f = f)); [reflexivity | contradiction].
  - apply not_elem_of_cons in Hnotin as (Hne & Hnotin).
    destruct (decide (f = g)); [contradiction|]. rewrite IH by assumption.
    reflexivity.
Qed.

(** Removing from a list without duplicates removes the element
    altogether and keeps the others. *)
Lemma list_remove_elem_of f g l :
  NoDup l -> g ∈ list_remove f l <-> g ∈ l /\ g <> f.
Proof.
  induction l as [|h l IH]; intros Hnd; cbn [list_remove].
  - rewrite elem_of_nil. tauto.
  - apply NoDup_cons in Hnd as (Hh & Hnd).
    destruct (decide (f = h)) as [->|Hne].
    + rewrite elem_of_cons. split.
      * intros Hin. split; [auto|]. intros ->. contradiction.
      * intros ([->|Hin] & Hne); [contradiction | exact Hin].
    + rewrite !elem_of_cons, IH by assumption. split.
      * intros [->|(Hin & Hgf)]; split; auto.
      * intros ([->|Hin] & Hgf); auto.
Qed.

Lemma list_remove_NoDup f l : NoDup l -> NoDup (list_remove f l).
Proof.
  induction l as [|h l IH]; intros Hnd; cbn [list_remove]; [exact Hnd|].
  pose proof Hnd as Hnd'. apply NoDup_cons in Hnd' as (Hh & Hl).
  destruct (decide (f = h)); [exact Hl|].
  apply NoDup_cons. split; [|apply IH; exact Hl].
  rewrite list_remove_elem_of by assumption. tauto.
Qed.

Lemma subscribe_update_functions f m :
  _update_functions (subscribe_update_function f m)
  = if bool_decide (f ∈ _update_functions m)
    then _update_functions m
    else _update_functions m ++ [f].
Proof.
  unfold subscribe_update_function.
  destruct (bool_decide (f ∈ _update_functions m)); reflexivity.
Qed.

Lemma unsubscribe_update_functions f m :
  _update_functions (unsubscribe_update_function f m)
  = list_remove f (_update_functions m).
Proof.
  unfold unsubscribe_update_function. case_bool_decide as Hin.
  - reflexivity.
  - symmetry. apply list_remove_absent. exact Hin.
Qed.

(** The subscriptions after a run of operations on a model whose list has no
    duplicates. *)
Lemma fold_ops_subscriptions (ops : list ModelOp) m f :
  NoDup (_update_functions m) ->
  NoDup (_update_functions (fold_left apply_op ops m))
  /\ (f ∈ _update_functions (fold_left apply_op ops m)
      <-> last_subscribed f ops (bool_decide (f ∈ _update_functions m))
          = true).
Proof.
  revert m. induction ops as [|[g|g] ops IH]; intros m Hnd;
    cbn [fold_left last_subscribed apply_op].
  - split; [exact Hnd|]. symmetry. apply bool_decide_eq_true.
  - assert (Hnd' : NoDup (_update_functions (subscribe_update_function g m))).
    { rewrite subscribe_update_functions. case_bool_decide as Hin;
        [exact Hnd|].
      apply NoDup_app. split; [exact Hnd|]. split.
      - intros x Hx Hxg. apply list_elem_of_singleton in Hxg. subst x.
        contradiction.
      - apply NoDup_singleton. }
    assert (Hb : bool_decide
                   (f ∈ _update_functions (subscribe_update_function g m))
                 = if decide (f = g) then true
                   else bool_decide (f ∈ _update_functions m)).
    { rewrite subscribe_update_functions.
      destruct (decide (f = g)) as [->|Hne].
      - apply bool_decide_eq_true_2.
        destruct (bool_decide (g ∈ _update_functions m)) eqn:Hin.
        + apply bool_decide_eq_true_1 in Hin. exact Hin.
        + apply elem_of_app. right.
          apply list_elem_of_singleton. reflexivity.
      - destruct (bool_decide (g ∈ _update_functions m)); [reflexivity|].
        apply bool_decide_ext. rewrite elem_of_app, list_elem_of_singleton.
        tauto. }
    destruct (IH _ Hnd') as (IHnd & IHin). rewrite Hb in IHin.
    split; [exact IHnd | exact IHin].
  - assert (Hnd' : NoDup (_update_functions
                            (unsubscribe_update_function g m))).
    { rewrite unsubscribe_update_functions. apply list_remove_NoDup, Hnd. }
    assert (Hb : bool_decide
                   (f ∈ _update_functions (unsubscribe_update_function g m))
                 = if decide (f = g) then false
                   else bool_decide (f ∈ _update_functions m)).
    { rewrite unsubscribe_update_functions.
      destruct (decide (f = g)) as [->|Hne].
      - apply bool_decide_eq_false_2.
        rewrite list_remove_elem_of by assumption. tauto.
      - apply bool_decide_ext.
        rewrite list_remove_elem_of by assumption. tauto. }
    destruct (IH _ Hnd') as (IHnd & IHin). rewrite Hb in IHin.
    split; [exact IHnd | exact IHin].
Qed.

(** X25. Whatever subscriptions and unsubscriptions have been made on a new
    model, in whatever order, its list of update functions has no duplicate,
    and a function is in it exactly when the last operation made on that
    function was a subscription. *)
Theorem subscriptions_follow_last_operation (ops : list ModelOp) f :
  NoDup (_update_functions (after_ops ops))
  /\ (f ∈ _update_functions (after_ops ops)
      <-> last_subscribed f ops false = true).
Proof.
  unfold after_ops.
  destruct (fold_ops_subscriptions ops init f) as (Hnd & Hin).
  - apply NoDup_nil_2.
  - split; [exact Hnd|]. rewrite Hin. reflexivity.
Qed.

(** X26. Subscribing a function twice is subscribing it once; unsubscribing
    a function that was just subscribed and was not in the list before gives
    the model back as it was; and subscribing again a function that was
    unsubscribed puts it at the end of the list, behind the functions that
    stayed. *)
Theorem subscribe_and_unsubscribe_compose f m :
  subscribe_update_function f (subscribe_update_function f m)
  = subscribe_update_function f m
  /\ (f ∉ _update_functions m ->
      unsubscribe_update_function f (subscribe_update_function f m) = m)
  /\ (NoDup (_update_functions m) ->
      _update_functions
        (subscribe_update_function f (unsubscribe_update_function f m))
      = list_remove f (_update_functions m) ++ [f]).
Proof.
  split; [|split].
  - destruct (bool_decide (f ∈ _update_functions m)) eqn:Hin.
    + assert (Hsame : subscribe_update_function f m = m)
        by (unfold subscribe_update_function; rewrite Hin; reflexivity).
      rewrite !Hsame. reflexivity.
    + assert (Hadd : subscribe_update_function f m
                     = set_update_functions (_update_functions m ++ [f]) m)
        by (unfold subscribe_update_function; rewrite Hin; reflexivity).
      rewrite Hadd. unfold subscribe_update_function.
      cbn [_update_functions set_update_functions].
      rewrite bool_decide_eq_true_2; [reflexivity|].
      apply elem_of_app. right. apply list_elem_of_singleton. reflexivity.
  - intros Hnotin. unfold subscribe_update_function.
    rewrite (bool_decide_eq_false_2 _ Hnotin).
    unfold unsubscribe_update_function.
    cbn [_update_functions set_update_functions].
    rewrite bool_decide_eq_true_2
      by (apply elem_of_app; right; apply list_elem_of_singleton;
          reflexivity).
    rewrite list_remove_snoc by assumption.
    destruct m. reflexivity.
  - intros Hnd. rewrite subscribe_update_functions,
      unsubscribe_update_functions.
    rewrite bool_decide_eq_false_2; [reflexivity|].
    rewrite list_remove_elem_of by assumption. tauto.
Qed.

(** The theorem above on a model with the functions 1 and 2 subscribed, and
    the function 1. *)
Lemma subscribe_and_unsubscribe_compose_witness :
  _update_functions
    (subscribe_update_function 1%nat
       (unsubscribe_update_function 1%nat
          (after_ops [Subscribe 1%nat; Subscribe 2%nat])))
  = [2%nat; 1%nat]
  /\ unsubscribe_update_function 3%nat
       (subscribe_update_function 3%nat
          (after_ops [Subscribe 1%nat; Subscribe 2%nat]))
     = after_ops [Subscribe 1%nat; Subscribe 2%nat].
Proof.
  destruct (subscribe_and_unsubscribe_compose 1%nat
              (after_ops [Subscribe 1%nat; Subscribe 2%nat]))
    as (_ & _ & Hmove).
  destruct (subscribe_and_unsubscribe_compose 3%nat
              (after_ops [Subscribe 1%nat; Subscribe 2%nat]))
    as (_ & Hback & _).
  split.
  - rewrite Hmove; [reflexivity|].
    apply (NoDup_cons_2 1%nat [2%nat]).
    + rewrite list_elem_of_singleton. discriminate.
    + apply NoDup_singleton.
  - apply Hback.
    apply (bool_decide_eq_false_1
             (3%nat ∈ _update_functions
                        (after_ops [Subscribe 1%nat; Subscribe 2%nat]))).
    reflexivity.
Defined.





End ModelSubscriptions.

(** * The decode-failure branch of the receive loop *)

Section DecodeFailure.
Import Stm32Driver.

(** X28. The code of the loop never makes [struct.unpack] fail: the loop
    reads only when six bytes wait, reads six bytes, and six bytes always
    unpack. So the handler of [struct.error] is reached only when the
    [notify] of a registered observer raises [struct.error]. A turn prints at
    most one line of its own (the checksum message, the antenna message or
    "Invalid opcode", never "Invalid received packet"), followed by the line
    of the handler in that case only; when no registered observer raises
    [struct.error], it prints at most one line, and never "Invalid received
    packet". *)
Theorem loop_never_fails_to_unpack (st : State) :
  ((response_size <= serial.in_waiting (port st))%nat ->
   is_Some (struct.unpack response_format
              (fst (serial.read response_size (port st)))))
  /\ (exists lines e,
        stdout (run_iteration st) = stdout st ++ lines ++ handler_lines e
        /\ (length lines <= 1)%nat
        /\ ("Invalid received packet" ∉ lines)
        /\ (e = Some StructError ->
            exists o n r,
              o ∈ observers st /\ notify_raises o n r = Some StructError))
  /\ ((forall o n r,
         o ∈ observers st -> notify_raises o n r <> Some StructError) ->
      exists lines,
        stdout (run_iteration st) = stdout st ++ lines
        /\ (length lines <= 1)%nat
        /\ ("Invalid received packet" ∉ lines)).
Proof.
  assert (Hturn : exists lines e,
            stdout (run_iteration st) = stdout st ++ lines ++ handler_lines e
            /\ (length lines <= 1)%nat
            /\ ("Invalid received packet" ∉ lines)
            /\ (e = Some StructError ->
                exists o n r,
                  o ∈ observers st
                  /\ notify_raises o n r = Some StructError)).
  { destruct (run_turn_effect st)
      as (rx' & rdy & sig & ant & lines & e & calls & Heq & _ & _ & _ & _
          & Hlen & Hline & Hcalls).
    cbv zeta in Heq. exists lines, e. unfold run_iteration.
    rewrite Heq, state_of_outcome. cbn [stdout].
    do 3 (split; [auto|]).
    intros ->. destruct Hcalls as [(Hnone & _)|(r & _ & Hfirst & _)];
      [discriminate|].
    symmetry in Hfirst.
    destruct (first_raised_Some _ _ _ _ Hfirst) as (o & _ & Hin & Hk).
    eexists o, _, r. eauto. }
  split; [|split; [exact Hturn|]].
  - intros Hwait. unfold serial.read. cbn [fst].
    rewrite unpack_six_bytes; [eauto|].
    unfold serial.in_waiting, response_size in *.
    rewrite length_take. lia.
  - intros Hq. destruct Hturn as (lines & e & Hout & Hlen & Hline & He).
    exists lines. split; [|auto].
    rewrite Hout. f_equal.
    destruct e as [[]|]; cbn [handler_lines]; try apply app_nil_r.
    exfalso. destruct (He eq_refl) as (o & n & r & Hin & Hraise).
    exact (Hq o n r Hin Hraise).
Qed.

End DecodeFailure.
